(** * Uma friend-point farming automation: screen-automation engine

    A shallow embedding of [uma_automation.py] (class [UmaAutomation]):
    template matching, the retrying locate-and-tap primitives, the
    brightness-filtered multi-match search, the TP-charge sub-flow and the
    main automation loop, together with the properties of that code.

    The device (adb), the clock and OpenCV's [matchTemplate] are external:
    the device and the clock are oracles of an environment record, indexed by
    the number of device interactions so far; [matchTemplate] is a parameter.
    Everything else is translated from the Python source.  Log messages
    carry the text of the source's messages; formatted floating-point
    values (confidence, durations) and the captured stderr are left out. *)

From Stdlib Require Import ZArith QArith Lia List String Ascii.
From stdpp Require Import gmap strings list pretty.

Local Open Scope string_scope.
Local Open Scope list_scope.
Local Open Scope Z_scope.

(** ** Images and score maps *)

(** A single-channel (luminance) image as numpy holds it: a shape and the
    pixel values.  [cv2.imread] followed by [cv2.cvtColor(.., BGR2GRAY)] is a
    function of the file's bytes, so a file is stored as the luminance plane
    these two calls produce. *)
Record Gray := mkGray { rows : nat; cols : nat; pix : nat -> nat -> Z }.

(** [template_gray.shape] and [screenshot_gray.shape]: (height, width). *)
Definition shape (g : Gray) : Z * Z := (Z.of_nat (rows g), Z.of_nat (cols g)).

(** numpy indexing [g[y, x]]: negative indices wrap around once, anything
    else outside the shape raises IndexError (here [None]). *)
Definition np_axis (n : nat) (i : Z) : option nat :=
  if (0 <=? i) && (i <? Z.of_nat n) then Some (Z.to_nat i)
  else if (i <? 0) && (- Z.of_nat n <=? i) then Some (Z.to_nat (i + Z.of_nat n))
  else None.

Definition np_index (g : Gray) (y x : Z) : option Z :=
  match np_axis (rows g) y, np_axis (cols g) x with
  | Some r, Some c => Some (pix g r c)
  | _, _ => None
  end.

(** The result array of [cv2.matchTemplate]: rows of scores.  Scores and
    thresholds are read as the rational numbers they denote, on which the
    comparisons of the source are exact. *)
Definition ScoreMap := list (list Q).

(** The cells of a score map in row-major order (the order in which numpy
    and OpenCV scan an array): score and (x, y) position. *)
Definition row_cells (y : nat) (row : list Q) : list (Q * (Z * Z)) :=
  imap (fun x v => (v, (Z.of_nat x, Z.of_nat y))) row.

Definition cells (result : ScoreMap) : list (Q * (Z * Z)) :=
  concat (imap row_cells result).

(** [cv2.minMaxLoc], the part the source uses: the maximum and the (x, y)
    location of its first occurrence in scan order; [None] on an empty
    array, where OpenCV raises. *)
Definition better (best c : Q * (Z * Z)) : Q * (Z * Z) :=
  if Qle_bool (fst c) (fst best) then best else c.

Definition minMaxLoc (result : ScoreMap) : option (Q * (Z * Z)) :=
  match cells result with
  | [] => None
  | c :: cs => Some (fold_left better cs c)
  end.

(** [np.where(result >= threshold)] followed by
    [list(zip( *locations[::-1]))]: the (x, y) positions whose score reaches
    the threshold, in scan order. *)
Definition np_where_ge (result : ScoreMap) (threshold : Q) : list (Z * Z) :=
  map snd (filter (fun c => Qle_bool threshold (fst c) = true) (cells result)).

(** ** Exceptions, events, world *)

Inductive Exn :=
| TimeoutExpired      (* subprocess.TimeoutExpired *)
| RuntimeError
| KeyError
| ValueError
| IndexError
| CvError             (* cv2.error *)
| FileNotFoundError
| JSONDecodeError
| KeyboardInterrupt.

(** [except Exception] catches everything but KeyboardInterrupt. *)
Definition is_Exception (e : Exn) : bool :=
  match e with KeyboardInterrupt => false | _ => true end.

Inductive Level := DEBUG | INFO | WARNING | ERROR.

Inductive Event :=
| EScreencap (ok : bool)          (* adb exec-out screencap -p was run *)
| EWrite (path : string)          (* a file was written *)
| ERemove (path : string)         (* os.remove *)
| EExists (path : string)         (* os.path.exists *)
| EImread (path : string)         (* cv2.imread *)
| ETap (x y : Z)                  (* adb shell input tap x y was run *)
| ESleep (seconds : Q)            (* time.sleep *)
| ELog (lvl : Level) (msg : string).

(** What the device answers. *)
Inductive CapResult :=
| CapOk (bytes : option Gray)     (* return code 0; [None]: bytes that do not decode *)
| CapFail                         (* non-zero return code *)
| CapTimeout                      (* subprocess.TimeoutExpired *)
| CapInterrupt.                   (* Ctrl-C while the command runs *)

Inductive TapResult := TapOk | TapFail | TapTimeout | TapInterrupt.

(** What [adb connect] answers at start-up, and what reading [config.json]
    gives. *)
Inductive ConnectResult :=
| ConnOk (connected : bool)       (* ["connected" in result.stdout.lower()] *)
| ConnTimeout
| ConnNoAdb.                      (* adb is not on the PATH *)

Inductive ConfigFile := ConfigLoaded | ConfigMissing | ConfigInvalid.

(** The environment: the start-up answers, and the answers of the device
    and of the clock at the n-th interaction of the run. *)
Record Env := mkEnv {
  config_file : ConfigFile;
  adb_connect : ConnectResult;
  screencap : nat -> CapResult;
  input_tap : nat -> TapResult;
  sleep_interrupted : nat -> bool;
  clock : nat -> Z                (* int(time.time()) *)
}.

Record World := mkWorld {
  fs : gmap string (option Gray);  (* template store and scratch directory *)
  trace : list Event;              (* everything done so far, oldest first *)
  tick : nat                       (* device interactions so far *)
}.

Definition emit (e : Event) (w : World) : World :=
  mkWorld (fs w) (trace w ++ [e]) (tick w).

Definition advance (w : World) : World :=
  mkWorld (fs w) (trace w) (S (tick w)).

Definition with_fs (f : gmap string (option Gray)) (w : World) : World :=
  mkWorld f (trace w) (tick w).

(** ** The monad of the script: state, exceptions, loop control *)

Inductive Outcome (A : Type) :=
| Normal (a : A)
| Raised (e : Exn)
| Brk                 (* break *)
| Cont                (* continue *)
| OutOfFuel.          (* a [while True] loop was cut off by the model *)
Arguments Normal {A} a.
Arguments Raised {A} e.
Arguments Brk {A}.
Arguments Cont {A}.
Arguments OutOfFuel {A}.

Definition M (A : Type) : Type := World -> Outcome A * World.

Definition ret {A} (a : A) : M A := fun w => (Normal a, w).

Definition bind {A B} (m : M A) (k : A -> M B) : M B := fun w =>
  match m w with
  | (Normal a, w1) => k a w1
  | (Raised e, w1) => (Raised e, w1)
  | (Brk, w1) => (Brk, w1)
  | (Cont, w1) => (Cont, w1)
  | (OutOfFuel, w1) => (OutOfFuel, w1)
  end.

Declare Scope script_scope.
Delimit Scope script_scope with script.
Notation "x <- m ;; k" := (bind m (fun x => k))
  (at level 100, m at next level, right associativity) : script_scope.
Notation "m ;; k" := (bind m (fun _ => k))
  (at level 100, right associativity) : script_scope.
Local Open Scope script_scope.

Definition raise {A} (e : Exn) : M A := fun w => (Raised e, w).
Definition break_ {A} : M A := fun w => (Brk, w).
Definition continue_ {A} : M A := fun w => (Cont, w).

Definition pass : M unit := ret tt.

(** An outcome that is not a value, at another result type. *)
Definition abrupt {A B} (o : Outcome A) : Outcome B :=
  match o with
  | Normal _ => OutOfFuel
  | Raised e => Raised e
  | Brk => Brk
  | Cont => Cont
  | OutOfFuel => OutOfFuel
  end.

(** [try: body finally: final].  The final block runs on every way out of
    the body; when it ends normally the body's outcome stands, otherwise its
    own outcome replaces it. *)
Definition try_finally {A} (body : M A) (final : M unit) : M A := fun w =>
  match body w with
  | (OutOfFuel, w1) => (OutOfFuel, w1)
  | (o, w1) =>
      match final w1 with
      | (Normal _, w2) => (o, w2)
      | (o', w2) => (abrupt o', w2)
      end
  end.

(** [try: body except Exception as e: handler]. *)
Definition try_except {A} (body : M A) (handler : Exn -> M A) : M A := fun w =>
  match body w with
  | (Raised e, w1) => if is_Exception e then handler e w1 else (Raised e, w1)
  | r => r
  end.

(** [while True: body], cut off after [fuel] iterations. *)
Fixpoint while_true (fuel : nat) (body : M unit) : M unit := fun w =>
  match fuel with
  | O => (OutOfFuel, w)
  | S fuel' =>
      match body w with
      | (Normal _, w1) => while_true fuel' body w1
      | (Cont, w1) => while_true fuel' body w1
      | (Brk, w1) => (Normal tt, w1)
      | (Raised e, w1) => (Raised e, w1)
      | (OutOfFuel, w1) => (OutOfFuel, w1)
      end
  end.

(** ** Primitive effects *)

Definition log (lvl : Level) (msg : string) : M unit :=
  fun w => (Normal tt, emit (ELog lvl msg) w).
Definition log_debug := log DEBUG.
Definition log_info := log INFO.
Definition log_warning := log WARNING.
Definition log_error := log ERROR.

(** [os.path.join] (posix) of two components. *)
Definition ends_with_sep (s : string) : bool :=
  match rev (list_ascii_of_string s) with
  | c :: _ => Ascii.eqb c "/"%char
  | [] => false
  end.

Definition path_join (a b : string) : string :=
  if String.prefix "/" b then b
  else if (String.eqb a "") || ends_with_sep a then a +:+ b
  else a +:+ "/" +:+ b.

Definition path_exists (p : string) : M bool := fun w =>
  (Normal (bool_decide (is_Some (fs w !! p))), emit (EExists p) w).

Definition os_remove (p : string) : M unit := fun w =>
  (Normal tt, emit (ERemove p) (with_fs (delete p (fs w)) w)).

Definition write_file (p : string) (bytes : option Gray) : M unit := fun w =>
  (Normal tt, emit (EWrite p) (with_fs (<[p := bytes]> (fs w)) w)).

(** [cv2.imread] then BGR2GRAY: [None] for a missing or undecodable file. *)
Definition imread (p : string) : M (option Gray) := fun w =>
  (Normal (mjoin (fs w !! p)), emit (EImread p) w).

(** [if os.path.exists(p): os.remove(p)] *)
Definition remove_if_exists (p : string) : M unit :=
  ex <- path_exists p ;;
  if ex then os_remove p else pass.

(** ** Configuration ([config.json]) *)

(** The keys the script reads.  A key read with [config[..]] may be missing
    ([None]: KeyError when it is read); keys read with [.get(.., default)]
    carry their default in the accessor below. *)
Record Config := mkConfig {
  device_address : string;
  template_path : string;
  screenshot_path : string;
  wait_time_career : option Q;
  wait_time_next : option Q;
  wait_time_start_career : option Q;
  wait_time_skip : option Q;
  wait_time_confirm : option Q;
  wait_time_loop : option Q;
  attempts_next : option Z;
  tap_after_skip : option (Z * Z);
  manual_choose : bool;
  filter_rarity : option string;
  filter_speciality : option string
}.

(** [config[..][..][key]] *)
Definition config_get {A} (v : option A) : M A :=
  match v with
  | Some a => ret a
  | None => raise KeyError
  end.

(** [str.upper] on ASCII letters. *)
Definition upper_ascii (c : ascii) : ascii :=
  let n := nat_of_ascii c in
  if (97 <=? n)%nat && (n <=? 122)%nat then ascii_of_nat (n - 32) else c.

Definition upper (s : string) : string :=
  string_of_list_ascii (map upper_ascii (list_ascii_of_string s)).

(** ** Concrete scenarios *)

(** Small devices, stores and a toy matcher on which the script can be run:
    a template is a single pixel holding an intensity, and a frame position
    scores 1 when it is lit at least that much, 0 otherwise. *)
Module Scenario.

Definition flat (v : Z) : Gray := mkGray 1 1 (fun _ _ => v).

Definition matcher (s t : Gray) : option ScoreMap :=
  Some (map (fun y =>
          map (fun x =>
                 if (0 <? pix s y x) && (pix t 0 0 <=? pix s y x) then 1%Q else 0%Q)
              (seq 0 (cols s)))
          (seq 0 (rows s))).

Definition cfg : Config :=
  mkConfig "127.0.0.1:5555" "assets/buttons" "screenshots"
    (Some 10%Q) (Some 1%Q) (Some 2%Q) (Some 1%Q) (Some 5%Q) (Some 5%Q)
    (Some 10) (Some (249, 948)) true None None.

(** A device that answers every capture the same way and is never
    interrupted. *)
Definition device (cap : CapResult) : Env :=
  mkEnv ConfigLoaded (ConnOk true) (fun _ => cap) (fun _ => TapOk) (fun _ => false)
    (fun n => 1700000000 + Z.of_nat n).

(** A store of single-pixel templates under the given roots. *)
Definition store (l : list (string * string * Z)) : gmap string (option Gray) :=
  list_to_map (map (fun '(root, name, v) => (path_join root name, Some (flat v))) l).

Definition start (l : list (string * string * Z)) : World := mkWorld (store l) [] 0.

(** Every button of the first steps is on screen; following.png never is. *)
Definition buttons : list (string * string * Z) :=
  [("assets/buttons", "Career.png", 1); ("assets/buttons", "next.png", 1);
   ("assets/buttons", "auto_select_1.png", 1); ("assets/buttons", "ok.png", 1);
   ("assets/buttons", "plus.png", 1); ("assets/buttons", "following.png", 200)].

(** A frame with a dark use button at x = 0 and a lit one at x = 10. *)
Definition two_buttons : Gray :=
  mkGray 1 11 (fun _ x => if (x =? 0)%nat then 100 else if (x =? 10)%nat then 200 else 0).

(** What the toy matcher answers on that frame for a template of
    intensity 50. *)
Definition use_scores : ScoreMap :=
  [[1%Q; 0%Q; 0%Q; 0%Q; 0%Q; 0%Q; 0%Q; 0%Q; 0%Q; 0%Q; 1%Q]].

Definition use_world : World :=
  mkWorld (<["shot.png" := Some two_buttons]> (store [("assets/buttons", "use.png", 50)]))
    [] 0.

(** A frame file next to a template that only the second extra directory
    holds. *)
Definition skins : option (list string) := Some ["skins/a"; "skins/b"; "skins/c"].

Definition skin_world : World :=
  mkWorld (<["shot.png" := Some (flat 100)]> (store [("skins/b", "plus.png", 1)])) [] 0.

(** The device of each scenario: one that shows every button, one whose
    screen stays dark, one whose screenshot command times out. *)
Definition lit : Env := device (CapOk (Some (flat 100))).
Definition dark : Env := device (CapOk (Some (flat 0))).
Definition stuck : Env := device CapTimeout.

End Scenario.

(** ** The set-up check ([test_setup.py]) *)

(** The check prints to standard output and returns booleans; a run is the
    outcome together with the lines printed, in order. *)
Module TestSetup.

(** What [adb version] answers. *)
Inductive VersionResult :=
| VersionOk (stdout : string)     (* return code 0 *)
| VersionBad                      (* non-zero return code *)
| VersionNoAdb                    (* FileNotFoundError *)
| VersionTimeout.                 (* subprocess.TimeoutExpired *)

(** What reading config.json gives; [JsonValid None] is a document without
    [adb.device_address]. *)
Inductive ConfigJson :=
| JsonMissing
| JsonInvalid
| JsonValid (device_address : option string).

(** What [adb connect] answers; [connected] is
    ["connected" in result.stdout.lower()]. *)
Inductive ConnectAnswer :=
| Answered (connected : bool) (stdout : string)
| ConnectTimeout
| ConnectNoAdb.

Record Machine := mkMachine {
  adb_version : VersionResult;
  config_json : ConfigJson;
  file_exists : string -> bool;       (* os.path.exists *)
  cv2_version : option string;        (* None: ImportError *)
  numpy_version : option string;
  adb_connect : ConnectAnswer
}.

Definition Run (A : Type) : Type := Outcome A * list string.

Definition test_adb_installation (m : Machine) : Run bool :=
  match adb_version m with
  | VersionOk stdout =>
      (Normal true, ["✅ ADB is installed and accessible"; "   Version: " +:+ stdout])
  | VersionBad => (Normal false, ["❌ ADB is installed but not working properly"])
  | VersionNoAdb =>
      (Normal false,
       ["❌ ADB not found in PATH";
        "   Please install Android SDK Platform Tools and add to PATH"])
  | VersionTimeout => (Normal false, ["❌ ADB command timeout"])
  end.

(** The two [except] clauses catch a missing file and invalid JSON; the
    lookup of the device address is inside the [try] and is not covered by
    them. *)
Definition test_config_file (m : Machine) : Run bool :=
  match config_json m with
  | JsonValid (Some address) =>
      (Normal true, ["✅ config.json is valid"; "   Device address: " +:+ address])
  | JsonValid None => (Raised KeyError, ["✅ config.json is valid"])
  | JsonMissing => (Normal false, ["❌ config.json not found"])
  | JsonInvalid => (Normal false, ["❌ config.json contains invalid JSON"])
  end.

Definition required_images : list string :=
  ["Career.png"; "next.png"; "auto_select_1.png"; "auto_select_2.png";
   "start_career_1.png"; "start_career_2.png"; "skip.png"; "skip_btn.png";
   "confirm.png"; "skip_off.png"; "menu.png"; "give_up_1.png"; "give_up_2.png";
   "restore.png"; "use.png"; "max.png"; "close.png"].

Definition image_path (image : string) : string :=
  path_join (path_join "assets" "buttons") image.

Definition test_template_images (m : Machine) : Run bool :=
  let missing_images :=
    List.filter (fun image => negb (file_exists m (image_path image))) required_images in
  match missing_images with
  | [] => (Normal true, ["✅ All required template images are present"])
  | _ =>
      (Normal false,
       "❌ Missing template images:" ::
       map (fun image => "   - " +:+ image) missing_images)
  end.

(** Everything that goes wrong here is caught by [except Exception]. *)
Definition test_adb_connection (m : Machine) : Run bool :=
  match config_json m with
  | JsonValid (Some device_address) =>
      match adb_connect m with
      | Answered true _ =>
          (Normal true, ["✅ Successfully connected to " +:+ device_address])
      | Answered false stdout =>
          (Normal false,
           ["❌ Failed to connect to " +:+ device_address; "   Response: " +:+ stdout])
      | ConnectTimeout | ConnectNoAdb =>
          (Normal false, ["❌ Error testing ADB connection"])
      end
  | _ => (Normal false, ["❌ Error testing ADB connection"])
  end.

Definition test_python_dependencies (m : Machine) : Run bool :=
  let seen :=
    match cv2_version m with
    | Some v => ["✅ OpenCV version: " +:+ v]
    | None => []
    end ++
    match numpy_version m with
    | Some v => ["✅ NumPy version: " +:+ v]
    | None => []
    end in
  let missing_packages :=
    match cv2_version m with Some _ => [] | None => ["cv2"] end ++
    match numpy_version m with Some _ => [] | None => ["numpy"] end in
  match missing_packages with
  | [] => (Normal true, seen ++ ["✅ All required Python packages are installed"])
  | _ =>
      (Normal false,
       seen ++ "❌ Missing Python packages:" ::
       map (fun package => "   - " +:+ package) missing_packages ++
       ["   Run: pip install -r requirements.txt"])
  end.

Definition tests : list (string * (Machine -> Run bool)) :=
  [("ADB Installation", test_adb_installation);
   ("Configuration File", test_config_file);
   ("Template Images", test_template_images);
   ("Python Dependencies", test_python_dependencies);
   ("ADB Connection", test_adb_connection)].

(** [for test_name, test_func in tests]: every test runs, whatever the
    ones before it returned; an exception of a test ends the loop. *)
Fixpoint run_tests (ts : list (string * (Machine -> Run bool))) (m : Machine)
    (passed : nat) : Run nat :=
  match ts with
  | [] => (Normal passed, [])
  | (test_name, test_func) :: rest =>
      let heading := "Testing " +:+ test_name +:+ "..." in
      match test_func m with
      | (Normal ok, out) =>
          let '(o, out') := run_tests rest m (if ok then S passed else passed) in
          (o, heading :: out ++ EmptyString :: out')
      | (o, out) => (abrupt o, heading :: out)
      end
  end.

(** [main()]; its value is the exit status. *)
Definition main (m : Machine) : Run Z :=
  let total := length tests in
  match run_tests tests m 0 with
  | (Normal passed, out) =>
      let summary :=
        "📊 Test Results: " +:+ pretty passed +:+ "/" +:+ pretty total +:+ " tests passed" in
      if (passed =? total)%nat then
        (Normal 0,
         "🔍 Testing Uma Automation Setup..." :: out ++
         [summary; "🎉 All tests passed! Your setup is ready.";
          "   You can now run: python uma_automation.py"])
      else
        (Normal 1,
         "🔍 Testing Uma Automation Setup..." :: out ++
         [summary;
          "⚠️  Some tests failed. Please fix the issues above before running the automation."])
  | (o, out) => (abrupt o, "🔍 Testing Uma Automation Setup..." :: out)
  end.

End TestSetup.

Section Engine.

(** [cv2.matchTemplate(screenshot_gray, template_gray, cv2.TM_CCOEFF_NORMED)];
    [None] when OpenCV raises (a template larger than the frame). *)
Variable matchTemplate : Gray -> Gray -> option ScoreMap.
Variable env : Env.
Variable config : Config.

(** *** Device and clock *)

Definition time_time : M Z := fun w => (Normal (clock env (tick w)), w).

(** [time.sleep(seconds)] *)
Definition time_sleep (seconds : Q) : M unit := fun w =>
  if negb (Qle_bool 0 seconds) then (Raised ValueError, w)
  else
    let w1 := advance (emit (ESleep seconds) w) in
    if sleep_interrupted env (tick w) then (Raised KeyboardInterrupt, w1)
    else (Normal tt, w1).

(** [subprocess.run(["adb", .., "exec-out", "screencap -p"], timeout=10)] *)
Definition adb_screencap : M CapResult := fun w =>
  let r := screencap env (tick w) in
  (Normal r,
   advance (emit (EScreencap (match r with CapOk _ => true | _ => false end)) w)).

(** [subprocess.run(["adb", .., "shell", "input", "tap", x, y], timeout=10)] *)
Definition adb_input_tap (x y : Z) : M TapResult := fun w =>
  (Normal (input_tap env (tick w)), advance (emit (ETap x y) w)).

Definition cv_matchTemplate (screenshot_gray template_gray : Gray) : M ScoreMap :=
  match matchTemplate screenshot_gray template_gray with
  | Some result => ret result
  | None => raise CvError
  end.

Definition cv_minMaxLoc (result : ScoreMap) : M (Q * (Z * Z)) :=
  match minMaxLoc result with
  | Some r => ret r
  | None => raise CvError
  end.

(** *** take_screenshot *)

Definition screenshot_name (timestamp : Z) : string :=
  screenshot_path config +:+ "/screenshot_" +:+ pretty timestamp +:+ ".png".

Definition take_screenshot : M string :=
  timestamp <- time_time ;;
  let filename := screenshot_name timestamp in
  result <- adb_screencap ;;
  match result with
  | CapOk bytes =>
      write_file filename bytes ;;
      log_info ("Screenshot saved: " +:+ filename) ;;
      ret filename
  | CapFail =>
      log_error "Screenshot failed" ;;
      raise RuntimeError
  | CapTimeout =>
      log_error "Screenshot timeout" ;;
      raise TimeoutExpired
  | CapInterrupt => raise KeyboardInterrupt
  end.

(** *** find_template *)

Definition default_threshold : Q := 8 # 10.

(** The centre of the template placed at [max_loc]. *)
Definition center (template_gray : Gray) (loc : Z * Z) : Z * Z :=
  let '(h, w) := shape template_gray in
  (fst loc + w / 2, snd loc + h / 2).

Definition find_template (template_name screenshot_path : string) (threshold : Q)
  : M (option (Z * Z)) :=
  let template_file := path_join (template_path config) template_name in
  ex <- path_exists template_file ;;
  if negb ex then
    log_error ("Template file not found: " +:+ template_file) ;;
    ret None
  else
    try_except
      (screenshot <- imread screenshot_path ;;
       template <- imread template_file ;;
       match screenshot, template with
       | Some screenshot_gray, Some template_gray =>
           result <- cv_matchTemplate screenshot_gray template_gray ;;
           mm <- cv_minMaxLoc result ;;
           let '(max_val, max_loc) := mm in
           if Qle_bool threshold max_val then
             let '(center_x, center_y) := center template_gray max_loc in
             log_info ("Found " +:+ template_name +:+ " at (" +:+ pretty center_x +:+
                       ", " +:+ pretty center_y +:+ ")") ;;
             ret (Some (center_x, center_y))
           else
             log_debug ("Template " +:+ template_name +:+ " not found") ;;
             ret None
       | _, _ =>
           log_error "Failed to read image files" ;;
           ret None
       end)
      (fun e =>
         log_error "Error in template matching" ;;
         ret None).

(** *** tap_coordinate, wait *)

Definition tap_coordinate (x y : Z) : M unit :=
  result <- adb_input_tap x y ;;
  match result with
  | TapOk => log_info ("Tapped at (" +:+ pretty x +:+ ", " +:+ pretty y +:+ ")")
  | TapFail => log_error "Tap failed"
  | TapTimeout => log_error "Tap command timeout"
  | TapInterrupt => raise KeyboardInterrupt
  end.

Definition wait (seconds : Q) : M unit :=
  log_info "Waiting" ;;
  time_sleep seconds.

(** *** find_and_tap *)

(** One pass of the [for attempt in range(max_attempts)] loop per
    [remaining]; [Some b] inside the loop body is [return b]. *)
Fixpoint find_and_tap_loop (template_name : string) (max_attempts : Z)
    (wait_after : Q) (attempt : Z) (remaining : nat) : M bool :=
  match remaining with
  | O =>
      log_error ("Failed to find and tap " +:+ template_name +:+ " after " +:+
                 pretty max_attempts +:+ " attempts") ;;
      ret false
  | S remaining' =>
      screenshot_path <- take_screenshot ;;
      r <- try_finally
             (coords <- find_template template_name screenshot_path default_threshold ;;
              match coords with
              | Some (x, y) =>
                  tap_coordinate x y ;;
                  (if negb (Qle_bool wait_after 0) then wait wait_after else pass) ;;
                  ret (Some true)
              | None =>
                  log_warning ("Attempt " +:+ pretty (attempt + 1) +:+ "/" +:+
                               pretty max_attempts +:+ ": " +:+ template_name +:+
                               " not found") ;;
                  (if attempt <? max_attempts - 1 then wait 1 else pass) ;;
                  ret None
              end)
             (remove_if_exists screenshot_path) ;;
      match r with
      | Some b => ret b
      | None =>
          find_and_tap_loop template_name max_attempts wait_after (attempt + 1) remaining'
      end
  end.

Definition find_and_tap (template_name : string) (max_attempts : Z) (wait_after : Q)
  : M bool :=
  find_and_tap_loop template_name max_attempts wait_after 0 (Z.to_nat max_attempts).

(** *** find_template_multi, find_and_tap_multi *)

(** The [for directory in extra_dirs] loop; [None] from the body of one
    pass is falling through to the next directory. *)
Fixpoint search_extra_dirs (template_name screenshot_path : string) (threshold : Q)
    (extra_dirs : list string) : M (option (Z * Z)) :=
  match extra_dirs with
  | [] => ret None
  | directory :: rest =>
      let template_file := path_join directory template_name in
      ex <- path_exists template_file ;;
      if negb ex then search_extra_dirs template_name screenshot_path threshold rest
      else
        r <- try_except
               (screenshot <- imread screenshot_path ;;
                template <- imread template_file ;;
                match screenshot, template with
                | Some screenshot_gray, Some template_gray =>
                    result <- cv_matchTemplate screenshot_gray template_gray ;;
                    mm <- cv_minMaxLoc result ;;
                    let '(max_val, max_loc) := mm in
                    if Qle_bool threshold max_val then
                      let '(center_x, center_y) := center template_gray max_loc in
                      log_info ("Found " +:+ template_name +:+ " in " +:+ directory +:+
                                " at (" +:+ pretty center_x +:+ ", " +:+
                                pretty center_y +:+ ")") ;;
                      ret (Some (center_x, center_y))
                    else ret None
                | _, _ => ret None
                end)
               (fun e =>
                  log_error ("Error searching " +:+ template_name +:+ " in " +:+ directory) ;;
                  ret None) ;;
        match r with
        | Some c => ret (Some c)
        | None => search_extra_dirs template_name screenshot_path threshold rest
        end
  end.

Definition default_extra_dirs : list string := [path_join "assets" "image"].

Definition find_template_multi (template_name screenshot_path : string) (threshold : Q)
    (extra_dirs : option (list string)) : M (option (Z * Z)) :=
  let extra_dirs := default default_extra_dirs extra_dirs in
  coords <- find_template template_name screenshot_path threshold ;;
  match coords with
  | Some c => ret (Some c)
  | None => search_extra_dirs template_name screenshot_path threshold extra_dirs
  end.

Fixpoint find_and_tap_multi_loop (template_name : string) (max_attempts : Z)
    (wait_after : Q) (extra_dirs : option (list string)) (threshold : Q)
    (attempt : Z) (remaining : nat) : M bool :=
  match remaining with
  | O =>
      log_error ("Failed to find and tap " +:+ template_name +:+ " (multi) after " +:+
                 pretty max_attempts +:+ " attempts") ;;
      ret false
  | S remaining' =>
      screenshot_path <- take_screenshot ;;
      r <- try_finally
             (coords <- find_template_multi template_name screenshot_path threshold extra_dirs ;;
              match coords with
              | Some (x, y) =>
                  tap_coordinate x y ;;
                  (if negb (Qle_bool wait_after 0) then time_sleep wait_after else pass) ;;
                  ret (Some true)
              | None =>
                  log_warning ("Attempt " +:+ pretty (attempt + 1) +:+ "/" +:+
                               pretty max_attempts +:+ ": " +:+ template_name +:+
                               " not found (multi)") ;;
                  (if attempt <? max_attempts - 1 then time_sleep 1 else pass) ;;
                  ret None
              end)
             (remove_if_exists screenshot_path) ;;
      match r with
      | Some b => ret b
      | None =>
          find_and_tap_multi_loop template_name max_attempts wait_after extra_dirs
            threshold (attempt + 1) remaining'
      end
  end.

Definition find_and_tap_multi (template_name : string) (max_attempts : Z)
    (wait_after : Q) (extra_dirs : option (list string)) (threshold : Q) : M bool :=
  find_and_tap_multi_loop template_name max_attempts wait_after extra_dirs threshold
    0 (Z.to_nat max_attempts).

(** *** run_filter_sequence, manual_choose_friend *)

(** A literal dict with string keys, and [key in d] / [d[key]]. *)
Definition dict_get {A} (d : list (string * A)) (key : string) : option A :=
  snd <$> find (fun kv => String.eqb (fst kv) key) d.

Definition rarity_coords : list (string * (Z * Z)) :=
  [("R", (102, 408)); ("SR", (437, 414)); ("SSR", (777, 410))].

Definition speciality_coords : list (string * (Z * Z)) :=
  [("SPEED", (102, 627)); ("STAMINA", (444, 623)); ("POWER", (786, 618));
   ("GUTS", (109, 741)); ("WIT", (442, 732)); ("PAL", (777, 731))].

Definition run_filter_sequence : M bool :=
  log_info "Starting filter sequence" ;;
  tap_coordinate 747 1623 ;;
  time_sleep (1 # 2) ;;
  tap_coordinate 786 203 ;;
  time_sleep (1 # 2) ;;
  let rarity_choice := upper (default "SSR" (filter_rarity config)) in
  let speciality_choice := upper (default "POWER" (filter_speciality config)) in
  match dict_get rarity_coords rarity_choice with
  | None =>
      log_error ("Unknown rarity selection: " +:+ rarity_choice) ;;
      ret false
  | Some (rx, ry) =>
      match dict_get speciality_coords speciality_choice with
      | None =>
          log_error ("Unknown speciality selection: " +:+ speciality_choice) ;;
          ret false
      | Some (sx, sy) =>
          tap_coordinate rx ry ;;
          time_sleep (2 # 10) ;;
          tap_coordinate sx sy ;;
          time_sleep (2 # 10) ;;
          ok <- find_and_tap "ok.png" 10 0 ;;
          if negb ok then
            log_error "Failed to confirm filter (OK not found)" ;;
            ret false
          else
            time_sleep (1 # 2) ;;
            log_info "Filter sequence completed" ;;
            ret true
      end
  end.

Definition following_threshold : Q := 7 # 10.

Definition manual_choose_friend : M bool :=
  log_info "Starting manual choose friend sequence" ;;
  plus <- find_and_tap_multi "plus.png" 10 1 None default_threshold ;;
  if negb plus then
    log_error "Failed to find plus.png for manual choose" ;;
    ret false
  else
    direct <- find_and_tap_multi "following.png" 5 (2 # 10) None following_threshold ;;
    if direct then
      log_info "Found following.png and tapped successfully" ;;
      ret true
    else
      log_info "following.png not found, running filter sequence" ;;
      filtered <- run_filter_sequence ;;
      if negb filtered then
        log_error "Filter sequence failed" ;;
        ret false
      else
        again <- find_and_tap_multi "following.png" 5 (2 # 10) None following_threshold ;;
        if again then
          log_info "Found following.png after filter and tapped successfully" ;;
          ret true
        else
          log_error "following.png not found after filter; stopping automation" ;;
          ret false.

(** *** find_use_buttons_with_brightness_filter *)

(** [np.sqrt(dx**2 + dy**2) < 50] on integers: the square root of an integer
    is below 50 exactly when the integer is below 2500. *)
Definition too_close (c existing : Z * Z) : bool :=
  (fst c - fst existing) ^ 2 + (snd c - snd existing) ^ 2 <? 2500.

(** The inner [for existing_coord in unique_coords] loop with its [break]. *)
Definition is_unique (c : Z * Z) (unique_coords : list (Z * Z)) : bool :=
  forallb (fun existing_coord => negb (too_close c existing_coord)) unique_coords.

Definition np_getitem (g : Gray) (y x : Z) : M Z :=
  match np_index g y x with
  | Some v => ret v
  | None => raise IndexError
  end.

(** The body of [for match in matches]. *)
Definition use_button_step (screenshot_gray template_gray : Gray)
    (brightness_threshold : Z) (unique_coords : list (Z * Z)) (match_ : Z * Z)
  : M (list (Z * Z)) :=
  let '(center_x, center_y) := center template_gray match_ in
  if (center_y <? fst (shape screenshot_gray)) && (center_x <? snd (shape screenshot_gray))
  then
    brightness <- np_getitem screenshot_gray center_y center_x ;;
    if brightness_threshold <? brightness then
      if is_unique (center_x, center_y) unique_coords
      then ret (unique_coords ++ [(center_x, center_y)])
      else ret unique_coords
    else ret unique_coords
  else ret unique_coords.

Fixpoint for_each {A S} (body : S -> A -> M S) (items : list A) (acc : S) : M S :=
  match items with
  | [] => ret acc
  | item :: rest =>
      acc' <- body acc item ;;
      for_each body rest acc'
  end.

Definition find_use_buttons_with_brightness_filter (screenshot_path : string)
    (brightness_threshold : Z) : M (list (Z * Z)) :=
  let template_file := path_join (template_path config) "use.png" in
  ex <- path_exists template_file ;;
  if negb ex then
    log_error "Template file use.png not found" ;;
    ret []
  else
    try_except
      (screenshot <- imread screenshot_path ;;
       template <- imread template_file ;;
       match screenshot, template with
       | Some screenshot_gray, Some template_gray =>
           result <- cv_matchTemplate screenshot_gray template_gray ;;
           let threshold := default_threshold in
           let matches := np_where_ge result threshold in
           unique_coords <-
             for_each (use_button_step screenshot_gray template_gray brightness_threshold)
               matches [] ;;
           log_info ("Found " +:+ pretty (length unique_coords) +:+
                     " unique use buttons with brightness > " +:+
                     pretty brightness_threshold) ;;
           ret unique_coords
       | _, _ =>
           log_error "Failed to read image files" ;;
           ret []
       end)
      (fun e =>
         log_error "Error in finding use buttons with brightness filter" ;;
         ret []).

(** *** tp_charge *)

Definition tp_charge : M bool :=
  log_info "Starting TP Charge process..." ;;
  try_except
    (log_info "TP Charge Step 1: Finding and tapping restore.png" ;;
     restore <- find_and_tap "restore.png" 10 0 ;;
     if negb restore then
       log_error "Failed to find restore.png in TP Charge" ;;
       ret false
     else
       wait (1 # 2) ;;
       log_info "TP Charge Step 2: Finding use.png buttons with brightness filter" ;;
       screenshot_path <- take_screenshot ;;
       returned <-
         try_finally
           (use_coords <- find_use_buttons_with_brightness_filter screenshot_path 170 ;;
            match use_coords with
            | [] =>
                log_error "No use.png buttons found with brightness filter" ;;
                ret (Some false)
            | first_use_coord :: _ =>
                log_info "TP Charge Step 3: Tapping first use.png button" ;;
                tap_coordinate (fst first_use_coord) (snd first_use_coord) ;;
                ret None
            end)
           (remove_if_exists screenshot_path) ;;
       match returned with
       | Some b => ret b
       | None =>
           wait (1 # 2) ;;
           log_info "TP Charge Step 4: Finding and tapping max.png" ;;
           max <- find_and_tap "max.png" 10 0 ;;
           if negb max then
             log_error "Failed to find max.png in TP Charge" ;;
             ret false
           else
             log_info "TP Charge Step 5: Finding and tapping ok.png" ;;
             ok <- find_and_tap "ok.png" 10 0 ;;
             if negb ok then
               log_error "Failed to find ok.png in TP Charge" ;;
               ret false
             else
               wait (3 # 2) ;;
               log_info "TP Charge Step 6: Finding and tapping close.png" ;;
               close <- find_and_tap "close.png" 20 0 ;;
               if negb close then
                 log_error "Failed to find close.png in TP Charge" ;;
                 ret false
               else
                 wait (1 # 2) ;;
                 log_info "TP Charge process completed successfully" ;;
                 ret true
       end)
    (fun e =>
       log_error "Error in TP Charge process" ;;
       ret false).

(** *** run_automation_loop *)

(** [for i in range(n): body] with a body that neither breaks nor returns. *)
Fixpoint for_range (n : nat) (body : M unit) : M unit :=
  match n with
  | O => pass
  | S n' => body ;; for_range n' body
  end.

(** Steps 1 to 4: Career, Next twice, Auto-Select, OK, Next. *)
Definition steps_1_to_4 : M unit :=
  log_info "Step 1: Finding and tapping Career button" ;;
  career <- find_and_tap "Career.png" 10 0 ;;
  (if negb career then
     log_error "Failed to find Career button, retrying..." ;;
     continue_
   else pass) ;;
  log_info "Step 2: Waiting 10 seconds" ;;
  career_wait <- config_get (wait_time_career config) ;;
  wait career_wait ;;
  log_info "Step 3: Finding and tapping Next button (first time)" ;;
  attempts <- config_get (attempts_next config) ;;
  next_wait <- config_get (wait_time_next config) ;;
  next1 <- find_and_tap "next.png" attempts next_wait ;;
  (if negb next1 then
     log_error "Failed to find Next button (first time)" ;;
     continue_
   else pass) ;;
  wait (1 # 2) ;;
  log_info "Step 3: Finding and tapping Next button (second time)" ;;
  attempts <- config_get (attempts_next config) ;;
  next_wait <- config_get (wait_time_next config) ;;
  next2 <- find_and_tap "next.png" attempts next_wait ;;
  (if negb next2 then
     log_error "Failed to find Next button (second time)" ;;
     continue_
   else pass) ;;
  wait (1 # 2) ;;
  log_info "Step 4: Finding and tapping Auto-Select 1, then OK" ;;
  auto <- find_and_tap "auto_select_1.png" 10 0 ;;
  (if negb auto then
     log_error "Failed to find Auto-Select 1 button" ;;
     continue_
   else pass) ;;
  wait (1 # 2) ;;
  ok <- find_and_tap "ok.png" 10 0 ;;
  (if negb ok then
     log_error "Failed to find OK button after Auto-Select 1" ;;
     continue_
   else pass) ;;
  wait (1 # 2) ;;
  next3 <- find_and_tap "next.png" 10 0 ;;
  (if negb next3 then
     log_error "Failed to find Next button after OK button" ;;
     continue_
   else pass) ;;
  wait 2.

(** Step 5: the optional manual selection. *)
Definition step_5 : M unit :=
  let manual_choose_enabled := manual_choose config in
  if manual_choose_enabled then
    log_info "Step 5: Manual choose enabled - running manual selection sequence" ;;
    chosen <- manual_choose_friend ;;
    if negb chosen then
      log_error "Manual choose failed; stopping automation as requested" ;;
      break_
    else pass
  else
    log_info "Step 5: Skipping - selection handled automatically by the game".

(** Steps 6 and 6.5: the local loop around Start Career 1 and TP Charge,
    then the quick check after it. *)
Definition step_6_body : M unit :=
  start <- find_and_tap "start_career_1.png" 10 0 ;;
  (if negb start then
     log_error "Failed to find Start Career 1 button" ;;
     break_
   else pass) ;;
  wait (1 # 2) ;;
  log_info "Step 6.5: Checking for restore.png to trigger TP Charge" ;;
  screenshot_path <- take_screenshot ;;
  try_finally
    (coords <- find_template "restore.png" screenshot_path default_threshold ;;
     match coords with
     | Some _ =>
         log_info "Found restore.png, starting TP Charge process" ;;
         charged <- tp_charge ;;
         if charged then
           log_info "TP Charge completed successfully, retrying Step 6" ;;
           continue_
         else
           log_warning "TP Charge failed, continuing with automation" ;;
           break_
     | None =>
         log_info "No restore.png found, continuing with automation" ;;
         break_
     end)
    (remove_if_exists screenshot_path).

Definition step_6 (fuel : nat) : M unit :=
  log_info "Step 6: Finding and tapping Start Career 1" ;;
  while_true fuel step_6_body ;;
  still <- find_and_tap "start_career_1.png" 1 0 ;;
  if negb still then
    log_error "Failed to complete Step 6, restarting main cycle" ;;
    continue_
  else pass.

(** Steps 7 to 11. *)
Definition steps_7_to_11 : M unit :=
  log_info "Step 7: Finding and tapping Start Career 2" ;;
  start2 <- find_and_tap "start_career_2.png" 10 0 ;;
  (if negb start2 then
     log_error "Failed to find Start Career 2 button" ;;
     continue_
   else pass) ;;
  log_info "Step 8: Waiting 2 seconds" ;;
  start_wait <- config_get (wait_time_start_career config) ;;
  wait start_wait ;;
  log_info "Step 9: Finding and tapping Skip button" ;;
  skip <- find_and_tap "skip.png" 10 0 ;;
  (if negb skip then
     log_error "Failed to find Skip button" ;;
     continue_
   else pass) ;;
  wait (1 # 2) ;;
  log_info "Step 10: Finding and tapping Skip Button" ;;
  skip_btn <- find_and_tap "skip_btn.png" 10 0 ;;
  (if negb skip_btn then
     log_error "Failed to find Skip Button" ;;
     continue_
   else pass) ;;
  log_info "Step 11: Waiting 1 second and tapping coordinate" ;;
  skip_wait <- config_get (wait_time_skip config) ;;
  wait skip_wait ;;
  coords <- config_get (tap_after_skip config) ;;
  tap_coordinate (fst coords) (snd coords).

(** Step 12: the skip toggle and its three rendered states. *)
Definition step_12 : M unit :=
  log_info "Step 12: Finding skip_off.png and double tapping, then checking for different states" ;;
  screenshot_path <- take_screenshot ;;
  try_finally
    (coords <- find_template "skip_off.png" screenshot_path default_threshold ;;
     match coords with
     | Some (x, y) =>
         tap_coordinate x y ;;
         time_sleep (2 # 10) ;;
         tap_coordinate x y ;;
         log_info "Double tapped skip_off.png" ;;
         time_sleep (2 # 10) ;;
         screenshot_path_check <- take_screenshot ;;
         try_finally
           (coords_off <- find_template "skip_off.png" screenshot_path_check default_threshold ;;
            match coords_off with
            | Some (x_off, y_off) =>
                log_info "Found skip_off.png again, double tapping again" ;;
                tap_coordinate x_off y_off ;;
                time_sleep (2 # 10) ;;
                tap_coordinate x_off y_off
            | None =>
                coords_on1 <- find_template "skip_on_1.png" screenshot_path_check default_threshold ;;
                match coords_on1 with
                | Some (x_on1, y_on1) =>
                    log_info "Found skip_on_1.png, single tapping" ;;
                    tap_coordinate x_on1 y_on1
                | None =>
                    coords_on2 <- find_template "skip_on_2.png" screenshot_path_check default_threshold ;;
                    match coords_on2 with
                    | Some _ => log_info "Found skip_on_2.png, continuing..."
                    | None => log_info "No specific skip state found, continuing..."
                    end
                end
            end)
           (remove_if_exists screenshot_path_check)
     | None => log_warning "skip_off.png not found, continuing..."
     end)
    (remove_if_exists screenshot_path).

(** Step 14.5: one peek for an additional Next button. *)
Definition step_14_5 : M unit :=
  screenshot_path <- take_screenshot ;;
  try_finally
    (coords <- find_template "next.png" screenshot_path default_threshold ;;
     match coords with
     | Some (x, y) =>
         log_info "Found additional Next button, tapping 5 times" ;;
         for_range 5 (tap_coordinate x y ;; time_sleep (1 # 2))
     | None => log_info "No additional Next button found, continuing..."
     end)
    (remove_if_exists screenshot_path).

(** Steps 13 to 15. *)
Definition steps_13_to_15 : M unit :=
  log_info "Step 12: Finding and tapping Confirm button" ;;
  confirm <- find_and_tap "confirm.png" 10 0 ;;
  (if negb confirm then
     log_error "Failed to find Confirm button" ;;
     continue_
   else pass) ;;
  wait 1 ;;
  log_info "Step 14: Waiting 5 seconds" ;;
  confirm_wait <- config_get (wait_time_confirm config) ;;
  wait confirm_wait ;;
  log_info "Step 14.5: Checking for additional Next button opportunities" ;;
  step_14_5 ;;
  log_info "Step 15: Finding and tapping Menu button" ;;
  menu <- find_and_tap "menu.png" 10 0 ;;
  if negb menu then
    log_error "Failed to find Menu button" ;;
    continue_
  else pass.

(** Step 16: the loop back to step 14.5 until Give Up 1 is found. *)
Definition step_16_body : M unit :=
  give1 <- find_and_tap "give_up_1.png" 5 0 ;;
  if negb give1 then
    log_error "Failed to find Give Up 1 button, returning to step 14.5" ;;
    log_info "Returning to Step 14.5: Checking for additional Next button opportunities" ;;
    step_14_5 ;;
    log_info "Continuing with Step 15 after step 14.5" ;;
    log_info "Step 15: Finding and tapping Menu button" ;;
    menu <- find_and_tap "menu.png" 10 0 ;;
    (if negb menu then
       log_error "Failed to find Menu button" ;;
       continue_
     else pass) ;;
    log_info "Retrying Step 16 after step 15" ;;
    continue_
  else
    log_info "Step 16 succeeded, proceeding to Step 17" ;;
    break_.

Definition step_16 (fuel : nat) : M unit :=
  log_info "Step 16: Finding and tapping Give Up 1" ;;
  while_true fuel step_16_body.

(** Steps 17 and 18. *)
Definition steps_17_18 : M unit :=
  log_info "Step 17: Finding and tapping Give Up 2" ;;
  give2 <- find_and_tap "give_up_2.png" 5 0 ;;
  (if negb give2 then
     log_error "Failed to find Give Up 2 button" ;;
     continue_
   else pass) ;;
  log_info "Step 18: Waiting 5 seconds before next cycle" ;;
  loop_wait <- config_get (wait_time_loop config) ;;
  wait loop_wait ;;
  log_info "=== Automation cycle completed successfully ===".

(** The body of the [try] of one pass of the main loop. *)
Definition cycle (fuel : nat) : M unit :=
  log_info "=== Starting new automation cycle ===" ;;
  steps_1_to_4 ;;
  step_5 ;;
  step_6 fuel ;;
  steps_7_to_11 ;;
  step_12 ;;
  steps_13_to_15 ;;
  step_16 fuel ;;
  steps_17_18.

(** One pass of the main loop: the [try] with its two [except] clauses. *)
Definition guarded_cycle (fuel : nat) : M unit := fun w =>
  match cycle fuel w with
  | (Raised e, w1) =>
      match e with
      | KeyboardInterrupt =>
          (log_info "Automation stopped by user" ;; break_) w1
      | _ =>
          (log_error "Error in automation loop" ;;
           log_info "Waiting 10 seconds before retrying..." ;;
           time_sleep 10) w1
      end
  | r => r
  end.

Definition run_automation_loop (fuel : nat) : M unit :=
  log_info "Starting Uma automation loop..." ;;
  while_true fuel (guarded_cycle fuel).

(** *** Start-up and main *)

Definition load_config : M unit :=
  match config_file env with
  | ConfigLoaded => pass
  | ConfigMissing =>
      log_error "Config file config.json not found!" ;;
      raise FileNotFoundError
  | ConfigInvalid =>
      log_error "Invalid JSON in config file config.json" ;;
      raise JSONDecodeError
  end.

Definition test_adb_connection : M unit :=
  match adb_connect env with
  | ConnOk true => log_info ("Successfully connected to " +:+ device_address config)
  | ConnOk false => log_warning "ADB connection result"
  | ConnTimeout =>
      log_error "ADB connection timeout" ;;
      raise TimeoutExpired
  | ConnNoAdb =>
      log_error "ADB not found. Please install Android SDK and add to PATH" ;;
      raise FileNotFoundError
  end.

(** [UmaAutomation()]: [config] is what [load_config] returned. *)
Definition init : M unit :=
  load_config ;;
  test_adb_connection.

(** [main()]; its value is the exit status of the process. *)
Definition main (fuel : nat) : M Z :=
  returned <-
    try_except
      (init ;;
       run_automation_loop fuel ;;
       ret None)
      (fun e =>
         log_error "Fatal error" ;;
         ret (Some 1)) ;;
  match returned with
  | Some status => ret status
  | None => ret 0
  end.


(** *** What one search root yields *)

(** The value [find_template] and one pass of the extra-directory loop of
    [find_template_multi] both compute for a template file and a frame:
    the centre of the best match when the file exists, both images decode,
    OpenCV succeeds and the best score reaches the threshold. *)
Definition match_best (files : gmap string (option Gray))
    (template_file screenshot_path : string) (threshold : Q) : option (Z * Z) :=
  match files !! template_file with
  | None => None
  | Some template =>
      match mjoin (files !! screenshot_path), template with
      | Some screenshot_gray, Some template_gray =>
          match matchTemplate screenshot_gray template_gray with
          | Some result =>
              match minMaxLoc result with
              | Some (max_val, max_loc) =>
                  if Qle_bool threshold max_val
                  then Some (center template_gray max_loc)
                  else None
              | None => None
              end
          | None => None
          end
      | _, _ => None
      end
  end.

(** The search over an ordered list of roots in words: take the roots in
    order, stop at the first one that yields a match.  The second component
    lists the template files looked at. *)
Fixpoint first_match (files : gmap string (option Gray))
    (template_name screenshot_path : string) (threshold : Q) (roots : list string)
  : option (Z * Z) * list string :=
  match roots with
  | [] => (None, [])
  | root :: rest =>
      let template_file := path_join root template_name in
      match match_best files template_file screenshot_path threshold with
      | Some c => (Some c, [template_file])
      | None =>
          let r := first_match files template_name screenshot_path threshold rest in
          (fst r, template_file :: snd r)
      end
  end.

(** *** Ways out of an operation *)

(** The outcomes other than a value. *)
Inductive Signal := SRaised (e : Exn) | SBrk | SCont | SFuel.

Definition signal {A} (o : Outcome A) : option Signal :=
  match o with
  | Normal _ => None
  | Raised e => Some (SRaised e)
  | Brk => Some SBrk
  | Cont => Some SCont
  | OutOfFuel => Some SFuel
  end.

(** [yields m P]: whenever [m] does not end with a value, the way it ends
    satisfies [P]. *)
Definition yields {A} (m : M A) (P : Signal -> Prop) : Prop :=
  forall w s, signal (fst (m w)) = Some s -> P s.

(** Somebody pressed Ctrl-C at some point of the run. *)
Definition interrupted : Prop :=
  exists k, screencap env k = CapInterrupt \/ input_tap env k = TapInterrupt \/
            sleep_interrupted env k = true.

(** The faults of [take_screenshot], each with its cause on the device, and
    the external interrupt. *)
Definition capture_fault (s : Signal) : Prop :=
  match s with
  | SRaised RuntimeError => exists k, screencap env k = CapFail
  | SRaised TimeoutExpired => exists k, screencap env k = CapTimeout
  | SRaised KeyboardInterrupt => interrupted
  | _ => False
  end.

(** [time.sleep] raises ValueError on a negative duration: the condition
    under which a set of signals covers a sleep of [seconds]. *)
Definition sleep_ok (seconds : Q) (P : Signal -> Prop) : Prop :=
  (seconds < 0)%Q -> P (SRaised ValueError).

(** The signals of a cycle step that do not end the main loop. *)
Definition not_break (s : Signal) : Prop := s <> SBrk.

(** What [except Exception] catches. *)
Definition caught (s : Signal) : Prop :=
  exists e, s = SRaised e /\ is_Exception e = true.

(** *** Reading a trace *)

(** What reached the device or the clock: captures, taps and sleeps, in
    order. *)
Definition is_action (e : Event) : bool :=
  match e with
  | EScreencap _ | ETap _ _ | ESleep _ => true
  | _ => false
  end.

Definition actions (es : list Event) : list Event := List.filter is_action es.

Definition captures (es : list Event) : nat :=
  length (List.filter (fun e => match e with EScreencap _ => true | _ => false end) es).

Definition sleeps (es : list Event) : list Q :=
  omap (fun e => match e with ESleep d => Some d | _ => None end) es.

Definition taps (es : list Event) : list (Z * Z) :=
  omap (fun e => match e with ETap x y => Some (x, y) | _ => None end) es.

(** A message was logged at a level. *)
Definition logged (lvl : Level) (msg : string) (es : list Event) : bool :=
  existsb (fun e =>
             match e with
             | ELog l m =>
                 match lvl, l with
                 | DEBUG, DEBUG | INFO, INFO | WARNING, WARNING | ERROR, ERROR =>
                     String.eqb m msg
                 | _, _ => false
                 end
             | _ => false
             end) es.

(** The files an operation wrote. *)
Definition written (es : list Event) : list string :=
  omap (fun e => match e with EWrite p => Some p | _ => None end) es.

(** *** Scratch files *)

(** [released w w']: going from [w] to [w'] appended some events, and each
    path is afterwards either absent, or was not written on the way and
    holds what it held before. *)
Definition released (w w' : World) : Prop :=
  exists delta,
    trace w' = trace w ++ delta /\
    forall p, fs w' !! p = None \/ (fs w' !! p = fs w !! p /\ p ∉ written delta).

(** [tidy m]: however [m] ends, the files it wrote are gone. *)
Definition tidy {A} (m : M A) : Prop :=
  forall w, fst (m w) <> OutOfFuel -> released w (snd (m w)).

(** *** Traces *)

Definition emits (es : list Event) (w : World) : World :=
  mkWorld (fs w) (trace w ++ es) (tick w).

(** The template files a search looked for: the paths given to
    [os.path.exists]. *)
Definition consulted (es : list Event) : list string :=
  omap (fun e => match e with EExists p => Some p | _ => None end) es.

(** Events that neither touch the device nor change a file. *)
Definition passive (e : Event) : bool :=
  match e with
  | EExists _ | EImread _ | ELog _ _ => true
  | _ => false
  end.

(** *** The brightness-filtered search as a pipeline *)

(** The bounds test of the loop body: the centre is left of the right edge
    and above the bottom edge of the frame. *)
Definition in_frame (g : Gray) (c : Z * Z) : bool :=
  (snd c <? fst (shape g)) && (fst c <? snd (shape g)).

(** The luminance of the frame at a point exceeds the threshold. *)
Definition bright (g : Gray) (brightness_threshold : Z) (c : Z * Z) : bool :=
  match np_index g (snd c) (fst c) with
  | Some brightness => brightness_threshold <? brightness
  | None => false
  end.

(** Keep a candidate unless a candidate kept before it is closer than 50
    pixels: the first-encountered of each cluster stays. *)
Definition dedupe_step (kept : list (Z * Z)) (c : Z * Z) : list (Z * Z) :=
  if is_unique c kept then kept ++ [c] else kept.

Definition dedupe (cs : list (Z * Z)) : list (Z * Z) := fold_left dedupe_step cs [].

(** One pass of the loop body, as a function. *)
Definition use_button_pure (s t : Gray) (b : Z) (kept : list (Z * Z)) (m : Z * Z)
  : list (Z * Z) :=
  let c := center t m in
  if in_frame s c then if bright s b c then dedupe_step kept c else kept else kept.

(** The order in which the code works: centres, bounds, brightness, and
    only then de-duplication among the bright candidates. *)
Definition bright_then_unique (s t : Gray) (result : ScoreMap) (brightness_threshold : Z)
  : list (Z * Z) :=
  dedupe
    (List.filter (bright s brightness_threshold)
       (List.filter (in_frame s)
          (map (center t) (np_where_ge result default_threshold)))).

(** The order of the specification: matchAll, centres, de-duplication, and
    then the brightness filter. *)
Definition unique_then_bright (s t : Gray) (result : ScoreMap) (brightness_threshold : Z)
  : list (Z * Z) :=
  List.filter (bright s brightness_threshold)
    (dedupe (map (center t) (np_where_ge result default_threshold))).

(** What [find_use_buttons_with_brightness_filter] returns, by cases on the
    files. *)
Definition use_buttons_of (files : gmap string (option Gray)) (screenshot_path : string)
    (brightness_threshold : Z) : list (Z * Z) :=
  match files !! path_join (template_path config) "use.png" with
  | None => []
  | Some template =>
      match mjoin (files !! screenshot_path), template with
      | Some s, Some t =>
          match matchTemplate s t with
          | Some result => bright_then_unique s t result brightness_threshold
          | None => []
          end
      | _, _ => []
      end
  end.

Definition manual_choose_failed : Event :=
  ELog ERROR "Manual choose failed; stopping automation as requested".

Definition stopped_by_user : Event := ELog INFO "Automation stopped by user".

Definition cool_down : list Event :=
  [ELog ERROR "Error in automation loop";
   ELog INFO "Waiting 10 seconds before retrying...";
   ESleep 10].

(** *** Footprints *)

(** [footprint w w' ts c]: going from [w] to [w'] appended events with
    exactly the taps [ts], in order, and [c] runs of the screenshot
    command. *)
Definition footprint (w w' : World) (ts : list (Z * Z)) (c : nat) : Prop :=
  exists delta, trace w' = trace w ++ delta /\ taps delta = ts /\ captures delta = c.

(** An outcome of an operation that returns or raises; [break], [continue]
    and running out of fuel are for loops. *)
Definition returns_or_raises {A} (o : Outcome A) : Prop :=
  match o with
  | Normal _ | Raised _ => True
  | _ => False
  end.

(** *** Running a script from a world *)

(** [ends m w Q]: the outcome of [m] run from [w], and the world it leaves,
    satisfy [Q]. *)
Definition ends {A} (m : M A) (w : World) (Q : Outcome A -> World -> Prop) : Prop :=
  Q (fst (m w)) (snd (m w)).

(** The account [find_and_tap] and [find_and_tap_multi] keep: True after one
    tap, False after none and [n] captures, at most one tap in any case, and
    after a tap nothing but the interrupt is raised. *)
Definition tap_account (n : nat) (o : Outcome bool) (ts : list (Z * Z)) (c : nat) : Prop :=
  match o with
  | Normal true => length ts = 1%nat /\ (1 <= c <= n)%nat
  | Normal false => ts = [] /\ c = n
  | Raised e => (length ts <= 1)%nat /\ (c <= n)%nat /\ (ts <> [] -> e = KeyboardInterrupt)
  | _ => False
  end.

(** The account of [run_filter_sequence], given the cells its selection
    names. *)
Definition filter_account (rarity speciality : option (Z * Z)) (o : Outcome bool)
    (ts : list (Z * Z)) (c : nat) : Prop :=
  match o with
  | Normal true =>
      exists r s ok,
        rarity = Some r /\ speciality = Some s /\
        ts = [(747, 1623); (786, 203); r; s; ok] /\ (1 <= c <= 10)%nat
  | Normal false =>
      match rarity, speciality with
      | Some r, Some s => ts = [(747, 1623); (786, 203); r; s] /\ c = 10%nat
      | _, _ => ts = [(747, 1623); (786, 203)] /\ c = 0%nat
      end
  | Raised _ =>
      (length ts <= 5)%nat /\ (c <= 10)%nat /\
      (rarity = None \/ speciality = None -> c = 0%nat)
  | _ => False
  end.

(** What a sleep can end with: its value, the interrupt, or ValueError on
    a negative duration. *)
Definition sleep_account (seconds : Q) (o : Outcome unit) : Prop :=
  match o with
  | Normal _ => True
  | Raised e => e = KeyboardInterrupt \/ (e = ValueError /\ Qle_bool 0 seconds = false)
  | _ => False
  end.

(** The account of [tp_charge]. *)
Definition charge_account (o : Outcome bool) (ts : list (Z * Z)) (c : nat) : Prop :=
  (c <= 51)%nat /\
  match o with
  | Normal true => length ts = 5%nat /\ (5 <= c)%nat
  | Normal false => (length ts <= 4)%nat
  | Raised e => e = KeyboardInterrupt /\ (length ts <= 5)%nat
  | _ => False
  end.

(** What reaches the device during a search that fails [n] times: a
    capture per attempt and a sleep of one second between two attempts. *)
Definition failed_search (n : nat) : list Event :=
  match n with
  | O => []
  | S m => mjoin (replicate m [EScreencap true; ESleep 1]) ++ [EScreencap true]
  end.

(** *** What can leave a cycle *)

(** A setting that the cycle reads with [config[..]] is missing. *)
Definition missing_setting : Prop :=
  wait_time_career config = None \/ attempts_next config = None \/
  wait_time_next config = None \/ wait_time_start_career config = None \/
  wait_time_skip config = None \/ tap_after_skip config = None \/
  wait_time_confirm config = None \/ wait_time_loop config = None.

(** A waiting time that the cycle hands to [wait] is negative. *)
Definition negative_wait : Prop :=
  exists d, (d < 0)%Q /\
    (wait_time_career config = Some d \/ wait_time_start_career config = Some d \/
     wait_time_skip config = Some d \/ wait_time_confirm config = Some d \/
     wait_time_loop config = Some d).

(** The ways out of a cycle with their causes; [inner] inside one of the
    two local loops, where [break] belongs to that loop. *)
Definition cycle_signal (inner : bool) (s : Signal) : Prop :=
  match s with
  | SRaised KeyError => missing_setting
  | SRaised ValueError => negative_wait
  | SRaised e => capture_fault (SRaised e)
  | SBrk => if inner then True else manual_choose config = true
  | SCont | SFuel => True
  end.

(** * Properties *)

(** ** Score maps *)

Lemma cells_lookup (result : ScoreMap) (v : Q) (x y : Z) :
  (v, (x, y)) ∈ cells result <->
  exists (i j : nat) (row : list Q),
    result !! i = Some row /\ row !! j = Some v /\ x = Z.of_nat j /\ y = Z.of_nat i.
Proof.
  unfold cells. rewrite list_elem_of_In, in_concat. split.
  - intros (l & Hl & Hv). apply list_elem_of_In, elem_of_lookup_imap in Hl.
    destruct Hl as (i & row & -> & Hrow).
    apply list_elem_of_In, elem_of_lookup_imap in Hv.
    destruct Hv as (j & v' & Heq & Hj). inversion Heq; subst. eauto 10.
  - intros (i & j & row & Hrow & Hj & -> & ->). exists (row_cells i row). split.
    + apply list_elem_of_In. by apply elem_of_lookup_imap_2.
    + apply list_elem_of_In. unfold row_cells.
      by apply (elem_of_lookup_imap_2 (fun x v => (v, (Z.of_nat x, Z.of_nat i)))).
Qed.

Lemma fold_better_spec (cs : list (Q * (Z * Z))) (c : Q * (Z * Z)) :
  fold_left better cs c ∈ c :: cs /\
  forall c', c' ∈ c :: cs -> (fst c' <= fst (fold_left better cs c))%Q.
Proof.
  revert c. induction cs as [|d cs IH]; intros c; simpl.
  - split; [left|]. intros c' Hc'. apply list_elem_of_singleton in Hc' as ->.
    apply Qle_refl.
  - destruct (IH (better c d)) as [Hin Hmax]. split.
    + apply elem_of_cons in Hin as [->|Hin]; [|by do 2 right].
      unfold better. destruct (Qle_bool (fst d) (fst c)); [left | right; left].
    + intros c' Hc'.
      assert (Hstep : (fst c <= fst (better c d))%Q /\ (fst d <= fst (better c d))%Q).
      { unfold better. destruct (Qle_bool (fst d) (fst c)) eqn:E.
        - split; [apply Qle_refl | by apply Qle_bool_iff].
        - split; [|apply Qle_refl]. apply Qlt_le_weak, Qnot_le_lt.
          intros Hle. apply Qle_bool_iff in Hle. congruence. }
      destruct Hstep as [Hc Hd].
      apply elem_of_cons in Hc' as [->|Hc'].
      { eapply Qle_trans; [exact Hc|]. apply Hmax. left. }
      apply elem_of_cons in Hc' as [->|Hc'].
      { eapply Qle_trans; [exact Hd|]. apply Hmax. left. }
      apply Hmax. by right.
Qed.

(** [minMaxLoc] returns a cell of the map whose score bounds every score. *)
Lemma minMaxLoc_spec (result : ScoreMap) (max_val : Q) (max_loc : Z * Z) :
  minMaxLoc result = Some (max_val, max_loc) ->
  (max_val, max_loc) ∈ cells result /\
  forall c, c ∈ cells result -> (fst c <= max_val)%Q.
Proof.
  unfold minMaxLoc. destruct (cells result) as [|c cs]; [done|].
  intros [= Heq]. destruct (fold_better_spec cs c) as [Hin Hmax].
  rewrite Heq in Hin, Hmax. done.
Qed.

Lemma minMaxLoc_is_Some (result : ScoreMap) :
  cells result <> [] -> is_Some (minMaxLoc result).
Proof. unfold minMaxLoc. destruct (cells result); [done | eauto]. Qed.

(** The threshold test at two thresholds. *)
Lemma Qle_bool_weaken (t1 t2 v : Q) :
  (t1 < t2)%Q -> Qle_bool t2 v = true -> Qle_bool t1 v = true.
Proof.
  intros Hlt Hle. apply Qle_bool_iff. apply Qle_bool_iff in Hle.
  apply Qlt_le_weak. eapply Qlt_le_trans; eauto.
Qed.

(** ** Worlds and traces *)

Lemma emit_emits (e : Event) (w : World) : emit e w = emits [e] w.
Proof. reflexivity. Qed.

Lemma emits_emits (es1 es2 : list Event) (w : World) :
  emits es2 (emits es1 w) = emits (es1 ++ es2) w.
Proof. unfold emits; simpl. by rewrite app_assoc. Qed.

Lemma emits_nil (w : World) : emits [] w = w.
Proof. destruct w. unfold emits; simpl. by rewrite app_nil_r. Qed.

Ltac world_eq :=
  unfold emits, emit, with_fs, advance; simpl;
  repeat rewrite <- app_assoc; simpl; try reflexivity.

(** ** find_template *)

(** [find_template] computes [match_best] for the primary root; it only
    probes and reads files and writes to the log. *)
Lemma find_template_run (template_name shot : string) (threshold : Q) (w : World) :
  exists delta,
    find_template template_name shot threshold w =
      (Normal (match_best (fs w) (path_join (template_path config) template_name)
                 shot threshold),
       emits delta w) /\
    consulted delta = [path_join (template_path config) template_name] /\
    forallb passive delta = true.
Proof.
  unfold find_template, match_best, bind, path_exists, imread, try_except,
    cv_matchTemplate, cv_minMaxLoc, log_error, log_info, log_debug, log, ret, raise.
  simpl.
  destruct (fs w !! path_join (template_path config) template_name) as [[t|]|] eqn:Ht;
    simpl; rewrite ?Ht; simpl.
  - destruct (fs w !! shot) as [[s|]|] eqn:Hs; simpl.
    + destruct (matchTemplate s t) as [result|]; simpl.
      * destruct (minMaxLoc result) as [[max_val max_loc]|]; simpl.
        -- destruct (Qle_bool threshold max_val); simpl;
             eexists; (split; [f_equal; world_eq|]); done.
        -- eexists; (split; [f_equal; world_eq|]); done.
      * eexists; (split; [f_equal; world_eq|]); done.
    + eexists; (split; [f_equal; world_eq|]); done.
    + eexists; (split; [f_equal; world_eq|]); done.
  - destruct (fs w !! shot) as [[s|]|] eqn:Hs; simpl;
      eexists; (split; [f_equal; world_eq|]); done.
  - eexists; (split; [f_equal; world_eq|]); done.
Qed.



Lemma match_best_monotone (files : gmap string (option Gray))
    (template_file shot : string) (t1 t2 : Q) (c : Z * Z) :
  (t1 < t2)%Q ->
  match_best files template_file shot t2 = Some c ->
  match_best files template_file shot t1 = Some c.
Proof.
  intros Hlt. unfold match_best.
  destruct (files !! template_file) as [[t|]|]; try done;
    destruct (mjoin (files !! shot)) as [s|]; try done.
  destruct (matchTemplate s t) as [result|]; [|done].
  destruct (minMaxLoc result) as [[max_val max_loc]|]; [|done].
  destruct (Qle_bool t2 max_val) eqn:E; [|done].
  by rewrite (Qle_bool_weaken t1 t2 max_val Hlt E).
Qed.

Lemma np_where_ge_sublist (result : ScoreMap) (t1 t2 : Q) :
  (t1 < t2)%Q -> sublist (np_where_ge result t2) (np_where_ge result t1).
Proof.
  intros Hlt. unfold np_where_ge. apply fmap_sublist.
  induction (cells result) as [|c cs IH]; [constructor|].
  rewrite !filter_cons.
  destruct (decide (Qle_bool t2 (fst c) = true)) as [H2|H2].
  - rewrite decide_True by eauto using Qle_bool_weaken. by constructor.
  - destruct (decide (Qle_bool t1 (fst c) = true)); [by constructor | done].
Qed.

(** C6.  Threshold filtering is monotone: for thresholds t1 < t2, the match
    [find_template] accepts at t2 is accepted (the same coordinate) at t1,
    and the locations with score >= t2 of the multi-match path are, in the
    same order, among the locations with score >= t1. *)
Theorem threshold_monotone (t1 t2 : Q) :
  (t1 < t2)%Q ->
  (forall template_name shot w c,
      fst (find_template template_name shot t2 w) = Normal (Some c) ->
      fst (find_template template_name shot t1 w) = Normal (Some c)) /\
  (forall result, sublist (np_where_ge result t2) (np_where_ge result t1)) /\
  (forall result loc, loc ∈ np_where_ge result t2 -> loc ∈ np_where_ge result t1).
Proof.
  intros Hlt. split; [|split].
  - intros template_name shot w c.
    destruct (find_template_run template_name shot t2 w) as (d2 & -> & _).
    destruct (find_template_run template_name shot t1 w) as (d1 & -> & _).
    simpl. intros [= H2]. f_equal. eauto using match_best_monotone.
  - intros result. by apply np_where_ge_sublist.
  - intros result loc Hloc. eapply elem_of_sublist; [exact Hloc|].
    by apply np_where_ge_sublist.
Qed.


(** ** find_template_multi *)

Lemma consulted_app (es1 es2 : list Event) :
  consulted (es1 ++ es2) = consulted es1 ++ consulted es2.
Proof. unfold consulted. apply omap_app. Qed.

(** One pass of the directory loop that found nothing: go on with the
    induction hypothesis at the world reached. *)
Ltac next_directory IH :=
  rewrite ?emit_emits, ?emits_emits;
  match goal with
  | |- context [search_extra_dirs _ _ _ _ ?w'] =>
      let delta := fresh "delta" in
      let Hc := fresh "Hc" in
      let Hp := fresh "Hp" in
      destruct (IH w') as (delta & -> & Hc & Hp);
      rewrite ?emits_emits; eexists; split; [reflexivity|];
      rewrite consulted_app, forallb_app, Hc, Hp; done
  end.

Lemma search_extra_dirs_run (template_name shot : string) (threshold : Q)
    (extra_dirs : list string) (w : World) :
  exists delta,
    search_extra_dirs template_name shot threshold extra_dirs w =
      (Normal (fst (first_match (fs w) template_name shot threshold extra_dirs)),
       emits delta w) /\
    consulted delta = snd (first_match (fs w) template_name shot threshold extra_dirs) /\
    forallb passive delta = true.
Proof.
  revert w. induction extra_dirs as [|directory rest IH]; intros w.
  - exists []. by rewrite emits_nil.
  - simpl. unfold match_best, bind, path_exists, imread, try_except,
      cv_matchTemplate, cv_minMaxLoc, log_error, log_info, log, ret, raise.
    simpl.
    destruct (fs w !! path_join directory template_name) as [[t|]|] eqn:Ht;
      simpl; rewrite ?Ht; simpl; [| |next_directory IH];
      (destruct (fs w !! shot) as [[s|]|] eqn:Hs; simpl; try next_directory IH).
    destruct (matchTemplate s t) as [result|]; simpl; [|next_directory IH].
    destruct (minMaxLoc result) as [[max_val max_loc]|]; simpl; [|next_directory IH].
    destruct (Qle_bool threshold max_val); simpl; [|next_directory IH].
    eexists; (split; [f_equal; world_eq|]); done.
Qed.


Lemma find_template_multi_run (template_name shot : string) (threshold : Q)
    (extra_dirs : option (list string)) (w : World) :
  let roots := template_path config :: default default_extra_dirs extra_dirs in
  exists delta,
    find_template_multi template_name shot threshold extra_dirs w =
      (Normal (fst (first_match (fs w) template_name shot threshold roots)),
       emits delta w) /\
    consulted delta = snd (first_match (fs w) template_name shot threshold roots) /\
    forallb passive delta = true.
Proof.
  intros roots. unfold find_template_multi, bind.
  destruct (find_template_run template_name shot threshold w) as (d1 & -> & Hc1 & Hp1).
  subst roots. simpl.
  destruct (match_best (fs w) (path_join (template_path config) template_name)
              shot threshold) as [c|]; simpl.
  - eauto.
  - destruct (search_extra_dirs_run template_name shot threshold
                (default default_extra_dirs extra_dirs) (emits d1 w))
      as (d2 & -> & Hc2 & Hp2).
    rewrite emits_emits. eexists; split; [reflexivity|].
    rewrite consulted_app, forallb_app, Hc1, Hc2, Hp1, Hp2. done.
Qed.

Lemma first_match_stops (files : gmap string (option Gray))
    (template_name shot : string) (threshold : Q)
    (pre : list string) (root : string) (post : list string) (c : Z * Z) :
  (forall r, r ∈ pre -> match_best files (path_join r template_name) shot threshold = None) ->
  match_best files (path_join root template_name) shot threshold = Some c ->
  first_match files template_name shot threshold (pre ++ root :: post) =
    (Some c, (fun r => path_join r template_name) <$> (pre ++ [root])).
Proof.
  intros Hpre Hroot. induction pre as [|r pre IH]; simpl.
  - by rewrite Hroot.
  - rewrite (Hpre r) by left. rewrite IH; [done|].
    intros r' Hr'. apply Hpre. by right.
Qed.


(** ** Ways out: rules *)

Lemma yields_weaken {A} (m : M A) (P P' : Signal -> Prop) :
  yields m P -> (forall s, P s -> P' s) -> yields m P'.
Proof. intros Hm HP w s Hs. eauto. Qed.

Lemma yields_ret {A} (a : A) (P : Signal -> Prop) : yields (ret a) P.
Proof. intros w s [=]. Qed.

Lemma yields_raise {A} (e : Exn) (P : Signal -> Prop) :
  P (SRaised e) -> yields (@raise A e) P.
Proof. intros HP w s [= <-]. done. Qed.

Lemma yields_break {A} (P : Signal -> Prop) : P SBrk -> yields (@break_ A) P.
Proof. intros HP w s [= <-]. done. Qed.

Lemma yields_continue {A} (P : Signal -> Prop) : P SCont -> yields (@continue_ A) P.
Proof. intros HP w s [= <-]. done. Qed.

Lemma yields_bind {A B} (m : M A) (k : A -> M B) (P : Signal -> Prop) :
  yields m P -> (forall a, yields (k a) P) -> yields (bind m k) P.
Proof.
  intros Hm Hk w s. unfold bind. specialize (Hm w).
  destruct (m w) as [[a|e| | |] w1]; simpl in *; eauto.
  intros Hs. eapply Hk; eauto.
Qed.

Lemma yields_try_finally {A} (body : M A) (final : M unit) (P : Signal -> Prop) :
  yields body P -> yields final P -> yields (try_finally body final) P.
Proof.
  intros Hb Hf w s. unfold try_finally. specialize (Hb w).
  destruct (body w) as [[a|e| | |] w1]; simpl in *; eauto;
    specialize (Hf w1); destruct (final w1) as [[[]|e'| | |] w2]; simpl in *; eauto.
  all: intros [= <-]; eauto.
Qed.

Lemma yields_try_except {A} (body : M A) (handler : Exn -> M A)
    (P' P : Signal -> Prop) :
  yields body P' ->
  (forall e, is_Exception e = true -> yields (handler e) P) ->
  (forall s, P' s -> (exists e, s = SRaised e /\ is_Exception e = true) \/ P s) ->
  yields (try_except body handler) P.
Proof.
  intros Hb Hh HP w s. unfold try_except. specialize (Hb w).
  destruct (body w) as [[a|e| | |] w1]; simpl in *; try done.
  - destruct (is_Exception e) eqn:E.
    + intros Hs. eapply Hh; eauto.
    + simpl. intros [= <-]. destruct (HP _ (Hb _ eq_refl)) as [(e' & [= <-] & He')|]; [congruence|done].
  - intros [= <-]. destruct (HP _ (Hb _ eq_refl)) as [(e' & [=] & _)|]; done.
  - intros [= <-]. destruct (HP _ (Hb _ eq_refl)) as [(e' & [=] & _)|]; done.
  - intros [= <-]. destruct (HP _ (Hb _ eq_refl)) as [(e' & [=] & _)|]; done.
Qed.

Lemma yields_while_true (fuel : nat) (body : M unit) (P' P : Signal -> Prop) :
  yields body P' ->
  (forall s, P' s -> s = SBrk \/ s = SCont \/ P s) ->
  P SFuel ->
  yields (while_true fuel body) P.
Proof.
  intros Hb HP Hfuel. induction fuel as [|fuel IH]; intros w s; simpl.
  - intros [= <-]. done.
  - specialize (Hb w). destruct (body w) as [[[]|e| | |] w1]; simpl in *; eauto.
    + intros [= <-]. destruct (HP _ (Hb _ eq_refl)) as [|[|]]; done.
    + done.
    + intros [= <-]. destruct (HP _ (Hb _ eq_refl)) as [|[|]]; done.
Qed.

Lemma yields_for_range (n : nat) (body : M unit) (P : Signal -> Prop) :
  yields body P -> yields (for_range n body) P.
Proof.
  intros Hb. induction n; simpl; [apply yields_ret|].
  apply yields_bind; auto.
Qed.

(** Primitives that always end with a value. *)
Lemma yields_log (lvl : Level) (msg : string) (P : Signal -> Prop) :
  yields (log lvl msg) P.
Proof. intros w s [=]. Qed.

Lemma yields_path_exists (p : string) (P : Signal -> Prop) : yields (path_exists p) P.
Proof. intros w s [=]. Qed.

Lemma yields_os_remove (p : string) (P : Signal -> Prop) : yields (os_remove p) P.
Proof. intros w s [=]. Qed.

Lemma yields_write_file (p : string) (b : option Gray) (P : Signal -> Prop) :
  yields (write_file p b) P.
Proof. intros w s [=]. Qed.

Lemma yields_imread (p : string) (P : Signal -> Prop) : yields (imread p) P.
Proof. intros w s [=]. Qed.

Lemma yields_remove_if_exists (p : string) (P : Signal -> Prop) :
  yields (remove_if_exists p) P.
Proof.
  unfold remove_if_exists. apply yields_bind; [apply yields_path_exists|].
  intros []; [apply yields_os_remove | apply yields_ret].
Qed.

Lemma yields_config_get {A} (v : option A) (P : Signal -> Prop) :
  P (SRaised KeyError) -> yields (config_get v) P.
Proof. intros HP. destruct v; [apply yields_ret | by apply yields_raise]. Qed.

Lemma yields_find_template (template_name shot : string) (threshold : Q)
    (P : Signal -> Prop) :
  yields (find_template template_name shot threshold) P.
Proof.
  intros w s. destruct (find_template_run template_name shot threshold w) as (d & -> & _).
  intros [=].
Qed.

Lemma yields_find_template_multi (template_name shot : string) (threshold : Q)
    (extra_dirs : option (list string)) (P : Signal -> Prop) :
  yields (find_template_multi template_name shot threshold extra_dirs) P.
Proof.
  intros w s.
  destruct (find_template_multi_run template_name shot threshold extra_dirs w)
    as (d & -> & _).
  intros [=].
Qed.

(** Device operations: a capture fault or an interrupt, nothing else. *)
Lemma yields_take_screenshot (P : Signal -> Prop) :
  (forall s, capture_fault s -> P s) -> yields take_screenshot P.
Proof.
  intros HP w s. unfold take_screenshot, bind, time_time, adb_screencap. simpl.
  destruct (screencap env (tick w)) eqn:E; simpl; intros [= <-]; apply HP; simpl.
  - by exists (tick w).
  - by exists (tick w).
  - exists (tick w). by left.
Qed.

Lemma yields_tap_coordinate (x y : Z) (P : Signal -> Prop) :
  (forall s, capture_fault s -> P s) -> yields (tap_coordinate x y) P.
Proof.
  intros HP w s. unfold tap_coordinate, bind, adb_input_tap. simpl.
  destruct (input_tap env (tick w)) eqn:E; simpl; intros [= <-]; apply HP.
  exists (tick w). by right; left.
Qed.

Lemma yields_time_sleep (seconds : Q) (P : Signal -> Prop) :
  (forall s, capture_fault s -> P s) ->
  sleep_ok seconds P ->
  yields (time_sleep seconds) P.
Proof.
  intros HP Hneg w s. unfold time_sleep.
  destruct (Qle_bool 0 seconds) eqn:E; simpl.
  - destruct (sleep_interrupted env (tick w)) eqn:Ei; simpl; intros [= <-].
    apply HP. exists (tick w). by right; right.
  - intros [= <-]. apply Hneg, Qnot_le_lt. intros Hle.
    apply Qle_bool_iff in Hle. congruence.
Qed.

Lemma yields_wait (seconds : Q) (P : Signal -> Prop) :
  (forall s, capture_fault s -> P s) ->
  sleep_ok seconds P ->
  yields (wait seconds) P.
Proof.
  intros HP Hneg. unfold wait. apply yields_bind; [apply yields_log|].
  intros _. by apply yields_time_sleep.
Qed.


Lemma yields_any {A} (m : M A) : yields m (fun _ => True).
Proof. intros w s _. exact I. Qed.

Lemma yields_cv_matchTemplate (s t : Gray) (P : Signal -> Prop) :
  P (SRaised CvError) -> yields (cv_matchTemplate s t) P.
Proof.
  intros HP. unfold cv_matchTemplate.
  destruct (matchTemplate s t); [apply yields_ret | by apply yields_raise].
Qed.

Lemma yields_np_getitem (g : Gray) (y x : Z) (P : Signal -> Prop) :
  P (SRaised IndexError) -> yields (np_getitem g y x) P.
Proof.
  intros HP. unfold np_getitem.
  destruct (np_index g y x); [apply yields_ret | by apply yields_raise].
Qed.

Lemma yields_for_each {A S} (body : S -> A -> M S) (items : list A) (acc : S)
    (P : Signal -> Prop) :
  (forall acc item, yields (body acc item) P) -> yields (for_each body items acc) P.
Proof.
  intros Hb. revert acc. induction items as [|item items IH]; intros acc; simpl.
  - apply yields_ret.
  - apply yields_bind; [apply Hb | apply IH].
Qed.

Lemma capture_fault_not_break (s : Signal) : capture_fault s -> not_break s.
Proof. intros H ->. exact H. Qed.

(** A sleep of a duration known to be positive never raises ValueError. *)
Ltac positive_sleep :=
  let Hneg := fresh "Hneg" in
  intros Hneg; exfalso;
  match goal with
  | H : negb (Qle_bool ?d 0) = true |- _ =>
      apply negb_true_iff in H;
      assert (d <= 0)%Q as Hle by (apply Qlt_le_weak; exact Hneg);
      apply Qle_bool_iff in Hle; congruence
  | _ => revert Hneg; by compute
  end.

Create HintDb yields.
#[local] Hint Resolve yields_ret yields_log yields_path_exists yields_imread
  yields_remove_if_exists yields_find_template yields_find_template_multi
  yields_take_screenshot yields_tap_coordinate yields_wait yields_time_sleep
  yields_config_get yields_raise yields_break yields_continue
  yields_cv_matchTemplate yields_np_getitem capture_fault_not_break : yields.
#[local] Hint Extern 1 (not_break _) => discriminate : yields.
#[local] Hint Extern 1 (caught _) => (eexists; split; [reflexivity|reflexivity]) : yields.
#[local] Hint Extern 1 (sleep_ok _ _) =>
  (unfold sleep_ok;
   first [ positive_sleep
         | intros _; discriminate
         | intros _; eexists; split; [reflexivity|reflexivity] ]) : yields.

(** Structural steps of a [yields] proof, chosen by the head of the
    script. *)
Ltac yields_step :=
  lazymatch goal with
  | IH : forall _, yields _ _ |- yields (find_and_tap_loop _ _ _ _ _) _ => apply IH
  | IH : forall _, yields _ _ |- yields (find_and_tap_multi_loop _ _ _ _ _ _ _) _ =>
      apply IH
  | |- yields (bind _ _) _ => apply yields_bind; [|intros ?]
  | |- yields (try_finally _ _) _ => apply yields_try_finally
  | |- yields (for_range _ _) _ => apply yields_for_range
  | |- yields (for_each _ _ _) _ => apply yields_for_each; intros ? ?
  | |- yields (if ?b then _ else _) _ => destruct b eqn:?
  | |- yields (match ?x with _ => _ end) _ => destruct x eqn:?
  | |- yields _ _ =>
      unfold log_debug, log_info, log_warning, log_error, pass;
      solve [eauto with yields nocore]
  end.

Lemma yields_find_and_tap_loop (template_name : string) (max_attempts : Z)
    (wait_after : Q) (attempt : Z) (remaining : nat) (P : Signal -> Prop) :
  (forall s, capture_fault s -> P s) ->
  yields (find_and_tap_loop template_name max_attempts wait_after attempt remaining) P.
Proof.
  intros HP. revert attempt.
  induction remaining as [|remaining IH]; intros attempt; simpl; repeat yields_step.
Qed.

Lemma yields_find_and_tap (template_name : string) (max_attempts : Z)
    (wait_after : Q) (P : Signal -> Prop) :
  (forall s, capture_fault s -> P s) ->
  yields (find_and_tap template_name max_attempts wait_after) P.
Proof. intros HP. by apply yields_find_and_tap_loop. Qed.


Lemma yields_find_and_tap_multi_loop (template_name : string) (max_attempts : Z)
    (wait_after : Q) (extra_dirs : option (list string)) (threshold : Q)
    (attempt : Z) (remaining : nat) (P : Signal -> Prop) :
  (forall s, capture_fault s -> P s) ->
  yields (find_and_tap_multi_loop template_name max_attempts wait_after extra_dirs
            threshold attempt remaining) P.
Proof.
  intros HP. revert attempt.
  induction remaining as [|remaining IH]; intros attempt; simpl; repeat yields_step.
Qed.

Lemma yields_find_and_tap_multi (template_name : string) (max_attempts : Z)
    (wait_after : Q) (extra_dirs : option (list string)) (threshold : Q)
    (P : Signal -> Prop) :
  (forall s, capture_fault s -> P s) ->
  yields (find_and_tap_multi template_name max_attempts wait_after extra_dirs threshold) P.
Proof. intros HP. by apply yields_find_and_tap_multi_loop. Qed.

Lemma yields_outcome {A} (m : M A) (P : Signal -> Prop) (w : World) :
  yields m P ->
  (exists a, fst (m w) = Normal a) \/ (exists s, signal (fst (m w)) = Some s /\ P s).
Proof.
  intros Hm. specialize (Hm w). destruct (fst (m w)); simpl in *; eauto.
Qed.



(** ** Running one attempt *)

Lemma bind_normal {A B} (m : M A) (k : A -> M B) (w w1 : World) (a : A) :
  m w = (Normal a, w1) -> bind m k w = k a w1.
Proof. intros H. unfold bind. by rewrite H. Qed.

Lemma try_finally_normal {A} (body : M A) (final : M unit) (w w1 w2 : World) (a : A) :
  body w = (Normal a, w1) -> final w1 = (Normal tt, w2) ->
  try_finally body final w = (Normal a, w2).
Proof. intros Hb Hf. unfold try_finally. by rewrite Hb, Hf. Qed.

Lemma take_screenshot_ok (w : World) (bytes : option Gray) :
  screencap env (tick w) = CapOk bytes ->
  let shot := screenshot_name (clock env (tick w)) in
  take_screenshot w =
    (Normal shot,
     mkWorld (<[shot := bytes]> (fs w))
       (trace w ++ [EScreencap true; EWrite shot; ELog INFO ("Screenshot saved: " +:+ shot)])
       (S (tick w))).
Proof.
  intros H shot. unfold take_screenshot, bind, time_time, adb_screencap. simpl.
  rewrite H. simpl. f_equal. world_eq.
Qed.

Lemma remove_if_exists_present (p : string) (w : World) :
  is_Some (fs w !! p) ->
  remove_if_exists p w =
    (Normal tt, mkWorld (delete p (fs w)) (trace w ++ [EExists p; ERemove p]) (tick w)).
Proof.
  intros H. unfold remove_if_exists, bind, path_exists, os_remove. simpl.
  rewrite bool_decide_eq_true_2 by done. f_equal. world_eq.
Qed.

Lemma match_best_never (files : gmap string (option Gray)) (template_file shot : string)
    (threshold : Q) (k : nat) (bytes : option Gray) :
  (forall k s t result c,
      screencap env k = CapOk (Some s) -> matchTemplate s t = Some result ->
      c ∈ cells result -> (fst c < threshold)%Q) ->
  screencap env k = CapOk bytes ->
  files !! shot = Some bytes ->
  match_best files template_file shot threshold = None.
Proof.
  intros Hnever Hk Hshot. unfold match_best. rewrite Hshot. simpl.
  destruct (files !! template_file) as [[t|]|]; try done; destruct bytes as [s|]; try done.
  destruct (matchTemplate s t) as [result|] eqn:Hm; [|done].
  destruct (minMaxLoc result) as [[max_val max_loc]|] eqn:Hmax; [|done].
  destruct (minMaxLoc_spec _ _ _ Hmax) as [Hin _].
  specialize (Hnever k s t result _ Hk Hm Hin). simpl in Hnever.
  destruct (Qle_bool threshold max_val) eqn:E; [|done].
  apply Qle_bool_iff in E. by apply Qlt_not_le in Hnever.
Qed.

Lemma actions_app (es1 es2 : list Event) : actions (es1 ++ es2) = actions es1 ++ actions es2.
Proof. unfold actions. apply List.filter_app. Qed.

Lemma actions_passive (es : list Event) : forallb passive es = true -> actions es = [].
Proof.
  induction es as [|e es IH]; [done|]. simpl. intros [He Hes]%andb_true_iff.
  destruct e; simpl in *; try done; by apply IH.
Qed.

Local Opaque find_template.

Lemma find_and_tap_loop_never (template_name : string) (max_attempts : Z) (wait_after : Q) :
  (forall k, exists bytes, screencap env k = CapOk bytes) ->
  (forall k, sleep_interrupted env k = false) ->
  (forall k s t result c,
      screencap env k = CapOk (Some s) -> matchTemplate s t = Some result ->
      c ∈ cells result -> (fst c < default_threshold)%Q) ->
  forall (remaining : nat) (attempt : Z) (w : World),
    attempt + Z.of_nat remaining = max_attempts ->
    exists delta w',
      find_and_tap_loop template_name max_attempts wait_after attempt remaining w =
        (Normal false, w') /\
      trace w' = trace w ++ delta /\
      actions delta =
        mjoin (replicate (remaining - 1) [EScreencap true; ESleep 1]) ++
        match remaining with O => [] | S _ => [EScreencap true] end.
Proof.
  intros Hcap Hsleep Hnever.
  induction remaining as [|remaining IH]; intros attempt w Hsum.
  - simpl. eexists _, _. split; [reflexivity|]. split; [reflexivity|done].
  - cbn [find_and_tap_loop].
    destruct (Hcap (tick w)) as [bytes Hbytes].
    erewrite bind_normal by (by apply take_screenshot_ok).
    set (shot := screenshot_name (clock env (tick w))).
    set (w1 := mkWorld _ _ _).
    destruct (find_template_run template_name shot default_threshold w1)
      as (d & Hrun & _ & Hd).
    rewrite (match_best_never _ _ _ _ (tick w) bytes Hnever Hbytes) in Hrun
      by (subst w1; simpl; apply lookup_insert_eq).
    assert (Hbody : exists db wb,
      (coords <- find_template template_name shot default_threshold ;;
       match coords with
       | Some (x, y) =>
           tap_coordinate x y ;;
           (if negb (Qle_bool wait_after 0) then wait wait_after else pass) ;;
           ret (Some true)
       | None =>
           log_warning ("Attempt " +:+ pretty (attempt + 1) +:+ "/" +:+
                               pretty max_attempts +:+ ": " +:+ template_name +:+
                               " not found") ;;
           (if attempt <? max_attempts - 1 then wait 1 else pass) ;;
           ret None
       end) w1 = (Normal None, wb) /\
      trace wb = trace w1 ++ db /\ fs wb = fs w1 /\
      actions db = if attempt <? max_attempts - 1 then [ESleep 1] else []).
    { erewrite bind_normal by exact Hrun.
      unfold wait, log_warning, log_info, log, time_sleep, pass, ret, bind. simpl.
      destruct (attempt <? max_attempts - 1); simpl; rewrite ?Hsleep;
        eexists _, _; (split; [reflexivity|]); simpl;
        rewrite <- ?app_assoc; (split; [reflexivity|]); (split; [reflexivity|]);
        rewrite actions_app, (actions_passive d Hd); reflexivity. }
    destruct Hbody as (db & wb & Hbody & Htr & Hfs & Hact).
    erewrite bind_normal; cycle 1.
    { eapply try_finally_normal; [exact Hbody|]. apply remove_if_exists_present.
      rewrite Hfs. subst w1. simpl. rewrite lookup_insert_eq. eauto. }
    destruct (IH (attempt + 1)
                (mkWorld (delete shot (fs wb)) (trace wb ++ [EExists shot; ERemove shot])
                   (tick wb))) as (delta & w' & Hloop & Htr' & Hact'); [lia|].
    exists ([EScreencap true; EWrite shot; ELog INFO ("Screenshot saved: " +:+ shot)] ++
            db ++ [EExists shot; ERemove shot] ++ delta), w'.
    split; [exact Hloop|]. split.
    { rewrite Htr'. simpl. rewrite Htr. subst w1. simpl. by rewrite <- !app_assoc. }
    rewrite !actions_app, Hact, Hact'. simpl.
    destruct remaining as [|remaining]; simpl.
    + replace (attempt <? max_attempts - 1) with false by lia. done.
    + replace (attempt <? max_attempts - 1) with true by lia.
      by rewrite Nat.sub_0_r.
Qed.

Local Transparent find_template.

Lemma captures_actions (es : list Event) : captures (actions es) = captures es.
Proof.
  unfold captures, actions. induction es as [|[] es IH]; simpl; auto.
Qed.

Lemma sleeps_actions (es : list Event) : sleeps (actions es) = sleeps es.
Proof.
  unfold sleeps, actions. induction es as [|[] es IH]; simpl; auto. by f_equal.
Qed.

Lemma taps_actions (es : list Event) : taps (actions es) = taps es.
Proof.
  unfold taps, actions. induction es as [|[] es IH]; simpl; auto. by f_equal.
Qed.

(** The device-facing part of a run of [n + 1] attempts that all fail. *)
Lemma failed_attempts_counts (n : nat) :
  let acts := mjoin (replicate n [EScreencap true; ESleep 1]) ++ [EScreencap true] in
  captures acts = S n /\ sleeps acts = replicate n 1%Q /\ taps acts = [].
Proof.
  induction n as [|n (IHc & IHs & IHt)]; simpl; [done|].
  unfold captures, sleeps, taps in *. simpl. rewrite IHc, IHs, IHt. done.
Qed.



Lemma try_finally_remove {A} (body : M A) (p : string) (w w1 : World) (o : Outcome A) :
  body w = (o, w1) -> o <> OutOfFuel -> is_Some (fs w1 !! p) ->
  try_finally body (remove_if_exists p) w =
    (o, mkWorld (delete p (fs w1)) (trace w1 ++ [EExists p; ERemove p]) (tick w1)).
Proof.
  intros Hb Ho Hp. unfold try_finally. rewrite Hb, (remove_if_exists_present p w1 Hp).
  by destruct o.
Qed.

Lemma taps_app (es1 es2 : list Event) : taps (es1 ++ es2) = taps es1 ++ taps es2.
Proof. unfold taps. apply omap_app. Qed.

Lemma taps_passive (es : list Event) : forallb passive es = true -> taps es = [].
Proof. intros H. by rewrite <- taps_actions, actions_passive. Qed.

Lemma positive_nonneg (d : Q) : Qle_bool d 0 = false -> Qle_bool 0 d = true.
Proof.
  intros H. apply Qle_bool_iff, Qlt_le_weak, Qnot_le_lt. intros Hle.
  apply Qle_bool_iff in Hle. congruence.
Qed.

Local Opaque find_template_multi.

(** An attempt of [find_and_tap_multi] on a frame that some root matches:
    the tap goes to the match of the first such root, and the files looked
    for are the template in the roots up to that one, then the screenshot. *)
Lemma find_and_tap_multi_first_root (template_name : string) (max_attempts : Z)
    (wait_after : Q) (extra_dirs : option (list string)) (threshold : Q)
    (w : World) (bytes : option Gray) (pre : list string) (root : string)
    (post : list string) (c : Z * Z) :
  let shot := screenshot_name (clock env (tick w)) in
  let files := <[shot := bytes]> (fs w) in
  1 <= max_attempts ->
  screencap env (tick w) = CapOk bytes ->
  template_path config :: default default_extra_dirs extra_dirs = pre ++ root :: post ->
  (forall r, r ∈ pre -> match_best files (path_join r template_name) shot threshold = None) ->
  match_best files (path_join root template_name) shot threshold = Some c ->
  exists o delta w',
    find_and_tap_multi template_name max_attempts wait_after extra_dirs threshold w = (o, w') /\
    (o = Normal true \/ o = Raised KeyboardInterrupt) /\
    trace w' = trace w ++ delta /\
    taps delta = [c] /\
    consulted delta =
      ((fun r => path_join r template_name) <$> (pre ++ [root])) ++ [shot].
Proof.
  intros shot files Hn Hbytes Hroots Hpre Hroot. unfold find_and_tap_multi.
  destruct (Z.to_nat max_attempts) as [|remaining] eqn:E; [lia|].
  cbn [find_and_tap_multi_loop].
  erewrite bind_normal by (by apply take_screenshot_ok).
  fold shot. fold files. set (w1 := mkWorld _ _ _).
  destruct (find_template_multi_run template_name shot threshold extra_dirs w1)
    as (d & Hrun & Hcons & Hd).
  change (fs w1) with files in Hrun, Hcons.
  rewrite Hroots in Hrun, Hcons.
  rewrite (first_match_stops _ _ _ _ pre root post c Hpre Hroot) in Hrun, Hcons.
  simpl in Hrun, Hcons. destruct c as [x y].
  assert (Hbody : exists o db wb,
    (coords <- find_template_multi template_name shot threshold extra_dirs ;;
     match coords with
     | Some (x, y) =>
         tap_coordinate x y ;;
         (if negb (Qle_bool wait_after 0) then time_sleep wait_after else pass) ;;
         ret (Some true)
     | None =>
         log_warning ("Attempt " +:+ pretty (0 + 1) +:+ "/" +:+
                      pretty max_attempts +:+ ": " +:+ template_name +:+
                      " not found (multi)") ;;
         (if 0 <? max_attempts - 1 then time_sleep 1 else pass) ;;
         ret None
     end) w1 = (o, wb) /\
    (o = Normal (Some true) \/ o = Raised KeyboardInterrupt) /\
    trace wb = trace w1 ++ d ++ db /\ fs wb = fs w1 /\
    taps db = [(x, y)] /\ consulted db = []).
  { erewrite bind_normal by exact Hrun.
    unfold tap_coordinate, adb_input_tap, time_sleep, log_info, log_error, log,
      raise, pass, ret, bind. simpl.
    destruct (input_tap env (S (tick w))); simpl;
      destruct (Qle_bool wait_after 0) eqn:Ew; simpl;
      rewrite ?(positive_nonneg _ Ew); simpl;
      try destruct (sleep_interrupted env (S (S (tick w)))); simpl;
      eexists _, _, _; (split; [reflexivity|]); simpl; rewrite <- ?app_assoc;
      (split; [eauto|]); (split; [reflexivity|]); try done.
  }
  destruct Hbody as (o & db & wb & Hbody & Ho & Htr & Hfs & Htaps & Hcons').
  assert (Hfinal := try_finally_remove _ shot w1 wb o Hbody).
  unfold bind at 1. rewrite Hfinal; cycle 1.
  { by destruct Ho as [-> | ->]. }
  { rewrite Hfs. subst w1 files. simpl. rewrite lookup_insert_eq. eauto. }
  assert (Hdelta : trace wb ++ [EExists shot; ERemove shot] =
    trace w ++ ([EScreencap true; EWrite shot; ELog INFO ("Screenshot saved: " +:+ shot)] ++
                d ++ db ++ [EExists shot; ERemove shot])).
  { rewrite Htr. subst w1. simpl. by rewrite <- !app_assoc. }
  destruct Ho as [-> | ->]; eexists _, _, _; (split; [reflexivity|]);
    (split; [eauto|]); (split; [exact Hdelta|]);
    rewrite ?taps_app, ?consulted_app, Htaps, Hcons', Hcons, (taps_passive d Hd);
    simpl; rewrite ?app_nil_r; done.
Qed.

Local Transparent find_template_multi.



(** ** Scratch files: rules *)

Lemma written_app (es1 es2 : list Event) : written (es1 ++ es2) = written es1 ++ written es2.
Proof. unfold written. apply omap_app. Qed.

Lemma released_refl (w : World) : released w w.
Proof.
  exists []. split; [by rewrite app_nil_r|]. intros p. right. split; [done|]. apply not_elem_of_nil.
Qed.

Lemma released_trans (w1 w2 w3 : World) :
  released w1 w2 -> released w2 w3 -> released w1 w3.
Proof.
  intros (d1 & Ht1 & H1) (d2 & Ht2 & H2). exists (d1 ++ d2).
  split; [by rewrite Ht2, Ht1, app_assoc|]. intros p.
  destruct (H2 p) as [|[Heq2 Hw2]]; [by left|].
  destruct (H1 p) as [Hn|[Heq1 Hw1]]; [left; congruence|].
  right. split; [congruence|]. rewrite written_app.
  intros [?|?]%elem_of_app; done.
Qed.

(** A step that leaves the files alone and writes nothing. *)
Lemma released_same_files (w w' : World) (delta : list Event) :
  trace w' = trace w ++ delta -> fs w' = fs w -> written delta = [] -> released w w'.
Proof.
  intros Ht Hf Hw. exists delta. split; [done|]. intros p. right.
  rewrite Hf, Hw. split; [done|]. apply not_elem_of_nil.
Qed.

Lemma tidy_ext {A} (m m' : M A) : (forall w, m w = m' w) -> tidy m -> tidy m'.
Proof. intros Heq Hm w. rewrite <- Heq. apply Hm. Qed.

Lemma tidy_ret {A} (a : A) : tidy (ret a).
Proof. intros w _. apply released_refl. Qed.

Lemma tidy_raise {A} (e : Exn) : tidy (@raise A e).
Proof. intros w _. apply released_refl. Qed.

Lemma tidy_break {A} : tidy (@break_ A).
Proof. intros w _. apply released_refl. Qed.

Lemma tidy_continue {A} : tidy (@continue_ A).
Proof. intros w _. apply released_refl. Qed.

Lemma tidy_bind {A B} (m : M A) (k : A -> M B) :
  tidy m -> (forall a, tidy (k a)) -> tidy (bind m k).
Proof.
  intros Hm Hk w. unfold bind. specialize (Hm w).
  destruct (m w) as [[a|e| | |] w1]; simpl in *; try (intros _; by apply Hm); [|done].
  intros Hfuel. eapply released_trans; [by apply Hm|]. by apply Hk.
Qed.

Lemma tidy_try_finally {A} (body : M A) (final : M unit) :
  tidy body -> tidy final -> tidy (try_finally body final).
Proof.
  intros Hb Hf w. unfold try_finally. specialize (Hb w).
  destruct (body w) as [o w1]; simpl in *.
  assert (o = OutOfFuel \/ o <> OutOfFuel) as [->|Ho] by (destruct o; eauto).
  { done. }
  specialize (Hf w1).
  assert (forall (r : Outcome A * World),
    r = match final w1 with
        | (Normal _, w2) => (o, w2)
        | (o', w2) => (abrupt o', w2)
        end ->
    fst r <> OutOfFuel -> released w (snd r)) as Hgoal.
  { intros r ->. destruct (final w1) as [[[]|e'| | |] w2]; simpl in *;
      intros Hfuel; try done; (eapply released_trans; [by apply Hb | by apply Hf]). }
  destruct o; try done; by apply Hgoal.
Qed.

Lemma tidy_try_except {A} (body : M A) (handler : Exn -> M A) :
  tidy body -> (forall e, tidy (handler e)) -> tidy (try_except body handler).
Proof.
  intros Hb Hh w. unfold try_except. specialize (Hb w).
  destruct (body w) as [[a|e| | |] w1]; simpl in *; try done.
  destruct (is_Exception e); [|done].
  intros Hfuel. eapply released_trans; [by apply Hb | by apply Hh].
Qed.

Lemma tidy_while_true (fuel : nat) (body : M unit) :
  tidy body -> tidy (while_true fuel body).
Proof.
  intros Hb. induction fuel as [|fuel IH]; intros w; simpl; [done|].
  specialize (Hb w). destruct (body w) as [[[]|e| | |] w1]; simpl in *; try done;
    try (intros _; by apply Hb);
    intros Hfuel; (eapply released_trans; [by apply Hb | by apply IH]).
Qed.

Lemma tidy_for_range (n : nat) (body : M unit) : tidy body -> tidy (for_range n body).
Proof.
  intros Hb. induction n; simpl; [apply tidy_ret|]. by apply tidy_bind.
Qed.

Lemma tidy_log (lvl : Level) (msg : string) : tidy (log lvl msg).
Proof. intros w _. by eapply released_same_files. Qed.

Lemma tidy_path_exists (p : string) : tidy (path_exists p).
Proof. intros w _. by eapply released_same_files. Qed.

Lemma tidy_imread (p : string) : tidy (imread p).
Proof. intros w _. by eapply released_same_files. Qed.

Lemma tidy_os_remove (p : string) : tidy (os_remove p).
Proof.
  intros w _. exists [ERemove p]. split; [done|]. intros q. simpl.
  destruct (decide (p = q)) as [->|Hne].
  - left. apply lookup_delete_eq.
  - right. rewrite lookup_delete_ne by done. split; [done|]. apply not_elem_of_nil.
Qed.

Lemma tidy_remove_if_exists (p : string) : tidy (remove_if_exists p).
Proof.
  unfold remove_if_exists. apply tidy_bind; [apply tidy_path_exists|].
  intros []; [apply tidy_os_remove | apply tidy_ret].
Qed.

Lemma tidy_config_get {A} (v : option A) : tidy (config_get v).
Proof. destruct v; [apply tidy_ret | apply tidy_raise]. Qed.

Lemma tidy_time_sleep (seconds : Q) : tidy (time_sleep seconds).
Proof.
  intros w _. unfold time_sleep. destruct (negb (Qle_bool 0 seconds)); simpl.
  - apply released_refl.
  - destruct (sleep_interrupted env (tick w)); by eapply released_same_files.
Qed.

Lemma tidy_wait (seconds : Q) : tidy (wait seconds).
Proof.
  unfold wait. apply tidy_bind; [apply tidy_log|]. intros _. apply tidy_time_sleep.
Qed.

Lemma tidy_tap_coordinate (x y : Z) : tidy (tap_coordinate x y).
Proof.
  intros w _. unfold tap_coordinate, bind, adb_input_tap. simpl.
  destruct (input_tap env (tick w)); simpl; eapply released_same_files; simpl;
    rewrite <- ?app_assoc; done.
Qed.

Lemma tidy_find_template (template_name shot : string) (threshold : Q) :
  tidy (find_template template_name shot threshold).
Proof.
  intros w _. destruct (find_template_run template_name shot threshold w)
    as (d & -> & _ & Hd). simpl.
  eapply released_same_files; [reflexivity..|].
  clear -Hd. induction d as [|[] d IH]; simpl in *; auto; done.
Qed.

Lemma tidy_find_template_multi (template_name shot : string) (threshold : Q)
    (extra_dirs : option (list string)) :
  tidy (find_template_multi template_name shot threshold extra_dirs).
Proof.
  intros w _.
  destruct (find_template_multi_run template_name shot threshold extra_dirs w)
    as (d & -> & _ & Hd). simpl.
  eapply released_same_files; [reflexivity..|].
  clear -Hd. induction d as [|[] d IH]; simpl in *; auto; done.
Qed.


(** [take_screenshot] either writes the frame to the file it names, or
    raises and writes nothing. *)
Lemma take_screenshot_cases (w : World) :
  let shot := screenshot_name (clock env (tick w)) in
  (exists bytes,
      take_screenshot w =
        (Normal shot,
         mkWorld (<[shot := bytes]> (fs w))
           (trace w ++ [EScreencap true; EWrite shot;
                        ELog INFO ("Screenshot saved: " +:+ shot)])
           (S (tick w)))) \/
  (exists e delta w',
      take_screenshot w = (Raised e, w') /\
      trace w' = trace w ++ delta /\ fs w' = fs w /\ written delta = []).
Proof.
  intros shot. destruct (screencap env (tick w)) as [bytes| | |] eqn:E.
  - left. exists bytes. by apply take_screenshot_ok.
  - right. unfold take_screenshot, bind, time_time, adb_screencap. simpl. rewrite E. simpl.
    eexists _, _, _. split; [reflexivity|]. simpl. rewrite <- ?app_assoc. done.
  - right. unfold take_screenshot, bind, time_time, adb_screencap. simpl. rewrite E. simpl.
    eexists _, _, _. split; [reflexivity|]. simpl. rewrite <- ?app_assoc. done.
  - right. unfold take_screenshot, bind, time_time, adb_screencap. simpl. rewrite E. simpl.
    eexists _, _, _. split; [reflexivity|]. simpl. rewrite <- ?app_assoc. done.
Qed.

Lemma remove_if_exists_run (p : string) (w : World) :
  exists delta,
    remove_if_exists p w =
      (Normal tt, mkWorld (delete p (fs w)) (trace w ++ delta) (tick w)) /\
    written delta = [].
Proof.
  destruct (fs w !! p) as [c|] eqn:E.
  - exists [EExists p; ERemove p]. split; [|done].
    apply remove_if_exists_present. by rewrite E.
  - exists [EExists p]. split; [|done].
    unfold remove_if_exists, bind, path_exists, pass, ret. simpl.
    rewrite bool_decide_eq_false_2 by (rewrite E; by inversion 1).
    by rewrite (delete_id _ _ E).
Qed.

(** The scope of a screenshot: capture, use inside [try], remove in
    [finally].  Whatever the body does with the frame, and however it ends,
    the file is gone before anything else runs. *)
Lemma tidy_screenshot_scope {A B} (body : string -> M A) (k : A -> M B) :
  (forall p, tidy (body p)) -> (forall a, tidy (k a)) ->
  tidy (p <- take_screenshot ;;
        r <- try_finally (body p) (remove_if_exists p) ;;
        k r).
Proof.
  intros Hbody Hk w. unfold bind.
  destruct (take_screenshot_cases w) as [(bytes & ->)|(e & d & w' & -> & Ht & Hf & Hw)];
    cycle 1.
  { simpl. intros _. by eapply released_same_files. }
  set (shot := screenshot_name (clock env (tick w))).
  set (w1 := mkWorld _ _ _).
  assert (Hscope : forall o w3,
    try_finally (body shot) (remove_if_exists shot) w1 = (o, w3) ->
    o <> OutOfFuel -> released w w3).
  { intros o w3. unfold try_finally. specialize (Hbody shot w1).
    destruct (body shot w1) as [ob w2]; simpl in Hbody.
    destruct (remove_if_exists_run shot w2) as (d2 & Hrm & Hw2).
    assert (ob = OutOfFuel \/ ob <> OutOfFuel) as [->|Hob] by (destruct ob; eauto).
    { intros [= <- <-]. done. }
    rewrite Hrm. intros Heq _.
    assert (w3 = mkWorld (delete shot (fs w2)) (trace w2 ++ d2) (tick w2)) as ->
      by (destruct ob; congruence).
    destruct (Hbody Hob) as (d1 & Ht1 & H1).
    exists ([EScreencap true; EWrite shot; ELog INFO ("Screenshot saved: " +:+ shot)] ++
            d1 ++ d2).
    split. { simpl. rewrite Ht1. subst w1. simpl. by rewrite <- !app_assoc. }
    intros q. simpl. destruct (decide (shot = q)) as [<-|Hne].
    { left. apply lookup_delete_eq. }
    rewrite lookup_delete_ne by done.
    destruct (H1 q) as [|[Heq1 Hq1]]; [by left|]. right. split.
    - rewrite Heq1. subst w1. simpl. by apply lookup_insert_ne.
    - rewrite written_app, Hw2, app_nil_r.
      intros [->|Hq]%elem_of_cons; done. }
  destruct (try_finally (body shot) (remove_if_exists shot) w1) as [o w3] eqn:E.
  specialize (Hscope o w3 eq_refl).
  destruct o as [a|e| | |]; simpl; try (intros _; by apply Hscope); [|done].
  intros Hfuel. eapply released_trans; [by apply Hscope | by apply Hk].
Qed.

Lemma tidy_screenshot_scope_last {A} (body : string -> M A) :
  (forall p, tidy (body p)) ->
  tidy (p <- take_screenshot ;; try_finally (body p) (remove_if_exists p)).
Proof.
  intros Hbody.
  eapply tidy_ext; [|apply (tidy_screenshot_scope body ret Hbody);
                     intros; apply tidy_ret].
  intros w. unfold bind. destruct (take_screenshot w) as [[p|e| | |] w1]; try done.
  destruct (try_finally (body p) (remove_if_exists p) w1) as [[a|e| | |] w2]; done.
Qed.

Lemma tidy_cv_matchTemplate (s t : Gray) : tidy (cv_matchTemplate s t).
Proof.
  unfold cv_matchTemplate. destruct (matchTemplate s t); [apply tidy_ret | apply tidy_raise].
Qed.

Lemma tidy_np_getitem (g : Gray) (y x : Z) : tidy (np_getitem g y x).
Proof.
  unfold np_getitem. destruct (np_index g y x); [apply tidy_ret | apply tidy_raise].
Qed.

Lemma tidy_for_each {A S} (body : S -> A -> M S) (items : list A) (acc : S) :
  (forall acc item, tidy (body acc item)) -> tidy (for_each body items acc).
Proof.
  intros Hb. revert acc. induction items as [|item items IH]; intros acc; simpl.
  - apply tidy_ret.
  - apply tidy_bind; [apply Hb | apply IH].
Qed.

(** Structural steps of a [tidy] proof, chosen by the head of the script. *)
Ltac tidy_step :=
  lazymatch goal with
  | IH : forall _, tidy _ |- tidy (find_and_tap_loop _ _ _ _ _) => apply IH
  | IH : forall _, tidy _ |- tidy (find_and_tap_multi_loop _ _ _ _ _ _ _) => apply IH
  | |- tidy (bind take_screenshot _) =>
      first [ apply tidy_screenshot_scope; intros ?
            | apply tidy_screenshot_scope_last; intros ? ]
  | |- tidy (bind _ _) => apply tidy_bind; [|intros ?]
  | |- tidy (try_finally _ _) => apply tidy_try_finally
  | |- tidy (try_except _ _) => apply tidy_try_except; [|intros ?]
  | |- tidy (while_true _ _) => apply tidy_while_true
  | |- tidy (for_range _ _) => apply tidy_for_range
  | |- tidy (for_each _ _ _) => apply tidy_for_each; intros ? ?
  | |- tidy (if ?b then _ else _) => destruct b
  | |- tidy (match ?x with _ => _ end) => destruct x
  | |- tidy _ =>
      unfold log_debug, log_info, log_warning, log_error, pass;
      solve [auto with tidy nocore]
  end.

Create HintDb tidy.
#[local] Hint Resolve tidy_ret tidy_raise tidy_break tidy_continue tidy_log
  tidy_path_exists tidy_imread tidy_remove_if_exists tidy_find_template
  tidy_find_template_multi tidy_tap_coordinate tidy_wait tidy_time_sleep
  tidy_config_get : tidy.

Lemma tidy_find_and_tap (template_name : string) (max_attempts : Z) (wait_after : Q) :
  tidy (find_and_tap template_name max_attempts wait_after).
Proof.
  unfold find_and_tap. generalize 0 at 1. 
  induction (Z.to_nat max_attempts) as [|remaining IH]; intros attempt; simpl;
    repeat tidy_step.
Qed.

Lemma tidy_find_and_tap_multi (template_name : string) (max_attempts : Z)
    (wait_after : Q) (extra_dirs : option (list string)) (threshold : Q) :
  tidy (find_and_tap_multi template_name max_attempts wait_after extra_dirs threshold).
Proof.
  unfold find_and_tap_multi. generalize 0 at 1.
  induction (Z.to_nat max_attempts) as [|remaining IH]; intros attempt; simpl;
    repeat tidy_step.
Qed.


(** ** The larger operations: scratch files *)

#[local] Hint Resolve tidy_cv_matchTemplate tidy_np_getitem : tidy.

Lemma tidy_use_button_step (s t : Gray) (b : Z) (acc : list (Z * Z)) (m : Z * Z) :
  tidy (use_button_step s t b acc m).
Proof.
  unfold use_button_step. destruct (center t m) as [cx cy]. repeat tidy_step.
Qed.

#[local] Hint Resolve tidy_use_button_step : tidy.

Lemma tidy_find_use_buttons (shot : string) (b : Z) :
  tidy (find_use_buttons_with_brightness_filter shot b).
Proof. unfold find_use_buttons_with_brightness_filter. repeat tidy_step. Qed.

#[local] Hint Resolve tidy_find_and_tap tidy_find_and_tap_multi tidy_find_use_buttons : tidy.

Lemma tidy_tp_charge : tidy tp_charge.
Proof. unfold tp_charge. repeat tidy_step. Qed.

Lemma tidy_run_filter_sequence : tidy run_filter_sequence.
Proof. unfold run_filter_sequence. repeat tidy_step. Qed.

#[local] Hint Resolve tidy_tp_charge tidy_run_filter_sequence : tidy.

Lemma tidy_manual_choose_friend : tidy manual_choose_friend.
Proof. unfold manual_choose_friend. repeat tidy_step. Qed.

#[local] Hint Resolve tidy_manual_choose_friend : tidy.

Lemma tidy_steps_1_to_4 : tidy steps_1_to_4.
Proof. unfold steps_1_to_4. repeat tidy_step. Qed.

Lemma tidy_step_5 : tidy step_5.
Proof. unfold step_5. repeat tidy_step. Qed.

Lemma tidy_step_6 (fuel : nat) : tidy (step_6 fuel).
Proof. unfold step_6, step_6_body. repeat tidy_step. Qed.

Lemma tidy_steps_7_to_11 : tidy steps_7_to_11.
Proof. unfold steps_7_to_11. repeat tidy_step. Qed.

Lemma tidy_step_12 : tidy step_12.
Proof. unfold step_12. repeat tidy_step. Qed.

Lemma tidy_step_14_5 : tidy step_14_5.
Proof. unfold step_14_5. repeat tidy_step. Qed.

#[local] Hint Resolve tidy_step_14_5 : tidy.

Lemma tidy_steps_13_to_15 : tidy steps_13_to_15.
Proof. unfold steps_13_to_15. repeat tidy_step. Qed.

Lemma tidy_step_16 (fuel : nat) : tidy (step_16 fuel).
Proof. unfold step_16, step_16_body. repeat tidy_step. Qed.

Lemma tidy_steps_17_18 : tidy steps_17_18.
Proof. unfold steps_17_18. repeat tidy_step. Qed.

#[local] Hint Resolve tidy_steps_1_to_4 tidy_step_5 tidy_step_6 tidy_steps_7_to_11
  tidy_step_12 tidy_steps_13_to_15 tidy_step_16 tidy_steps_17_18 : tidy.

Lemma tidy_cycle (fuel : nat) : tidy (cycle fuel).
Proof. unfold cycle. repeat tidy_step. Qed.


(** ** The larger operations: ways out *)

Lemma yields_use_button_step (s t : Gray) (b : Z) (acc : list (Z * Z)) (m : Z * Z) :
  yields (use_button_step s t b acc m) caught.
Proof.
  unfold use_button_step. destruct (center t m) as [cx cy]. repeat yields_step.
Qed.

#[local] Hint Resolve yields_use_button_step : yields.

(** [find_use_buttons_with_brightness_filter] always returns a list. *)
Lemma yields_find_use_buttons (shot : string) (b : Z) (P : Signal -> Prop) :
  yields (find_use_buttons_with_brightness_filter shot b) P.
Proof.
  unfold find_use_buttons_with_brightness_filter. do 2 yields_step.
  { repeat yields_step. }
  apply (yields_try_except _ _ caught); [repeat yields_step | intros ? ?; repeat yields_step |].
  intros s Hs. by left.
Qed.

#[local] Hint Resolve yields_find_and_tap yields_find_and_tap_multi
  yields_find_use_buttons : yields.

Lemma yields_tp_charge (P : Signal -> Prop) :
  (forall s, capture_fault s -> P s) -> yields tp_charge P.
Proof.
  intros HP. unfold tp_charge. yields_step; [repeat yields_step|].
  apply (yields_try_except _ _ capture_fault);
    [repeat yields_step | intros ? ?; repeat yields_step | by right; apply HP].
Qed.

Lemma yields_run_filter_sequence (P : Signal -> Prop) :
  (forall s, capture_fault s -> P s) -> yields run_filter_sequence P.
Proof. intros HP. unfold run_filter_sequence. repeat yields_step. Qed.

#[local] Hint Resolve yields_tp_charge yields_run_filter_sequence : yields.

Lemma yields_manual_choose_friend (P : Signal -> Prop) :
  (forall s, capture_fault s -> P s) -> yields manual_choose_friend P.
Proof. intros HP. unfold manual_choose_friend. repeat yields_step. Qed.

#[local] Hint Resolve yields_manual_choose_friend : yields.

(** A [while True] loop inside a cycle step keeps its own [break]. *)
Lemma yields_inner_loop (fuel : nat) (body : M unit) :
  yields (while_true fuel body) not_break.
Proof.
  apply (yields_while_true _ _ (fun _ => True)); [apply yields_any | | discriminate].
  intros [e| | |] _; [right; right; discriminate | by left | by right; left
                     | right; right; discriminate].
Qed.

#[local] Hint Resolve yields_inner_loop : yields.

Lemma yields_steps_1_to_4 : yields steps_1_to_4 not_break.
Proof. unfold steps_1_to_4. repeat yields_step. Qed.

Lemma yields_step_6 (fuel : nat) : yields (step_6 fuel) not_break.
Proof. unfold step_6. repeat yields_step. Qed.

Lemma yields_steps_7_to_11 : yields steps_7_to_11 not_break.
Proof. unfold steps_7_to_11. repeat yields_step. Qed.

Lemma yields_step_12 : yields step_12 not_break.
Proof. unfold step_12. repeat yields_step. Qed.

Lemma yields_step_14_5 : yields step_14_5 not_break.
Proof. unfold step_14_5. repeat yields_step. Qed.

#[local] Hint Resolve yields_step_14_5 : yields.

Lemma yields_steps_13_to_15 : yields steps_13_to_15 not_break.
Proof. unfold steps_13_to_15. repeat yields_step. Qed.

Lemma yields_step_16 (fuel : nat) : yields (step_16 fuel) not_break.
Proof. unfold step_16. repeat yields_step. Qed.

Lemma yields_steps_17_18 : yields steps_17_18 not_break.
Proof. unfold steps_17_18. repeat yields_step. Qed.

(** Operations without a [while True] loop never run out of fuel. *)
Lemma capture_fault_fuel {A} (m : M A) (w : World) :
  yields m capture_fault -> fst (m w) <> OutOfFuel.
Proof. intros Hm Hfuel. apply (Hm w SFuel). by rewrite Hfuel. Qed.

(** C9.  A screenshot file written by an operation is removed by the same
    operation on every way out - success, failure, exception, break or
    continue: after [find_and_tap], [find_and_tap_multi], [tp_charge] and a
    whole cycle of the main loop (with all its peeks), every path is either
    absent, or was not written by the operation and holds what it held
    before. *)
Theorem scratch_frames_released :
  (forall template_name max_attempts wait_after w,
      released w (snd (find_and_tap template_name max_attempts wait_after w))) /\
  (forall template_name max_attempts wait_after extra_dirs threshold w,
      released w (snd (find_and_tap_multi template_name max_attempts wait_after
                         extra_dirs threshold w))) /\
  (forall w, released w (snd (tp_charge w))) /\
  (forall fuel w,
      fst (cycle fuel w) <> OutOfFuel -> released w (snd (cycle fuel w))).
Proof.
  repeat split.
  - intros. apply tidy_find_and_tap, capture_fault_fuel, yields_find_and_tap. auto.
  - intros. apply tidy_find_and_tap_multi, capture_fault_fuel, yields_find_and_tap_multi.
    auto.
  - intros. apply tidy_tp_charge, capture_fault_fuel, yields_tp_charge. auto.
  - intros fuel w. apply tidy_cycle.
Qed.


(** ** The main loop *)

Lemma yields_not_break {A} (m : M A) (w w' : World) :
  yields m not_break -> m w <> (Brk, w').
Proof. intros Hm Heq. apply (Hm w SBrk); [by rewrite Heq | done]. Qed.

Lemma yields_after_step_5 (fuel : nat) :
  yields (step_6 fuel ;; steps_7_to_11 ;; step_12 ;; steps_13_to_15 ;;
          step_16 fuel ;; steps_17_18) not_break.
Proof.
  repeat first
    [ apply yields_step_6 | apply yields_steps_7_to_11 | apply yields_step_12
    | apply yields_steps_13_to_15 | apply yields_step_16 | apply yields_steps_17_18
    | apply yields_bind; [|intros ?] ].
Qed.

(** Step 5 breaks out of the main loop only right after logging that the
    manual selection failed. *)
Lemma step_5_break (w w' : World) :
  step_5 w = (Brk, w') ->
  manual_choose config = true /\ last (trace w') = Some manual_choose_failed.
Proof.
  unfold step_5. destruct (manual_choose config); [|by unfold log_info, log].
  unfold bind at 1. unfold log_info at 1, log at 1. cbv beta iota.
  unfold bind at 1.
  destruct (manual_choose_friend _) as [[[]|e| | |] w1] eqn:E; try done.
  - unfold bind, log_error, log, break_. simpl. intros [= <-]. split; [done|].
    simpl. apply last_snoc.
  - intros [= <-]. exfalso.
    eapply (yields_not_break manual_choose_friend); [|exact E].
    apply yields_manual_choose_friend, capture_fault_not_break.
Qed.

(** The only [break] inside a cycle is the one of step 5. *)
Lemma cycle_break (fuel : nat) (w w' : World) :
  cycle fuel w = (Brk, w') ->
  manual_choose config = true /\ last (trace w') = Some manual_choose_failed.
Proof.
  unfold cycle. unfold bind at 1. unfold log_info at 1, log at 1. cbv beta iota.
  unfold bind at 1.
  destruct (steps_1_to_4 _) as [[[]|e| | |] w1] eqn:E1; try done; cycle 1.
  { intros [= <-]. exfalso. eapply (yields_not_break steps_1_to_4); [|exact E1].
    apply yields_steps_1_to_4. }
  unfold bind at 1.
  destruct (step_5 w1) as [[[]|e| | |] w2] eqn:E5; try done; cycle 1.
  { intros [= <-]. by apply step_5_break in E5. }
  intros Hrest. exfalso.
  eapply (yields_not_break _ w2 w' (yields_after_step_5 fuel)). exact Hrest.
Qed.


(** How one pass of the main loop can end. *)
Lemma guarded_cycle_outcome (fuel : nat) (w : World) :
  match guarded_cycle fuel w with
  | (Normal _, _) | (Cont, _) | (OutOfFuel, _) => True
  | (Brk, w') =>
      last (trace w') = Some stopped_by_user \/
      (manual_choose config = true /\ last (trace w') = Some manual_choose_failed)
  | (Raised e, w') => e = KeyboardInterrupt /\ last (trace w') = Some (ESleep 10)
  end.
Proof.
  unfold guarded_cycle. destruct (cycle fuel w) as [[[]|e| | |] w1] eqn:E; try done.
  - set (cool := (log_error "Error in automation loop" ;;
                  log_info "Waiting 10 seconds before retrying..." ;;
                  time_sleep 10) w1).
    assert (Hcool : match cool with
                    | (Normal _, _) => True
                    | (Raised e', w') =>
                        e' = KeyboardInterrupt /\ last (trace w') = Some (ESleep 10)
                    | _ => False
                    end).
    { subst cool. unfold bind, log_error, log_info, log, time_sleep. simpl.
      destruct (sleep_interrupted env (tick w1)); [|done]. split; [done|].
      simpl. apply last_snoc. }
    destruct e; try (destruct cool as [[[]|e'| | |] w']; done).
    unfold bind, log_info, log, break_. simpl. left. apply last_snoc.
  - right. by eapply cycle_break.
Qed.

(** The main loop ends only by a [break] of one of its passes or by an
    interrupt during the cool-down. *)
Lemma main_loop_exits (fuel n : nat) (w : World) :
  match while_true n (guarded_cycle fuel) w with
  | (Normal _, w') =>
      last (trace w') = Some stopped_by_user \/
      (manual_choose config = true /\ last (trace w') = Some manual_choose_failed)
  | (Raised e, w') => e = KeyboardInterrupt /\ last (trace w') = Some (ESleep 10)
  | (OutOfFuel, _) => True
  | _ => False
  end.
Proof.
  revert w. induction n as [|n IH]; intros w; simpl; [done|].
  pose proof (guarded_cycle_outcome fuel w) as Hone.
  destruct (guarded_cycle fuel w) as [[[]|e| | |] w1]; try done; apply IH.
Qed.





(** ** The brightness-filtered search *)

Lemma np_where_ge_nonneg (result : ScoreMap) (threshold : Q) (m : Z * Z) :
  m ∈ np_where_ge result threshold -> 0 <= fst m /\ 0 <= snd m.
Proof.
  unfold np_where_ge. intros ([v [x y]] & -> & Hc)%list_elem_of_fmap.
  apply list_elem_of_filter in Hc as [_ Hc].
  apply cells_lookup in Hc as (i & j & row & _ & _ & -> & ->). simpl. lia.
Qed.

Lemma center_nonneg (t : Gray) (m : Z * Z) :
  0 <= fst m -> 0 <= snd m -> 0 <= fst (center t m) /\ 0 <= snd (center t m).
Proof.
  intros Hx Hy. unfold center, shape. simpl.
  split; apply Z.add_nonneg_nonneg; try done; apply Z.div_pos; lia.
Qed.

(** Inside the bounds test, the pixel lookup is within the array. *)
Lemma np_index_in_frame (g : Gray) (c : Z * Z) :
  0 <= fst c -> 0 <= snd c -> in_frame g c = true ->
  np_index g (snd c) (fst c) = Some (pix g (Z.to_nat (snd c)) (Z.to_nat (fst c))) /\
  (Z.to_nat (snd c) < rows g)%nat /\ (Z.to_nat (fst c) < cols g)%nat.
Proof.
  intros Hx Hy. unfold in_frame, shape. simpl.
  intros [Hr Hc]%andb_true_iff. apply Z.ltb_lt in Hr, Hc.
  unfold np_index, np_axis.
  replace (0 <=? snd c) with true by lia. replace (0 <=? fst c) with true by lia.
  replace (snd c <? Z.of_nat (rows g)) with true by lia.
  replace (fst c <? Z.of_nat (cols g)) with true by lia.
  simpl. split; [done|]. lia.
Qed.

Lemma use_button_step_run (s t : Gray) (b : Z) (kept : list (Z * Z)) (m : Z * Z)
    (w : World) :
  0 <= fst m -> 0 <= snd m ->
  use_button_step s t b kept m w = (Normal (use_button_pure s t b kept m), w).
Proof.
  intros Hx Hy. unfold use_button_step, use_button_pure.
  destruct (center_nonneg t m Hx Hy) as [Hcx Hcy].
  destruct (center t m) as [cx cy] eqn:Ec. simpl in Hcx, Hcy.
  change ((cy <? fst (shape s)) && (cx <? snd (shape s))) with (in_frame s (cx, cy)).
  destruct (in_frame s (cx, cy)) eqn:Ef; [|done].
  destruct (np_index_in_frame s (cx, cy) Hcx Hcy Ef) as [Hidx _]. simpl in Hidx.
  unfold bright, np_getitem, bind, dedupe_step. simpl. rewrite Hidx. simpl.
  destruct (b <? _); [|done]. by destruct (is_unique (cx, cy) kept).
Qed.

Lemma for_each_use_buttons (s t : Gray) (b : Z) (ms : list (Z * Z)) (kept : list (Z * Z))
    (w : World) :
  (forall m, m ∈ ms -> 0 <= fst m /\ 0 <= snd m) ->
  for_each (use_button_step s t b) ms kept w =
    (Normal (fold_left (use_button_pure s t b) ms kept), w).
Proof.
  revert kept. induction ms as [|m ms IH]; intros kept Hms; simpl; [done|].
  destruct (Hms m) as [Hx Hy]; [left|].
  erewrite bind_normal by (by apply use_button_step_run).
  apply IH. intros m' Hm'. apply Hms. by right.
Qed.

(** The loop fuses three passes: bounds, brightness, de-duplication. *)
Lemma use_button_fold (s t : Gray) (b : Z) (ms : list (Z * Z)) (kept : list (Z * Z)) :
  fold_left (use_button_pure s t b) ms kept =
  fold_left dedupe_step
    (List.filter (bright s b) (List.filter (in_frame s) (map (center t) ms))) kept.
Proof.
  revert kept. induction ms as [|m ms IH]; intros kept; simpl; [done|].
  rewrite IH. unfold use_button_pure.
  destruct (in_frame s (center t m)); simpl; [|done].
  by destruct (bright s b (center t m)).
Qed.

Lemma find_use_buttons_run (shot : string) (b : Z) (w : World) :
  exists delta,
    find_use_buttons_with_brightness_filter shot b w =
      (Normal (use_buttons_of (fs w) shot b), emits delta w) /\
    forallb passive delta = true.
Proof.
  unfold find_use_buttons_with_brightness_filter, use_buttons_of, bind at 1, path_exists.
  simpl.
  destruct (fs w !! path_join (template_path config) "use.png") as [[t|]|] eqn:Ht; simpl;
    cycle 2.
  { unfold bind, log_error, log, ret. simpl. eexists; split; [f_equal; world_eq|done]. }
  all: unfold try_except, bind at 1, imread at 1; simpl;
    unfold bind at 1, imread at 1; simpl; rewrite Ht; simpl.
  - destruct (fs w !! shot) as [[s|]|] eqn:Hs; simpl.
    + unfold cv_matchTemplate. destruct (matchTemplate s t) as [result|]; simpl.
      * unfold bind at 1, ret at 1. simpl. unfold bind at 1.
        rewrite for_each_use_buttons by apply np_where_ge_nonneg.
        unfold bind, log_info, log, ret, bright_then_unique, dedupe. simpl.
        rewrite use_button_fold.
        eexists; split; [f_equal; world_eq|done].
      * unfold bind, raise, log_error, log, ret. simpl.
        eexists; split; [f_equal; world_eq|done].
    + unfold bind, log_error, log, ret. simpl. eexists; split; [f_equal; world_eq|done].
    + unfold bind, log_error, log, ret. simpl. eexists; split; [f_equal; world_eq|done].
  - destruct (fs w !! shot) as [[s|]|] eqn:Hs; simpl;
      unfold bind, log_error, log, ret; simpl; eexists; (split; [f_equal; world_eq|done]).
Qed.


(** What de-duplication keeps. *)
Lemma dedupe_fold_spec (cs kept : list (Z * Z)) :
  (forall i j a b', i < j -> kept !! i = Some a -> kept !! j = Some b' ->
                    too_close b' a = false)%nat ->
  let out := fold_left dedupe_step cs kept in
  (forall c, c ∈ out -> c ∈ kept \/ c ∈ cs) /\
  (forall c, c ∈ kept -> c ∈ out) /\
  (forall i j a b', i < j -> out !! i = Some a -> out !! j = Some b' ->
                    too_close b' a = false)%nat /\
  (forall c, c ∈ cs -> c ∈ out \/ exists k, k ∈ out /\ too_close c k = true).
Proof.
  revert kept. induction cs as [|c cs IH]; intros kept Hsep; simpl.
  - repeat split; auto. intros c Hc. by apply not_elem_of_nil in Hc.
  - assert (Hsep' : (forall i j a b', i < j -> dedupe_step kept c !! i = Some a ->
                       dedupe_step kept c !! j = Some b' -> too_close b' a = false)%nat).
    { unfold dedupe_step. destruct (is_unique c kept) eqn:Eu; [|done].
      intros i j a b' Hij Hi Hj.
      destruct (decide (j < length kept)%nat) as [Hlt|Hge].
      - rewrite lookup_app_l in Hi, Hj by lia. eauto.
      - assert (i < S (length kept))%nat.
        { apply lookup_lt_Some in Hj. rewrite length_app in Hj. simpl in Hj. lia. }
        assert (j = length kept).
        { apply lookup_lt_Some in Hj. rewrite length_app in Hj. simpl in Hj. lia. }
        subst j. rewrite lookup_app_l in Hi by lia.
        rewrite lookup_app_r, Nat.sub_diag in Hj by lia. simpl in Hj. simplify_eq.
        unfold is_unique in Eu. rewrite forallb_forall in Eu.
        apply negb_true_iff, Eu, list_elem_of_In, list_elem_of_lookup. eauto. }
    destruct (IH (dedupe_step kept c) Hsep') as (Hsub & Hkeep & Hout & Hcov).
    assert (Hstep : forall k, k ∈ kept -> k ∈ dedupe_step kept c).
    { intros k Hk. unfold dedupe_step. destruct (is_unique c kept); [|done].
      apply elem_of_app. by left. }
    repeat split.
    + intros c' Hc'. destruct (Hsub c' Hc') as [Hin|Hin]; [|by right; right].
      unfold dedupe_step in Hin. destruct (is_unique c kept); [|by left].
      apply elem_of_app in Hin as [|Hin]; [by left|].
      apply list_elem_of_singleton in Hin as ->. right. left.
    + intros c' Hc'. by apply Hkeep, Hstep.
    + exact Hout.
    + intros c' [->|Hc']%elem_of_cons; [|by apply Hcov].
      destruct (is_unique c kept) eqn:Eu.
      * left. apply Hkeep. unfold dedupe_step. rewrite Eu.
        apply elem_of_app. right. by apply list_elem_of_singleton.
      * right. unfold is_unique in Eu.
        apply not_true_iff_false in Eu. rewrite forallb_forall in Eu.
        destruct (existsb (too_close c) kept) eqn:Ex.
        -- apply existsb_exists in Ex as (k & Hk & Hclose). exists k.
           split; [|done]. by apply Hkeep, Hstep, list_elem_of_In.
        -- exfalso. apply Eu. intros k Hk. apply negb_true_iff.
           destruct (too_close c k) eqn:Ec; [|done].
           assert (existsb (too_close c) kept = true); [|congruence].
           apply existsb_exists. eauto.
Qed.

Lemma dedupe_spec (cs : list (Z * Z)) :
  (forall c, c ∈ dedupe cs -> c ∈ cs) /\
  (forall i j a b', i < j -> dedupe cs !! i = Some a -> dedupe cs !! j = Some b' ->
                    too_close b' a = false)%nat /\
  (forall c, c ∈ cs -> c ∈ dedupe cs \/ exists k, k ∈ dedupe cs /\ too_close c k = true).
Proof.
  destruct (dedupe_fold_spec cs []) as (Hsub & _ & Hsep & Hcov); [done|].
  repeat split; [|done..]. intros c Hc. destruct (Hsub c Hc) as [Hn|]; [|done].
  by apply not_elem_of_nil in Hn.
Qed.

(** C1, as the code has it.  On a readable frame and template,
    [find_use_buttons_with_brightness_filter] returns the candidates
    produced in this order: all locations with score >= 0.8, each mapped to
    its centre, those outside the frame dropped, then the brightness filter
    (luminance at the centre > brightness threshold), and only then the
    de-duplication, among the bright candidates: a candidate is dropped when
    it is closer than 50 px to one already kept, so the first-encountered
    bright candidate of each cluster stays. *)
Theorem find_use_buttons_order (shot : string) (brightness_threshold : Z) (w : World)
    (s t : Gray) (result : ScoreMap) :
  fs w !! path_join (template_path config) "use.png" = Some (Some t) ->
  fs w !! shot = Some (Some s) ->
  matchTemplate s t = Some result ->
  let candidates :=
    List.filter (bright s brightness_threshold)
      (List.filter (in_frame s) (map (center t) (np_where_ge result default_threshold))) in
  fst (find_use_buttons_with_brightness_filter shot brightness_threshold w) =
    Normal (dedupe candidates) /\
  (forall c, c ∈ dedupe candidates -> c ∈ candidates) /\
  (forall i j a b, i < j -> dedupe candidates !! i = Some a ->
                   dedupe candidates !! j = Some b -> too_close b a = false)%nat /\
  (forall c, c ∈ candidates ->
             c ∈ dedupe candidates \/
             exists k, k ∈ dedupe candidates /\ too_close c k = true).
Proof.
  intros Ht Hs Hm candidates. split; [|apply dedupe_spec].
  destruct (find_use_buttons_run shot brightness_threshold w) as (delta & -> & _).
  simpl. unfold use_buttons_of. rewrite Ht, Hs. simpl. by rewrite Hm.
Qed.

Lemma use_buttons_in_frame (files : gmap string (option Gray)) (shot : string)
    (b : Z) (s : Gray) (c : Z * Z) :
  files !! shot = Some (Some s) ->
  c ∈ use_buttons_of files shot b ->
  0 <= fst c < Z.of_nat (cols s) /\ 0 <= snd c < Z.of_nat (rows s).
Proof.
  intros Hs. unfold use_buttons_of. rewrite Hs. simpl.
  destruct (files !! path_join (template_path config) "use.png") as [[t|]|];
    try (by intros ?%not_elem_of_nil).
  destruct (matchTemplate s t) as [result|]; [|by intros ?%not_elem_of_nil].
  unfold bright_then_unique. intros Hc.
  apply dedupe_spec, list_elem_of_In, filter_In in Hc as [Hc _].
  apply filter_In in Hc as [Hc Hf]. apply list_elem_of_In in Hc.
  apply list_elem_of_fmap in Hc as (m & -> & Hm).
  destruct (np_where_ge_nonneg _ _ _ Hm) as [Hx Hy].
  destruct (center_nonneg t m Hx Hy) as [Hcx Hcy].
  destruct (np_index_in_frame s _ Hcx Hcy Hf) as (_ & Hr & Hcl). lia.
Qed.

(** C10.  In the loop of [find_use_buttons_with_brightness_filter] the
    luminance is read only inside the bounds test: for a match location
    (non-negative, as [np.where] gives them) the pass never raises
    IndexError - when the test holds the lookup is within the array, and
    when the centre is outside the frame the match is dropped without a
    lookup.  Every coordinate the function returns lies inside the
    frame. *)
Theorem brightness_lookup_in_bounds (s t : Gray) (brightness_threshold : Z) :
  (forall kept m w,
      0 <= fst m -> 0 <= snd m ->
      exists kept', use_button_step s t brightness_threshold kept m w = (Normal kept', w)) /\
  (forall m,
      0 <= fst m -> 0 <= snd m -> in_frame s (center t m) = true ->
      is_Some (np_index s (snd (center t m)) (fst (center t m))) /\
      (Z.to_nat (snd (center t m)) < rows s)%nat /\
      (Z.to_nat (fst (center t m)) < cols s)%nat) /\
  (forall kept m w,
      in_frame s (center t m) = false ->
      use_button_step s t brightness_threshold kept m w = (Normal kept, w)) /\
  (forall shot w l c,
      fs w !! shot = Some (Some s) ->
      fst (find_use_buttons_with_brightness_filter shot brightness_threshold w) = Normal l ->
      c ∈ l ->
      0 <= fst c < Z.of_nat (cols s) /\ 0 <= snd c < Z.of_nat (rows s)).
Proof.
  split; [|split; [|split]].
  - intros kept m w Hx Hy. eexists. by apply use_button_step_run.
  - intros m Hx Hy Hin.
    destruct (center_nonneg t m Hx Hy) as [Hcx Hcy].
    destruct (np_index_in_frame s _ Hcx Hcy Hin) as (-> & Hr & Hc). eauto.
  - intros kept m w Hout. unfold use_button_step.
    destruct (center t m) as [cx cy].
    change ((cy <? fst (shape s)) && (cx <? snd (shape s))) with (in_frame s (cx, cy)).
    by rewrite Hout.
  - intros shot w l c Hs Hrun Hc.
    destruct (find_use_buttons_run shot brightness_threshold w) as (delta & Heq & _).
    rewrite Heq in Hrun. simpl in Hrun. injection Hrun as <-.
    by eapply use_buttons_in_frame.
Qed.


Lemma run_pair {A} (m : M A) (w : World) (o : Outcome A) :
  fst (m w) = o -> m w = (o, snd (m w)).
Proof. intros <-. by destruct (m w). Qed.


(** * Further properties of the code *)

(** ** Footprints of the primitives *)

Lemma captures_app (es1 es2 : list Event) :
  captures (es1 ++ es2) = (captures es1 + captures es2)%nat.
Proof. unfold captures. by rewrite List.filter_app, length_app. Qed.

Lemma captures_passive (es : list Event) : forallb passive es = true -> captures es = 0%nat.
Proof. intros H. by rewrite <- captures_actions, actions_passive. Qed.

Lemma footprint_refl (w : World) : footprint w w [] 0.
Proof. exists []. by rewrite app_nil_r. Qed.

Lemma footprint_trans (w1 w2 w3 : World) (t1 t2 : list (Z * Z)) (c1 c2 : nat) :
  footprint w1 w2 t1 c1 -> footprint w2 w3 t2 c2 ->
  footprint w1 w3 (t1 ++ t2) (c1 + c2).
Proof.
  intros (d1 & H1 & Ht1 & Hc1) (d2 & H2 & Ht2 & Hc2). exists (d1 ++ d2).
  rewrite H2, H1, taps_app, captures_app, Ht1, Ht2, Hc1, Hc2, app_assoc. done.
Qed.

(** Composition with a step that neither taps nor captures. *)
Lemma footprint_then_idle (w1 w2 w3 : World) (ts : list (Z * Z)) (c : nat) :
  footprint w1 w2 ts c -> footprint w2 w3 [] 0 -> footprint w1 w3 ts c.
Proof.
  intros H1 H2. pose proof (footprint_trans _ _ _ _ _ _ _ H1 H2) as H.
  by rewrite app_nil_r, Nat.add_0_r in H.
Qed.

Lemma footprint_idle_then (w1 w2 w3 : World) (ts : list (Z * Z)) (c : nat) :
  footprint w1 w2 [] 0 -> footprint w2 w3 ts c -> footprint w1 w3 ts c.
Proof. intros H1 H2. exact (footprint_trans _ _ _ _ _ _ _ H1 H2). Qed.

Lemma footprint_emits (w : World) (delta : list Event) :
  forallb passive delta = true -> footprint w (emits delta w) [] 0.
Proof.
  intros H. exists delta. by rewrite taps_passive, captures_passive.
Qed.

Lemma footprint_emit_log (w : World) (lvl : Level) (msg : string) :
  footprint w (emit (ELog lvl msg) w) [] 0.
Proof. by exists [ELog lvl msg]. Qed.

Lemma take_screenshot_footprint (w : World) :
  footprint w (snd (take_screenshot w)) [] 1 /\
  returns_or_raises (fst (take_screenshot w)).
Proof.
  unfold take_screenshot, bind, time_time, adb_screencap, write_file, log_info,
    log_error, log, raise, ret. simpl.
  destruct (screencap env (tick w)); simpl; (split; [|done]);
    eexists; (split; [simpl; rewrite <- ?app_assoc; reflexivity|done]).
Qed.

Lemma tap_coordinate_footprint (x y : Z) (w : World) :
  footprint w (snd (tap_coordinate x y w)) [(x, y)] 0 /\
  (fst (tap_coordinate x y w) = Normal tt \/
   fst (tap_coordinate x y w) = Raised KeyboardInterrupt).
Proof.
  unfold tap_coordinate, bind, adb_input_tap, log_info, log_error, log, raise. simpl.
  destruct (input_tap env (tick w)); simpl; (split; [|by eauto]);
    eexists; (split; [simpl; rewrite <- ?app_assoc; reflexivity|done]).
Qed.

Lemma time_sleep_footprint (seconds : Q) (w : World) :
  footprint w (snd (time_sleep seconds w)) [] 0 /\
  returns_or_raises (fst (time_sleep seconds w)).
Proof.
  unfold time_sleep. destruct (negb (Qle_bool 0 seconds)); simpl.
  - split; [apply footprint_refl|done].
  - destruct (sleep_interrupted env (tick w)); simpl; (split; [|done]);
      by exists [ESleep seconds].
Qed.

Lemma wait_footprint (seconds : Q) (w : World) :
  footprint w (snd (wait seconds w)) [] 0 /\
  returns_or_raises (fst (wait seconds w)).
Proof.
  unfold wait, bind, log_info, log. cbv beta iota.
  destruct (time_sleep_footprint seconds (emit (ELog INFO "Waiting") w)) as [Hf Ho].
  destruct (time_sleep seconds (emit (ELog INFO "Waiting") w)) as [[[]|e| | |] w1];
    simpl in *; try done;
    (split; [|done]); (eapply footprint_idle_then; [apply footprint_emit_log|exact Hf]).
Qed.

Lemma time_sleep_raises (seconds : Q) (w : World) (e : Exn) :
  fst (time_sleep seconds w) = Raised e ->
  e = KeyboardInterrupt \/ (e = ValueError /\ Qle_bool 0 seconds = false).
Proof.
  unfold time_sleep. destruct (Qle_bool 0 seconds); simpl.
  - destruct (sleep_interrupted env (tick w)); simpl; intros [= <-]. by left.
  - intros [= <-]. by right.
Qed.

Lemma wait_raises (seconds : Q) (w : World) (e : Exn) :
  fst (wait seconds w) = Raised e ->
  e = KeyboardInterrupt \/ (e = ValueError /\ Qle_bool 0 seconds = false).
Proof. unfold wait, bind, log_info, log. cbv beta iota. apply time_sleep_raises. Qed.

Lemma remove_if_exists_footprint (p : string) (w : World) :
  footprint w (snd (remove_if_exists p w)) [] 0 /\
  fst (remove_if_exists p w) = Normal tt.
Proof.
  unfold remove_if_exists, bind, path_exists, os_remove, pass, ret. simpl.
  destruct (bool_decide (is_Some (fs w !! p))); simpl; (split; [|done]);
    eexists; (split; [simpl; rewrite <- ?app_assoc; reflexivity|done]).
Qed.

Lemma find_template_footprint (template_name shot : string) (threshold : Q) (w : World) :
  footprint w (snd (find_template template_name shot threshold w)) [] 0 /\
  exists coords, fst (find_template template_name shot threshold w) = Normal coords.
Proof.
  destruct (find_template_run template_name shot threshold w) as (d & -> & _ & Hd).
  simpl. split; [by apply footprint_emits | eauto].
Qed.

Lemma find_template_multi_footprint (template_name shot : string) (threshold : Q)
    (extra_dirs : option (list string)) (w : World) :
  footprint w (snd (find_template_multi template_name shot threshold extra_dirs w)) [] 0 /\
  exists coords,
    fst (find_template_multi template_name shot threshold extra_dirs w) = Normal coords.
Proof.
  destruct (find_template_multi_run template_name shot threshold extra_dirs w)
    as (d & -> & _ & Hd).
  simpl. split; [by apply footprint_emits | eauto].
Qed.

(** ** find_and_tap: what the result says about the taps *)

Lemma try_finally_remove_outcome {A} (body : M A) (p : string) (w w1 : World)
    (o : Outcome A) :
  body w = (o, w1) -> o <> OutOfFuel ->
  exists w2,
    try_finally body (remove_if_exists p) w = (o, w2) /\ footprint w1 w2 [] 0.
Proof.
  intros Hb Ho. unfold try_finally. rewrite Hb.
  destruct (remove_if_exists_footprint p w1) as [Hf Hn].
  destruct (remove_if_exists p w1) as [o' w2]. simpl in *. subst o'.
  exists w2. split; [by destruct o|done].
Qed.

(** The [try] block of one attempt of [find_and_tap]. *)
Lemma find_and_tap_attempt (template_name shot : string) (max_attempts : Z)
    (wait_after : Q) (attempt : Z) (w : World) :
  exists (o : Outcome (option bool)) (w' : World) (ts : list (Z * Z)),
    (coords <- find_template template_name shot default_threshold ;;
     match coords with
     | Some (x, y) =>
         tap_coordinate x y ;;
         (if negb (Qle_bool wait_after 0) then wait wait_after else pass) ;;
         ret (Some true)
     | None =>
         log_warning ("Attempt " +:+ pretty (attempt + 1) +:+ "/" +:+
                      pretty max_attempts +:+ ": " +:+ template_name +:+
                      " not found") ;;
         (if attempt <? max_attempts - 1 then wait 1 else pass) ;;
         ret None
     end) w = (o, w') /\
    footprint w w' ts 0 /\
    match o with
    | Normal (Some true) => length ts = 1%nat
    | Normal None => ts = []
    | Raised e => (length ts <= 1)%nat /\ (ts <> [] -> e = KeyboardInterrupt)
    | _ => False
    end.
Proof.
  unfold bind at 1.
  destruct (find_template_footprint template_name shot default_threshold w)
    as [Hf0 [coords Hc]].
  destruct (find_template template_name shot default_threshold w) as [o0 w0].
  simpl in Hf0, Hc. subst o0. destruct coords as [[x y]|].
  - unfold bind at 1.
    destruct (tap_coordinate_footprint x y w0) as [Hf1 Ho1].
    destruct (tap_coordinate x y w0) as [o1 w1]. simpl in Hf1, Ho1.
    pose proof (footprint_idle_then _ _ _ _ _ Hf0 Hf1) as Hf01.
    destruct Ho1 as [Ho1|Ho1]; subst o1; cycle 1.
    { eexists _, _, _. split; [reflexivity|]. split; [done|]. split; [simpl; lia|done]. }
    unfold bind at 1. destruct (negb (Qle_bool wait_after 0)) eqn:Epos.
    + destruct (wait_footprint wait_after w1) as [Hf2 Ho2].
      pose proof (wait_raises wait_after w1) as Hr.
      destruct (wait wait_after w1) as [[[]|e| | |] w2]; simpl in Hf2, Ho2, Hr; try done;
        eexists _, _, _; (split; [reflexivity|]);
        (split; [eapply footprint_then_idle; [exact Hf01|exact Hf2]|]); [done|].
      split; [simpl; lia|]. intros _. destruct (Hr e eq_refl) as [->|[_ Hneg]]; [done|].
      apply negb_true_iff, positive_nonneg in Epos. congruence.
    + eexists _, _, _. split; [reflexivity|]. by split.
  - unfold bind at 1, log_warning at 1, log at 1. cbv beta iota.
    set (w1 := emit _ w0).
    assert (Hf1 : footprint w w1 [] 0).
    { eapply footprint_then_idle; [exact Hf0|apply footprint_emit_log]. }
    unfold bind at 1. destruct (attempt <? max_attempts - 1).
    + destruct (wait_footprint 1 w1) as [Hf2 Ho2].
      destruct (wait 1 w1) as [[[]|e| | |] w2]; simpl in Hf2, Ho2; try done;
        eexists _, _, _; (split; [reflexivity|]);
        (split; [eapply footprint_then_idle; [exact Hf1|exact Hf2]|]); [done|].
      split; [simpl; lia|done].
    + eexists _, _, _. split; [reflexivity|]. by split.
Qed.

Lemma find_and_tap_loop_taps (template_name : string) (max_attempts : Z)
    (wait_after : Q) (remaining : nat) (attempt : Z) (w : World) :
  exists (o : Outcome bool) (w' : World) (ts : list (Z * Z)) (c : nat),
    find_and_tap_loop template_name max_attempts wait_after attempt remaining w = (o, w') /\
    footprint w w' ts c /\
    match o with
    | Normal true => length ts = 1%nat /\ (1 <= c <= remaining)%nat
    | Normal false => ts = [] /\ c = remaining
    | Raised e =>
        (length ts <= 1)%nat /\ (c <= remaining)%nat /\ (ts <> [] -> e = KeyboardInterrupt)
    | _ => False
    end.
Proof.
  revert attempt w. induction remaining as [|remaining IH]; intros attempt w.
  - cbn [find_and_tap_loop]. unfold bind, log_error, log, ret.
    eexists _, _, [], 0%nat. split; [reflexivity|].
    split; [apply footprint_emit_log|done].
  - cbn [find_and_tap_loop]. unfold bind at 1.
    destruct (take_screenshot_footprint w) as [Hf0 Ho0].
    destruct (take_screenshot w) as [[shot|e| | |] w1]; simpl in Hf0, Ho0; try done;
      cycle 1.
    { eexists _, _, [], 1%nat. split; [reflexivity|]. split; [done|].
      split; [simpl; lia|]. split; [lia|done]. }
    destruct (find_and_tap_attempt template_name shot max_attempts wait_after attempt w1)
      as (ob & wb & ts & Hbody & Hfb & Hob).
    destruct (try_finally_remove_outcome _ shot w1 wb ob Hbody) as (w2 & Hfin & Hf2).
    { by destruct ob as [[[]|]| | | |]. }
    unfold bind at 1. rewrite Hfin.
    pose proof (footprint_then_idle _ _ _ _ _ (footprint_trans _ _ _ _ _ _ _ Hf0 Hfb) Hf2)
      as Hf. simpl in Hf.
    destruct ob as [[[]|]|e| | |]; try done.
    + eexists _, _, ts, 1%nat. split; [reflexivity|]. split; [done|]. lia.
    + destruct (IH (attempt + 1) w2) as (o & w' & ts' & c & Hloop & Hf' & Ho).
      exists o, w', ts', (S c). split; [exact Hloop|].
      split.
      { subst ts. pose proof (footprint_trans _ _ _ _ _ _ _ Hf Hf') as H. exact H. }
      destruct o as [[]|e| | |]; try done.
      * destruct Ho. split; [done|lia].
      * destruct Ho. split; [done|lia].
      * destruct Ho as (? & ? & ?). split; [done|]. split; [lia|done].
    + eexists _, _, ts, 1%nat. split; [reflexivity|]. split; [done|].
      destruct Hob. split; [done|]. split; [lia|done].
Qed.


(** The [try] block of one attempt of [find_and_tap_multi]. *)
Lemma find_and_tap_multi_attempt (template_name shot : string) (max_attempts : Z)
    (wait_after : Q) (extra_dirs : option (list string)) (threshold : Q)
    (attempt : Z) (w : World) :
  exists (o : Outcome (option bool)) (w' : World) (ts : list (Z * Z)),
    (coords <- find_template_multi template_name shot threshold extra_dirs ;;
     match coords with
     | Some (x, y) =>
         tap_coordinate x y ;;
         (if negb (Qle_bool wait_after 0) then time_sleep wait_after else pass) ;;
         ret (Some true)
     | None =>
         log_warning ("Attempt " +:+ pretty (attempt + 1) +:+ "/" +:+
                      pretty max_attempts +:+ ": " +:+ template_name +:+
                      " not found (multi)") ;;
         (if attempt <? max_attempts - 1 then time_sleep 1 else pass) ;;
         ret None
     end) w = (o, w') /\
    footprint w w' ts 0 /\
    match o with
    | Normal (Some true) => length ts = 1%nat
    | Normal None => ts = []
    | Raised e => (length ts <= 1)%nat /\ (ts <> [] -> e = KeyboardInterrupt)
    | _ => False
    end.
Proof.
  unfold bind at 1.
  destruct (find_template_multi_footprint template_name shot threshold extra_dirs w)
    as [Hf0 [coords Hc]].
  destruct (find_template_multi template_name shot threshold extra_dirs w) as [o0 w0].
  simpl in Hf0, Hc. subst o0. destruct coords as [[x y]|].
  - unfold bind at 1.
    destruct (tap_coordinate_footprint x y w0) as [Hf1 Ho1].
    destruct (tap_coordinate x y w0) as [o1 w1]. simpl in Hf1, Ho1.
    pose proof (footprint_idle_then _ _ _ _ _ Hf0 Hf1) as Hf01.
    destruct Ho1 as [Ho1|Ho1]; subst o1; cycle 1.
    { eexists _, _, _. split; [reflexivity|]. split; [done|]. split; [simpl; lia|done]. }
    unfold bind at 1. destruct (negb (Qle_bool wait_after 0)) eqn:Epos.
    + destruct (time_sleep_footprint wait_after w1) as [Hf2 Ho2].
      pose proof (time_sleep_raises wait_after w1) as Hr.
      destruct (time_sleep wait_after w1) as [[[]|e| | |] w2]; simpl in Hf2, Ho2, Hr; try done;
        eexists _, _, _; (split; [reflexivity|]);
        (split; [eapply footprint_then_idle; [exact Hf01|exact Hf2]|]); [done|].
      split; [simpl; lia|]. intros _. destruct (Hr e eq_refl) as [->|[_ Hneg]]; [done|].
      apply negb_true_iff, positive_nonneg in Epos. congruence.
    + eexists _, _, _. split; [reflexivity|]. by split.
  - unfold bind at 1, log_warning at 1, log at 1. cbv beta iota.
    set (w1 := emit _ w0).
    assert (Hf1 : footprint w w1 [] 0).
    { eapply footprint_then_idle; [exact Hf0|apply footprint_emit_log]. }
    unfold bind at 1. destruct (attempt <? max_attempts - 1).
    + destruct (time_sleep_footprint 1 w1) as [Hf2 Ho2].
      destruct (time_sleep 1 w1) as [[[]|e| | |] w2]; simpl in Hf2, Ho2; try done;
        eexists _, _, _; (split; [reflexivity|]);
        (split; [eapply footprint_then_idle; [exact Hf1|exact Hf2]|]); [done|].
      split; [simpl; lia|done].
    + eexists _, _, _. split; [reflexivity|]. by split.
Qed.

Lemma find_and_tap_multi_loop_taps (template_name : string) (max_attempts : Z)
    (wait_after : Q) (extra_dirs : option (list string)) (threshold : Q)
    (remaining : nat) (attempt : Z) (w : World) :
  exists (o : Outcome bool) (w' : World) (ts : list (Z * Z)) (c : nat),
    find_and_tap_multi_loop template_name max_attempts wait_after extra_dirs threshold
      attempt remaining w = (o, w') /\
    footprint w w' ts c /\
    match o with
    | Normal true => length ts = 1%nat /\ (1 <= c <= remaining)%nat
    | Normal false => ts = [] /\ c = remaining
    | Raised e =>
        (length ts <= 1)%nat /\ (c <= remaining)%nat /\ (ts <> [] -> e = KeyboardInterrupt)
    | _ => False
    end.
Proof.
  revert attempt w. induction remaining as [|remaining IH]; intros attempt w.
  - cbn [find_and_tap_multi_loop]. unfold bind, log_error, log, ret.
    eexists _, _, [], 0%nat. split; [reflexivity|].
    split; [apply footprint_emit_log|done].
  - cbn [find_and_tap_multi_loop]. unfold bind at 1.
    destruct (take_screenshot_footprint w) as [Hf0 Ho0].
    destruct (take_screenshot w) as [[shot|e| | |] w1]; simpl in Hf0, Ho0; try done;
      cycle 1.
    { eexists _, _, [], 1%nat. split; [reflexivity|]. split; [done|].
      split; [simpl; lia|]. split; [lia|done]. }
    destruct (find_and_tap_multi_attempt template_name shot max_attempts wait_after
                extra_dirs threshold attempt w1) as (ob & wb & ts & Hbody & Hfb & Hob).
    destruct (try_finally_remove_outcome _ shot w1 wb ob Hbody) as (w2 & Hfin & Hf2).
    { by destruct ob as [[[]|]| | | |]. }
    unfold bind at 1. rewrite Hfin.
    pose proof (footprint_then_idle _ _ _ _ _ (footprint_trans _ _ _ _ _ _ _ Hf0 Hfb) Hf2)
      as Hf. simpl in Hf.
    destruct ob as [[[]|]|e| | |]; try done.
    + eexists _, _, ts, 1%nat. split; [reflexivity|]. split; [done|]. lia.
    + destruct (IH (attempt + 1) w2) as (o & w' & ts' & c & Hloop & Hf' & Ho).
      exists o, w', ts', (S c). split; [exact Hloop|].
      split.
      { subst ts. pose proof (footprint_trans _ _ _ _ _ _ _ Hf Hf') as H. exact H. }
      destruct o as [[]|e| | |]; try done.
      * destruct Ho. split; [done|lia].
      * destruct Ho. split; [done|lia].
      * destruct Ho as (? & ? & ?). split; [done|]. split; [lia|done].
    + eexists _, _, ts, 1%nat. split; [reflexivity|]. split; [done|].
      destruct Hob. split; [done|]. split; [lia|done].
Qed.


(** ** Matching *)

(** X3.  Matching only looks: [find_template], [find_template_multi] and
    [find_use_buttons_with_brightness_filter] always return a value -
    whatever the files hold - and leave the files and the device alone;
    the events they add are existence tests, image reads and log lines. *)
Theorem matching_only_looks (template_name shot : string) (threshold : Q)
    (extra_dirs : option (list string)) (brightness_threshold : Z) (w : World) :
  (exists coords delta,
      find_template template_name shot threshold w = (Normal coords, emits delta w) /\
      forallb passive delta = true) /\
  (exists coords delta,
      find_template_multi template_name shot threshold extra_dirs w =
        (Normal coords, emits delta w) /\
      forallb passive delta = true) /\
  (exists buttons delta,
      find_use_buttons_with_brightness_filter shot brightness_threshold w =
        (Normal buttons, emits delta w) /\
      forallb passive delta = true).
Proof.
  split; [|split].
  - destruct (find_template_run template_name shot threshold w) as (d & H & _ & Hd). eauto.
  - destruct (find_template_multi_run template_name shot threshold extra_dirs w)
      as (d & H & _ & Hd). eauto.
  - destruct (find_use_buttons_run shot brightness_threshold w) as (d & H & Hd). eauto.
Qed.

(** X4.  What cannot be matched is not an error.  A template file that is
    missing makes [find_template] return None after the existence test
    alone, without reading any image; a template or a frame that does not
    decode, and an OpenCV error, give None as well.  In the same cases the
    brightness-filtered search returns the empty list. *)
Theorem unreadable_inputs_match_nothing (template_name shot : string) (threshold : Q)
    (brightness_threshold : Z) (w : World) :
  let template_file := path_join (template_path config) template_name in
  let use_file := path_join (template_path config) "use.png" in
  (fs w !! template_file = None ->
   find_template template_name shot threshold w =
     (Normal None,
      emits [EExists template_file;
             ELog ERROR ("Template file not found: " +:+ template_file)] w)) /\
  (forall t,
      fs w !! template_file = Some t ->
      t = None \/ mjoin (fs w !! shot) = None \/
      (exists s t', mjoin (fs w !! shot) = Some s /\ t = Some t' /\
                    matchTemplate s t' = None) ->
      fst (find_template template_name shot threshold w) = Normal None) /\
  (fs w !! use_file = None \/ fs w !! use_file = Some None \/
   mjoin (fs w !! shot) = None \/
   (exists s t', mjoin (fs w !! shot) = Some s /\ fs w !! use_file = Some (Some t') /\
                 matchTemplate s t' = None) ->
   fst (find_use_buttons_with_brightness_filter shot brightness_threshold w) = Normal []).
Proof.
  intros template_file use_file. split; [|split].
  - intros Hmiss. unfold find_template, bind, path_exists, log_error, log, ret. simpl.
    fold template_file. rewrite Hmiss. simpl. f_equal. world_eq.
  - intros t Ht Hcase.
    destruct (find_template_run template_name shot threshold w) as (d & -> & _).
    simpl. f_equal. unfold match_best. fold template_file. rewrite Ht.
    destruct Hcase as [-> | [-> | (s & t' & -> & -> & ->)]]; try done.
    by destruct (mjoin (fs w !! shot)).
  - intros Hcase.
    destruct (find_use_buttons_run shot brightness_threshold w) as (d & -> & _).
    simpl. f_equal. unfold use_buttons_of. fold use_file.
    destruct Hcase as [-> | [-> | [Hs | (s & t' & -> & -> & ->)]]]; try done.
    + by destruct (mjoin (fs w !! shot)).
    + rewrite Hs. by destruct (fs w !! use_file).
Qed.

Lemma first_match_none (files : gmap string (option Gray))
    (template_name shot : string) (threshold : Q) (roots : list string) :
  fst (first_match files template_name shot threshold roots) = None <->
  forall r, r ∈ roots -> match_best files (path_join r template_name) shot threshold = None.
Proof.
  induction roots as [|root roots IH]; simpl.
  - split; [|done]. intros _ r Hr. by apply not_elem_of_nil in Hr.
  - destruct (match_best files (path_join root template_name) shot threshold) eqn:E; simpl.
    + split; [done|]. intros H. specialize (H root). rewrite E in H.
      discriminate H. left.
    + rewrite IH. split.
      * intros H r [->|Hr]%elem_of_cons; auto.
      * intros H r Hr. apply H. by right.
Qed.

Lemma first_match_all (files : gmap string (option Gray))
    (template_name shot : string) (threshold : Q) (roots : list string) :
  fst (first_match files template_name shot threshold roots) = None ->
  snd (first_match files template_name shot threshold roots) =
    (fun r => path_join r template_name) <$> roots.
Proof.
  induction roots as [|root roots IH]; simpl; [done|].
  destruct (match_best files (path_join root template_name) shot threshold); simpl;
    [done|]. intros H. by rewrite IH.
Qed.

(** X5.  [find_template_multi] returns None exactly when no root yields a match
    - the primary root and every extra directory ([assets/image] when none
    is given) - and it has then looked for the template in every root, in
    order.  A directory without the template, with an unreadable one, or
    on which OpenCV fails is passed over and the search goes on. *)
Theorem find_template_multi_none_iff (template_name shot : string) (threshold : Q)
    (extra_dirs : option (list string)) (w : World) :
  let roots := template_path config :: default [path_join "assets" "image"] extra_dirs in
  (fst (find_template_multi template_name shot threshold extra_dirs w) = Normal None <->
   forall r, r ∈ roots ->
             match_best (fs w) (path_join r template_name) shot threshold = None) /\
  (fst (find_template_multi template_name shot threshold extra_dirs w) = Normal None ->
   exists delta,
     snd (find_template_multi template_name shot threshold extra_dirs w) = emits delta w /\
     consulted delta = (fun r => path_join r template_name) <$> roots).
Proof.
  intros roots.
  destruct (find_template_multi_run template_name shot threshold extra_dirs w)
    as (d & Hrun & Hcons & _).
  cbv zeta in Hrun, Hcons.
  change (template_path config :: default default_extra_dirs extra_dirs)
    with roots in Hrun, Hcons.
  rewrite Hrun. cbn [fst snd]. split.
  - split.
    + intros [= Hnone]. by apply first_match_none.
    + intros Hall. f_equal. by apply first_match_none.
  - intros [= Hnone]. exists d. split; [done|]. rewrite Hcons. by apply first_match_all.
Qed.


(** ** take_screenshot *)

Lemma length_append (s1 s2 : string) :
  String.length (s1 +:+ s2) = (String.length s1 + String.length s2)%nat.
Proof. induction s1 as [|c s1 IH]; simpl; [done|]. by rewrite IH. Qed.

Lemma append_inv_tail (s1 s2 t : string) : s1 +:+ t = s2 +:+ t -> s1 = s2.
Proof.
  revert s2. induction s1 as [|c s1 IH]; intros [|d s2]; simpl; intros H.
  - done.
  - exfalso. apply (f_equal String.length) in H.
    rewrite ?length_append in H. simpl in H. rewrite ?length_append in H. lia.
  - exfalso. apply (f_equal String.length) in H.
    rewrite ?length_append in H. simpl in H. rewrite ?length_append in H. lia.
  - injection H as -> H. f_equal. by apply IH.
Qed.

Lemma screenshot_name_inj (t1 t2 : Z) :
  screenshot_name t1 = screenshot_name t2 -> t1 = t2.
Proof.
  unfold screenshot_name. intros H.
  apply String.app_inj, String.app_inj, append_inv_tail in H.
  by apply pretty_Z_inj in H.
Qed.

(** X6.  [take_screenshot] and the file it names.  When it returns, the path is
    [<screenshot_path>/screenshot_<second>.png], the file holds the bytes
    the device sent - reading it back gives that frame - and no other file
    changed.  When it raises, the exception tells which way the screenshot
    command failed and no file changed.  The name depends on the integer
    second alone: captures of different seconds get different files, two
    captures within one second share one. *)
Theorem take_screenshot_file (w : World) :
  (forall shot w',
      take_screenshot w = (Normal shot, w') ->
      shot = screenshot_name (clock env (tick w)) /\
      exists bytes,
        screencap env (tick w) = CapOk bytes /\
        fs w' !! shot = Some bytes /\
        fst (imread shot w') = Normal bytes /\
        forall p, p <> shot -> fs w' !! p = fs w !! p) /\
  (forall e w',
      take_screenshot w = (Raised e, w') ->
      fs w' = fs w /\
      ((e = RuntimeError /\ screencap env (tick w) = CapFail) \/
       (e = TimeoutExpired /\ screencap env (tick w) = CapTimeout) \/
       (e = KeyboardInterrupt /\ screencap env (tick w) = CapInterrupt))) /\
  (forall t1 t2, screenshot_name t1 = screenshot_name t2 <-> t1 = t2).
Proof.
  split; [|split].
  - intros shot w'. unfold take_screenshot, bind, time_time, adb_screencap, write_file,
      log_info, log_error, log, raise, ret. simpl.
    destruct (screencap env (tick w)) as [bytes| | |]; simpl; try done.
    intros [= <- <-]. split; [done|]. exists bytes. simpl.
    rewrite lookup_insert_eq. repeat split; try done.
    intros p Hp. by apply lookup_insert_ne.
  - intros e w'. unfold take_screenshot, bind, time_time, adb_screencap, write_file,
      log_info, log_error, log, raise, ret. simpl.
    destruct (screencap env (tick w)) as [bytes| | |]; simpl; try done;
      intros [= <- <-]; (split; [done|]); eauto.
  - intros t1 t2. split; [apply screenshot_name_inj | by intros ->].
Qed.

(** ** tp_charge *)

(** Inside [tp_charge] only the interrupt is not caught. *)
Lemma yields_tp_charge_interrupt :
  yields tp_charge (fun s => s = SRaised KeyboardInterrupt /\ interrupted).
Proof.
  unfold tp_charge. yields_step; [repeat yields_step|].
  apply (yields_try_except _ _ capture_fault);
    [repeat yields_step | intros ? ?; repeat yields_step |].
  intros [[]| | |] H; simpl in H; try done; try (left; eexists; by split).
  by right.
Qed.

(** X7.  [tp_charge] turns what [find_and_tap] lets through into its result.  It
    returns True or False, or is ended by the user's interrupt: no failure
    of a capture leaves it.  When the screenshot command fails or times out
    at its first capture, [find_and_tap] on restore.png raises, and
    [tp_charge] logs the error and returns False after that one capture,
    without a tap and with the files as they were. *)
Theorem tp_charge_absorbs_capture_faults (w : World) :
  ((exists b, fst (tp_charge w) = Normal b) \/
   (fst (tp_charge w) = Raised KeyboardInterrupt /\ interrupted)) /\
  (screencap env (tick w) = CapFail \/ screencap env (tick w) = CapTimeout ->
   (exists e, fst (find_and_tap "restore.png" 10 0 w) = Raised e /\
              is_Exception e = true) /\
   exists delta,
     tp_charge w = (Normal false, mkWorld (fs w) (trace w ++ delta) (S (tick w))) /\
     taps delta = [] /\ captures delta = 1%nat /\
     logged ERROR "Error in TP Charge process" delta = true).
Proof.
  split.
  - destruct (yields_outcome _ _ w yields_tp_charge_interrupt) as [|(s & Hs & -> & Hi)];
      [by left|right].
    destruct (fst (tp_charge w)); simpl in Hs; simplify_eq. done.
  - intros Hcap. split.
    + unfold find_and_tap. change (Z.to_nat 10) with 10%nat.
      cbn [find_and_tap_loop]. unfold bind at 1.
      unfold take_screenshot, bind, time_time, adb_screencap, log_error, log, raise.
      simpl. destruct Hcap as [-> | ->]; simpl; eauto.
    + unfold tp_charge, try_except, find_and_tap. change (Z.to_nat 10) with 10%nat.
      cbn [find_and_tap_loop].
      unfold take_screenshot, bind, time_time, adb_screencap, log_info, log_error, log,
        raise, ret. simpl.
      destruct Hcap as [-> | ->]; simpl; eexists; (split; [f_equal; world_eq|]); done.
Qed.

(** ** Running a script step by step *)

Lemma ends_run {A} (m : M A) (w : World) (Q : Outcome A -> World -> Prop) :
  ends m w Q -> exists o w', m w = (o, w') /\ Q o w'.
Proof. unfold ends. destruct (m w) as [o w']. eauto. Qed.

Lemma ends_weaken {A} (m : M A) (w : World) (Q Q' : Outcome A -> World -> Prop) :
  ends m w Q -> (forall o w', Q o w' -> Q' o w') -> ends m w Q'.
Proof. unfold ends. auto. Qed.

Lemma ends_bind {A B} (m : M A) (k : A -> M B) (w : World)
    (Q : Outcome B -> World -> Prop) :
  ends m w (fun o w1 =>
              match o with
              | Normal a => ends (k a) w1 Q
              | o' => Q (abrupt o') w1
              end) ->
  ends (bind m k) w Q.
Proof. unfold ends, bind. by destruct (m w) as [[a|e| | |] w1]. Qed.

Lemma ends_ret {A} (a : A) (w : World) (Q : Outcome A -> World -> Prop) :
  Q (Normal a) w -> ends (ret a) w Q.
Proof. done. Qed.

Lemma ends_raise {A} (e : Exn) (w : World) (Q : Outcome A -> World -> Prop) :
  Q (Raised e) w -> ends (raise e) w Q.
Proof. done. Qed.

Lemma ends_break {A} (w : World) (Q : Outcome A -> World -> Prop) :
  Q Brk w -> ends break_ w Q.
Proof. done. Qed.

Lemma ends_continue {A} (w : World) (Q : Outcome A -> World -> Prop) :
  Q Cont w -> ends continue_ w Q.
Proof. done. Qed.

Lemma ends_log (lvl : Level) (msg : string) (w : World)
    (Q : Outcome unit -> World -> Prop) :
  Q (Normal tt) (emit (ELog lvl msg) w) -> ends (log lvl msg) w Q.
Proof. done. Qed.

Lemma ends_config_get {A} (v : option A) (w : World) (Q : Outcome A -> World -> Prop) :
  match v with Some a => Q (Normal a) w | None => Q (Raised KeyError) w end ->
  ends (config_get v) w Q.
Proof. by destruct v. Qed.

Lemma ends_try_except {A} (body : M A) (handler : Exn -> M A) (w : World)
    (Q : Outcome A -> World -> Prop) :
  ends body w (fun o w1 =>
                 match o with
                 | Raised e => if is_Exception e then ends (handler e) w1 Q
                               else Q (Raised e) w1
                 | o' => Q o' w1
                 end) ->
  ends (try_except body handler) w Q.
Proof.
  unfold ends, try_except. destruct (body w) as [[a|e| | |] w1]; simpl; try done.
  by destruct (is_Exception e).
Qed.

Lemma ends_try_finally_remove {A} (body : M A) (p : string) (w : World)
    (Q : Outcome A -> World -> Prop) :
  ends body w (fun o w1 => forall w2, footprint w1 w2 [] 0 -> Q o w2) ->
  ends (try_finally body (remove_if_exists p)) w Q.
Proof.
  unfold ends, try_finally. destruct (body w) as [o w1]. simpl. intros H.
  destruct (remove_if_exists_footprint p w1) as [Hf Hn].
  destruct (remove_if_exists p w1) as [o' w2]. simpl in *. subst o'.
  destruct o; simpl; try by apply H. apply H, footprint_refl.
Qed.

Lemma ends_while_true (fuel : nat) (body : M unit) (w : World) (I : World -> Prop)
    (Q : Outcome unit -> World -> Prop) :
  I w ->
  (forall w1, I w1 ->
              ends body w1 (fun o w2 =>
                              match o with
                              | Normal _ | Cont => I w2
                              | Brk => Q (Normal tt) w2
                              | Raised e => Q (Raised e) w2
                              | OutOfFuel => Q OutOfFuel w2
                              end)) ->
  (forall w1, I w1 -> Q OutOfFuel w1) ->
  ends (while_true fuel body) w Q.
Proof.
  intros HI Hbody Hfuel. revert w HI.
  induction fuel as [|fuel IH]; intros w HI; unfold ends; simpl.
  - by apply Hfuel.
  - specialize (Hbody w HI). unfold ends in Hbody.
    destruct (body w) as [[[]|e| | |] w1]; simpl in *; try done; by apply IH.
Qed.

Lemma ends_tap_coordinate (x y : Z) (w : World) (Q : Outcome unit -> World -> Prop) :
  (forall w1, footprint w w1 [(x, y)] 0 ->
              Q (Normal tt) w1 /\ Q (Raised KeyboardInterrupt) w1) ->
  ends (tap_coordinate x y) w Q.
Proof.
  intros H. unfold ends. destruct (tap_coordinate_footprint x y w) as [Hf [-> | ->]];
    by apply H.
Qed.

Lemma ends_time_sleep (seconds : Q) (w : World) (Q : Outcome unit -> World -> Prop) :
  (forall o w1, footprint w w1 [] 0 -> sleep_account seconds o -> Q o w1) ->
  ends (time_sleep seconds) w Q.
Proof.
  intros H. unfold ends. apply H; [apply time_sleep_footprint|].
  destruct (time_sleep_footprint seconds w) as [_ Ho].
  pose proof (time_sleep_raises seconds w) as Hr.
  destruct (fst (time_sleep seconds w)); simpl in *; auto.
Qed.

Lemma ends_wait (seconds : Q) (w : World) (Q : Outcome unit -> World -> Prop) :
  (forall o w1, footprint w w1 [] 0 -> sleep_account seconds o -> Q o w1) ->
  ends (wait seconds) w Q.
Proof.
  intros H. unfold ends. apply H; [apply wait_footprint|].
  destruct (wait_footprint seconds w) as [_ Ho].
  pose proof (wait_raises seconds w) as Hr.
  destruct (fst (wait seconds w)); simpl in *; auto.
Qed.

Lemma ends_take_screenshot (w : World) (Q : Outcome string -> World -> Prop) :
  (forall o w1, footprint w w1 [] 1 ->
                match o with
                | Normal _ => True
                | Raised e => e = RuntimeError \/ e = TimeoutExpired \/ e = KeyboardInterrupt
                | _ => False
                end -> Q o w1) ->
  ends take_screenshot w Q.
Proof.
  intros H. unfold ends. apply H; [apply take_screenshot_footprint|].
  unfold take_screenshot, bind, time_time, adb_screencap, write_file, log_info,
    log_error, log, raise, ret. simpl.
  destruct (screencap env (tick w)); simpl; auto.
Qed.

Lemma ends_find_template (template_name shot : string) (threshold : Q) (w : World)
    (Q : Outcome (option (Z * Z)) -> World -> Prop) :
  (forall coords w1, footprint w w1 [] 0 -> Q (Normal coords) w1) ->
  ends (find_template template_name shot threshold) w Q.
Proof.
  intros H. unfold ends.
  destruct (find_template_footprint template_name shot threshold w) as [Hf [coords Hc]].
  rewrite Hc. by apply H.
Qed.

Lemma ends_find_use_buttons (shot : string) (b : Z) (w : World)
    (Q : Outcome (list (Z * Z)) -> World -> Prop) :
  (forall buttons w1, footprint w w1 [] 0 -> Q (Normal buttons) w1) ->
  ends (find_use_buttons_with_brightness_filter shot b) w Q.
Proof.
  intros H. unfold ends.
  destruct (find_use_buttons_run shot b w) as (d & -> & Hd). simpl.
  by apply H, footprint_emits.
Qed.

Lemma ends_find_and_tap (template_name : string) (max_attempts : Z) (wait_after : Q)
    (w : World) (Q : Outcome bool -> World -> Prop) :
  (forall o w1 ts c,
      footprint w w1 ts c -> tap_account (Z.to_nat max_attempts) o ts c -> Q o w1) ->
  ends (find_and_tap template_name max_attempts wait_after) w Q.
Proof.
  intros H. unfold ends.
  destruct (find_and_tap_loop_taps template_name max_attempts wait_after
              (Z.to_nat max_attempts) 0 w) as (o & w' & ts & c & Hrun & Hf & Ho).
  unfold find_and_tap. rewrite Hrun. simpl. eapply H; [exact Hf|exact Ho].
Qed.

Lemma ends_find_and_tap_multi (template_name : string) (max_attempts : Z)
    (wait_after : Q) (extra_dirs : option (list string)) (threshold : Q)
    (w : World) (Q : Outcome bool -> World -> Prop) :
  (forall o w1 ts c,
      footprint w w1 ts c -> tap_account (Z.to_nat max_attempts) o ts c -> Q o w1) ->
  ends (find_and_tap_multi template_name max_attempts wait_after extra_dirs threshold) w Q.
Proof.
  intros H. unfold ends.
  destruct (find_and_tap_multi_loop_taps template_name max_attempts wait_after
              extra_dirs threshold (Z.to_nat max_attempts) 0 w)
    as (o & w' & ts & c & Hrun & Hf & Ho).
  unfold find_and_tap_multi. rewrite Hrun. simpl. eapply H; [exact Hf|exact Ho].
Qed.

(** The footprint from the start of a run to the current world, through
    the steps taken so far. *)
Ltac footprint_chain :=
  lazymatch goal with
  | |- footprint ?w ?w _ _ => apply footprint_refl
  | |- footprint _ (emit (ELog _ _) _) _ _ =>
      eapply footprint_trans; [|apply footprint_emit_log]; footprint_chain
  | H : footprint _ ?w' _ _ |- footprint _ ?w' _ _ =>
      eapply footprint_trans; [|exact H]; footprint_chain
  end.

(** A sleep of a constant, non-negative duration does not raise
    ValueError. *)
Ltac constant_sleep :=
  repeat match goal with
         | H : sleep_account _ (Normal _) |- _ => clear H
         | H : sleep_account _ (Raised _) |- _ =>
             destruct H as [-> | [_ H]]; [|by vm_compute in H]
         end.

Ltac ends_step :=
  lazymatch goal with
  | |- ends (bind _ _) _ _ => apply ends_bind
  | |- ends (ret _) _ _ => apply ends_ret
  | |- ends pass _ _ => apply ends_ret
  | |- ends (raise _) _ _ => apply ends_raise
  | |- ends break_ _ _ => apply ends_break
  | |- ends continue_ _ _ => apply ends_continue
  | |- ends (log_info _) _ _ => apply ends_log
  | |- ends (log_error _) _ _ => apply ends_log
  | |- ends (log_warning _) _ _ => apply ends_log
  | |- ends (log_debug _) _ _ => apply ends_log
  | |- ends (log _ _) _ _ => apply ends_log
  | |- ends (config_get ?v) _ _ => apply ends_config_get; destruct v eqn:?
  | |- ends (try_except _ _) _ _ => apply ends_try_except
  | |- ends (try_finally _ (remove_if_exists _)) _ _ => apply ends_try_finally_remove
  | |- ends (tap_coordinate _ _) _ _ => apply ends_tap_coordinate; intros ? ?; split
  | |- ends (time_sleep _) _ _ =>
      apply ends_time_sleep; intros [[]|?| | |] ? ? ?; try done; constant_sleep
  | |- ends (wait _) _ _ =>
      apply ends_wait; intros [[]|?| | |] ? ? ?; try done; constant_sleep
  | |- ends take_screenshot _ _ =>
      apply ends_take_screenshot; intros [?|?| | |] ? ? ?; try done
  | |- ends (find_template _ _ _) _ _ => apply ends_find_template; intros ? ? ?
  | |- ends (find_use_buttons_with_brightness_filter _ _) _ _ =>
      apply ends_find_use_buttons; intros ? ? ?
  | |- ends (find_and_tap _ _ _) _ _ =>
      apply ends_find_and_tap; intros [[]|?| | |] ? ? ? ? ?; try done
  | |- ends (find_and_tap_multi _ _ _ _ _) _ _ =>
      apply ends_find_and_tap_multi; intros [[]|?| | |] ? ? ? ? ?; try done
  | |- ends (if ?b then _ else _) _ _ => destruct b eqn:?
  | |- ends (match ?x with _ => _ end) _ _ => destruct x eqn:?
  | |- forall _, footprint _ _ _ _ -> _ => intros ? ?
  | |- if is_Exception ?e then _ else _ => destruct (is_Exception e) eqn:?
  end; cbv beta iota zeta; cbn [abrupt negb is_Exception].

(** ** run_filter_sequence *)

Lemma ends_run_filter_sequence (w : World) (Q : Outcome bool -> World -> Prop) :
  (forall o w1 ts c,
      footprint w w1 ts c ->
      filter_account
        (dict_get rarity_coords (upper (default "SSR" (filter_rarity config))))
        (dict_get speciality_coords (upper (default "POWER" (filter_speciality config))))
        o ts c ->
      Q o w1) ->
  ends run_filter_sequence w Q.
Proof.
  intros HQ.
  set (rarity := dict_get rarity_coords _) in HQ.
  set (speciality := dict_get speciality_coords _) in HQ.
  apply (ends_weaken _ _ (fun o w' =>
           exists ts c, footprint w w' ts c /\ filter_account rarity speciality o ts c)).
  2: { intros o w' (ts & c & Hf & Ho). eauto. }
  clear HQ. unfold run_filter_sequence. fold rarity speciality.
  repeat ends_step.
  all: unfold tap_account, filter_account in *; change (Z.to_nat 10) with 10%nat in *.
  all: eexists _, _; (split; [footprint_chain|]).
  all: simpl; rewrite ?app_nil_r, ?Nat.add_0_r.
  all: repeat match goal with H : _ /\ _ |- _ => destruct H end; subst.
  all: try match goal with
           | H : length ?l = 1%nat |- _ => destruct l as [|? [|]]; try done
           end.
  all: try (eexists _, _, _); repeat split; simpl; try done; try lia.
  all: intros [[=]|[=]].
Qed.


(** ** manual_choose_friend *)

Ltac ends_filter :=
  lazymatch goal with
  | |- ends run_filter_sequence _ _ =>
      apply ends_run_filter_sequence; intros [[]|?| | |] ? ? ? ? ?; try done;
      cbv beta iota zeta; cbn [abrupt negb]
  end.

(** X9.  The taps of [manual_choose_friend].  It returns True only right after
    tapping following.png: as the second tap, after plus.png, or as the
    seventh, after plus.png and the five taps of a filter sequence that
    found OK.  It returns False without any tap when plus.png was not found
    in ten captures, and otherwise after the plus tap, the two taps that
    open the filter panel and the zero, two or three further taps the
    filter sequence got to.  It never takes more than 30 captures. *)
Theorem manual_choose_friend_taps (w : World) :
  exists (o : Outcome bool) (w' : World) (ts : list (Z * Z)) (c : nat),
    manual_choose_friend w = (o, w') /\
    footprint w w' ts c /\
    (c <= 30)%nat /\
    match o with
    | Normal true =>
        exists plus following,
          ts = [plus; following] \/
          exists r s ok, ts = [plus; (747, 1623); (786, 203); r; s; ok; following]
    | Normal false =>
        (ts = [] /\ c = 10%nat) \/
        exists plus rest,
          ts = plus :: (747, 1623) :: (786, 203) :: rest /\
          (length rest = 0 \/ length rest = 2 \/ length rest = 3)%nat
    | Raised _ => (length ts <= 7)%nat
    | _ => False
    end.
Proof.
  destruct (ends_run manual_choose_friend w
              (fun o w' => exists ts c, footprint w w' ts c /\ (c <= 30)%nat /\
                 match o with
                 | Normal true =>
                     exists plus following,
                       ts = [plus; following] \/
                       exists r s ok,
                         ts = [plus; (747, 1623); (786, 203); r; s; ok; following]
                 | Normal false =>
                     (ts = [] /\ c = 10%nat) \/
                     exists plus rest,
                       ts = plus :: (747, 1623) :: (786, 203) :: rest /\
                       (length rest = 0 \/ length rest = 2 \/ length rest = 3)%nat
                 | Raised _ => (length ts <= 7)%nat
                 | _ => False
                 end))
    as (o & w' & Hrun & ts & c & Hf & Ho); [|by exists o, w', ts, c].
  unfold manual_choose_friend.
  repeat first [ends_step | ends_filter].
  all: unfold tap_account, filter_account in *;
    change (Z.to_nat 10) with 10%nat in *; change (Z.to_nat 5) with 5%nat in *.
  all: eexists _, _; (split; [footprint_chain|]).
  all: simpl; rewrite ?app_nil_r, ?Nat.add_0_r.
  all: repeat match goal with
              | H : _ /\ _ |- _ => destruct H
              | H : ex _ |- _ => destruct H
              | H : match ?x with _ => _ end |- _ => destruct x eqn:?
              end; subst.
  all: repeat match goal with
              | H : length ?l = 1%nat |- _ => destruct l as [|? [|]]; try done; clear H
              end.
  all: rewrite ?length_app; simpl; (split; [lia|]).
  all: first [ lia
             | eexists _, _; left; reflexivity
             | eexists _, _; right; eexists _, _, _; reflexivity
             | left; split; [reflexivity|lia]
             | right; eexists _, _; split; [reflexivity|simpl; lia] ].
Qed.

(** ** tp_charge: the taps *)

(** An exception that [except Exception] caught was not raised after a
    tap of the operation that raised it. *)
Ltac caught_before_tap :=
  repeat match goal with
         | H : _ /\ _ |- _ => destruct H
         | Hne : ?ts <> [] -> ?e = KeyboardInterrupt, He : is_Exception ?e = true |- _ =>
             destruct ts; [clear Hne|rewrite Hne in He by done; discriminate He]
         end.

Lemma ends_tp_charge (w : World) (Q : Outcome bool -> World -> Prop) :
  (forall o w1 ts c, footprint w w1 ts c -> charge_account o ts c -> Q o w1) ->
  ends tp_charge w Q.
Proof.
  intros HQ.
  apply (ends_weaken _ _ (fun o w' =>
           exists ts c, footprint w w' ts c /\ charge_account o ts c)).
  2: { intros o w' (ts & c & Hf & Ho). eauto. }
  clear HQ. unfold tp_charge.
  repeat ends_step.
  all: unfold tap_account, charge_account in *;
    change (Z.to_nat 10) with 10%nat in *; change (Z.to_nat 20) with 20%nat in *.
  all: eexists _, _; (split; [footprint_chain|]).
  all: simpl; rewrite ?app_nil_r, ?Nat.add_0_r.
  all: caught_before_tap.
  all: try match goal with
           | He : is_Exception ?e = false |- _ => destruct e; try discriminate He
           end.
  all: subst; rewrite ?length_app; simpl; repeat split; try done; lia.
Qed.

(** X10.  [tp_charge] returns True only after exactly five taps - restore, the
    first lit use button, max, OK, close - and False after at most four.
    The only exception that leaves it is the user's interrupt. *)
Theorem tp_charge_taps (w : World) :
  exists (o : Outcome bool) (w' : World) (ts : list (Z * Z)) (c : nat),
    tp_charge w = (o, w') /\
    footprint w w' ts c /\
    (c <= 51)%nat /\
    match o with
    | Normal true => length ts = 5%nat /\ (5 <= c)%nat
    | Normal false => (length ts <= 4)%nat
    | Raised e => e = KeyboardInterrupt /\ (length ts <= 5)%nat
    | _ => False
    end.
Proof.
  destruct (ends_run tp_charge w
              (fun o w' => exists ts c, footprint w w' ts c /\ charge_account o ts c))
    as (o & w' & Hrun & ts & c & Hf & Ho).
  { apply ends_tp_charge. eauto. }
  by exists o, w', ts, c.
Qed.

(** ** The peeks of a cycle *)

Ltac ends_charge :=
  lazymatch goal with
  | |- ends tp_charge _ _ =>
      apply ends_tp_charge; intros [[]|?| | |] ? ? ? ? [? ?]; try done;
      cbv beta iota zeta; cbn [abrupt negb is_Exception]
  end.


(** X12.  Step 12, the skip toggle.  Without skip_off.png on the first frame
    nothing is tapped.  Otherwise the match is tapped twice and a second
    frame is taken: skip_off.png again is tapped twice more, skip_on_1.png
    once, anything else not at all - so a step that ends normally made
    zero, two, three or four taps, never one. *)
Theorem skip_toggle_taps (w : World) :
  exists (o : Outcome unit) (w' : World) (ts : list (Z * Z)) (c : nat),
    step_12 w = (o, w') /\
    footprint w w' ts c /\
    match o with
    | Normal _ =>
        (ts = [] /\ c = 1%nat) \/
        (c = 2%nat /\
         exists p, ts = [p; p] \/ exists q, ts = [p; p; q] \/ ts = [p; p; q; q])
    | Raised _ => (length ts <= 4)%nat /\ (1 <= c <= 2)%nat
    | _ => False
    end.
Proof.
  destruct (ends_run step_12 w
              (fun o w' => exists ts c, footprint w w' ts c /\
                 match o with
                 | Normal _ =>
                     (ts = [] /\ c = 1%nat) \/
                     (c = 2%nat /\
                      exists p,
                        ts = [p; p] \/ exists q, ts = [p; p; q] \/ ts = [p; p; q; q])
                 | Raised _ => (length ts <= 4)%nat /\ (1 <= c <= 2)%nat
                 | _ => False
                 end))
    as (o & w' & Hrun & ts & c & Hf & Ho); [|by exists o, w', ts, c].
  unfold step_12.
  repeat ends_step.
  all: eexists _, _; (split; [footprint_chain|]).
  all: simpl.
  all: first [ by left
             | split; [lia|lia]
             | right; split; [reflexivity|]; eexists; left; reflexivity
             | right; split; [reflexivity|]; eexists; right; eexists; left; reflexivity
             | right; split; [reflexivity|]; eexists; right; eexists; right; reflexivity ].
Qed.

(** ** The inner loops of a cycle *)



(** ** A screen that never shows a button *)

Section DarkScreen.

(** Every capture delivers a frame, nobody interrupts a sleep, and no
    template scores the threshold on any frame the device delivers. *)
Hypothesis Hcap : forall k, exists bytes, screencap env k = CapOk bytes.
Hypothesis Hsleep : forall k, sleep_interrupted env k = false.
Hypothesis Hnever :
  forall k s t result c,
    screencap env k = CapOk (Some s) -> matchTemplate s t = Some result ->
    c ∈ cells result -> (fst c < default_threshold)%Q.

Lemma find_and_tap_dark (template_name : string) (max_attempts : Z) (wait_after : Q)
    (w : World) :
  0 <= max_attempts ->
  exists delta w',
    find_and_tap template_name max_attempts wait_after w = (Normal false, w') /\
    trace w' = trace w ++ delta /\
    actions delta = failed_search (Z.to_nat max_attempts).
Proof.
  intros Hn. unfold find_and_tap.
  destruct (find_and_tap_loop_never template_name max_attempts wait_after Hcap Hsleep
              Hnever (Z.to_nat max_attempts) 0 w) as (delta & w' & Hrun & Htr & Hact);
    [lia|].
  exists delta, w'. split; [done|]. split; [done|]. rewrite Hact.
  destruct (Z.to_nat max_attempts) as [|m]; simpl; [done|]. by rewrite Nat.sub_0_r.
Qed.

Lemma next_peek_dark (w : World) :
  exists delta w',
    step_14_5 w = (Normal tt, w') /\
    trace w' = trace w ++ delta /\
    actions delta = [EScreencap true].
Proof.
  unfold step_14_5.
  destruct (Hcap (tick w)) as [bytes Hbytes].
  erewrite bind_normal by (by apply take_screenshot_ok).
  set (shot := screenshot_name (clock env (tick w))).
  set (w1 := mkWorld _ _ _).
  destruct (find_template_run "next.png" shot default_threshold w1)
    as (d & Hrun & _ & Hd).
  rewrite (match_best_never _ _ _ _ (tick w) bytes Hnever Hbytes) in Hrun
    by (subst w1; simpl; apply lookup_insert_eq).
  eexists _, _. split.
  { eapply try_finally_normal.
    - erewrite bind_normal by exact Hrun. unfold log_info, log. reflexivity.
    - apply remove_if_exists_present. subst w1. simpl. rewrite lookup_insert_eq. eauto. }
  simpl. rewrite <- !app_assoc. split; [reflexivity|].
  simpl. rewrite !actions_app, (actions_passive d Hd). done.
Qed.

Lemma dark_cycle (fuel : nat) (w : World) :
  exists delta w',
    guarded_cycle fuel w = (Cont, w') /\
    trace w' = trace w ++ delta /\
    actions delta = failed_search 10.
Proof.
  unfold guarded_cycle, cycle, steps_1_to_4.
  unfold bind at 1, log_info at 1, log at 1. cbv beta iota.
  unfold bind at 1. unfold bind at 1, log_info at 1, log at 1. cbv beta iota.
  destruct (find_and_tap_dark "Career.png" 10 0
              (emit (ELog INFO "Step 1: Finding and tapping Career button")
                 (emit (ELog INFO "=== Starting new automation cycle ===") w)))
    as (d & w1 & Hrun & Htr & Hact); [lia|].
  erewrite bind_normal by exact Hrun. cbn [negb].
  unfold bind at 1. unfold bind at 1, log_error at 1, log at 1, continue_. cbv beta iota.
  eexists _, _. split; [reflexivity|]. simpl. rewrite Htr. simpl.
  rewrite <- !app_assoc. split; [reflexivity|].
  simpl. rewrite actions_app, Hact. simpl. by rewrite ?app_nil_r.
Qed.

Lemma dark_give_up_pass (w : World) :
  exists delta w',
    step_16_body w = (Cont, w') /\
    trace w' = trace w ++ delta /\
    actions delta = failed_search 5 ++ [EScreencap true] ++ failed_search 10.
Proof.
  unfold step_16_body.
  destruct (find_and_tap_dark "give_up_1.png" 5 0 w) as (d1 & w1 & Hrun1 & Htr1 & Hact1);
    [lia|].
  erewrite bind_normal by exact Hrun1. cbn [negb].
  unfold bind at 1, log_error at 1, log at 1. cbv beta iota.
  unfold bind at 1, log_info at 1, log at 1. cbv beta iota.
  set (w2 := emit _ (emit _ w1)).
  destruct (next_peek_dark w2) as (d2 & w3 & Hrun2 & Htr2 & Hact2).
  erewrite bind_normal by exact Hrun2.
  unfold bind at 1, log_info at 1, log at 1. cbv beta iota.
  unfold bind at 1, log_info at 1, log at 1. cbv beta iota.
  set (w4 := emit _ (emit _ w3)).
  destruct (find_and_tap_dark "menu.png" 10 0 w4) as (d3 & w5 & Hrun3 & Htr3 & Hact3);
    [lia|].
  erewrite bind_normal by exact Hrun3. cbn [negb].
  unfold bind at 1. unfold bind at 1, log_error at 1, log at 1, continue_. cbv beta iota.
  eexists _, _. split; [reflexivity|]. simpl. rewrite Htr3. subst w4. simpl.
  rewrite Htr2. subst w2. simpl. rewrite Htr1. rewrite <- !app_assoc.
  split; [reflexivity|].
  rewrite !actions_app, Hact1, Hact2, Hact3. simpl. by rewrite ?app_nil_r.
Qed.

Lemma never_leaves (body : M unit) (pass_actions : list Event) :
  (forall w, exists delta w',
      body w = (Cont, w') /\ trace w' = trace w ++ delta /\
      actions delta = pass_actions) ->
  forall fuel w, exists delta w',
    while_true fuel body w = (OutOfFuel, w') /\
    trace w' = trace w ++ delta /\
    actions delta = mjoin (replicate fuel pass_actions).
Proof.
  intros Hbody. induction fuel as [|fuel IH]; intros w.
  - exists [], w. simpl. by rewrite app_nil_r.
  - destruct (Hbody w) as (d1 & w1 & Hrun1 & Htr1 & Hact1).
    destruct (IH w1) as (d2 & w2 & Hrun2 & Htr2 & Hact2).
    exists (d1 ++ d2), w2. cbn [while_true]. rewrite Hrun1. split; [exact Hrun2|].
    split; [by rewrite Htr2, Htr1, app_assoc|].
    by rewrite actions_app, Hact1, Hact2.
Qed.


End DarkScreen.

(** ** main *)

(** X16.  The exit status of [main].  It is 1 exactly when start-up fails -
    config.json is missing or is not JSON, adb is not installed or
    [adb connect] times out - and then nothing was sent to the device.  A
    device that does not answer "connected" only gives a warning: the loop
    starts all the same.  Once the loop runs, [main] returns 0 when the
    loop ends, after the user's interrupt or the failure of the manual
    selection; an interrupt during the cool-down leaves [main] as an
    exception.  (The configuration, once loaded, is taken to have its
    [adb] section, and [os.makedirs] to succeed.) *)
Theorem main_exit_status (fuel : nat) (w : World) :
  let startup_fails :=
    config_file env <> ConfigLoaded \/
    adb_connect env = ConnTimeout \/ adb_connect env = ConnNoAdb in
  (startup_fails ->
   exists delta,
     main fuel w = (Normal 1, emits delta w) /\
     forallb passive delta = true /\
     logged ERROR "Fatal error" delta = true) /\
  (~ startup_fails ->
   match main fuel w with
   | (Normal status, w') =>
       status = 0 /\
       (last (trace w') = Some stopped_by_user \/
        (manual_choose config = true /\ last (trace w') = Some manual_choose_failed))
   | (Raised e, w') => e = KeyboardInterrupt /\ last (trace w') = Some (ESleep 10)
   | (OutOfFuel, _) => True
   | _ => False
   end) /\
  (fst (main fuel w) = Normal 1 <-> startup_fails).
Proof.
  intros startup_fails.
  assert (Hfail : startup_fails ->
    exists delta,
      main fuel w = (Normal 1, emits delta w) /\
      forallb passive delta = true /\
      logged ERROR "Fatal error" delta = true).
  { intros Hs. unfold main, try_except, init, load_config, test_adb_connection.
    unfold bind at 1. unfold bind at 1. unfold bind at 1.
    destruct (config_file env) eqn:Ec.
    - destruct (adb_connect env) as [b| |] eqn:Ea.
      + exfalso. destruct Hs as [Hs|[Hs|Hs]]; done.
      + unfold pass, ret, bind, log_error, log, raise. simpl.
        eexists. split; [f_equal; world_eq|]. done.
      + unfold pass, ret, bind, log_error, log, raise. simpl.
        eexists. split; [f_equal; world_eq|]. done.
    - unfold pass, ret, bind, log_error, log, raise. simpl.
      eexists. split; [f_equal; world_eq|]. done.
    - unfold pass, ret, bind, log_error, log, raise. simpl.
      eexists. split; [f_equal; world_eq|]. done. }
  assert (Hrun : ~ startup_fails ->
    match main fuel w with
    | (Normal status, w') =>
        status = 0 /\
        (last (trace w') = Some stopped_by_user \/
         (manual_choose config = true /\ last (trace w') = Some manual_choose_failed))
    | (Raised e, w') => e = KeyboardInterrupt /\ last (trace w') = Some (ESleep 10)
    | (OutOfFuel, _) => True
    | _ => False
    end).
  { intros Hs.
    assert (exists w1, init w = (Normal tt, w1)) as [w1 Hinit].
    { unfold init, load_config, test_adb_connection, bind, pass, ret.
      destruct (config_file env) eqn:Ec; try (exfalso; apply Hs; left; congruence).
      destruct (adb_connect env) as [[]| |] eqn:Ea;
        try (exfalso; apply Hs; right; auto; fail);
        unfold log_info, log_warning, log; eauto. }
    unfold main, try_except. unfold bind at 1. unfold bind at 1.
    rewrite Hinit. unfold bind at 1.
    unfold run_automation_loop, bind at 1, log_info at 1, log at 1. cbv beta iota.
    pose proof (main_loop_exits fuel fuel
                  (emit (ELog INFO "Starting Uma automation loop...") w1)) as Hloop.
    destruct (while_true fuel (guarded_cycle fuel) _) as [[[]|e| | |] w2]; try done.
    destruct Hloop as [-> Hlast]. simpl. done. }
  split; [exact Hfail|]. split; [exact Hrun|]. split.
  - intros H1.
    assert (Hdec : startup_fails \/ ~ startup_fails).
    { subst startup_fails. destruct (config_file env);
        [|left; left; discriminate|left; left; discriminate].
      destruct (adb_connect env); [|left; right; by left|left; right; by right].
      right. intros [?|[?|?]]; done. }
    destruct Hdec as [|Hn]; [done|].
    specialize (Hrun Hn). destruct (main fuel w) as [[status| e| | |] w']; simpl in H1;
      try done. destruct Hrun as [-> _]. done.
  - intros Hs. destruct (Hfail Hs) as (d & -> & _). done.
Qed.

(** ** What can leave a cycle *)

Lemma capture_fault_cycle_signal (inner : bool) (s : Signal) :
  capture_fault s -> cycle_signal inner s.
Proof. by destruct s as [[]| | |]. Qed.

Lemma cycle_signal_inner (s : Signal) :
  cycle_signal true s -> s = SBrk \/ s = SCont \/ cycle_signal false s.
Proof. destruct s as [e| | |]; simpl; auto. Qed.

Lemma yields_bind_ret {A B} (a : A) (k : A -> M B) (P : Signal -> Prop) :
  yields (k a) P -> yields (bind (ret a) k) P.
Proof. intros H w s. unfold bind, ret. apply H. Qed.

Lemma yields_bind_raise {A B} (e : Exn) (k : A -> M B) (P : Signal -> Prop) :
  P (SRaised e) -> yields (bind (raise e) k) P.
Proof. intros H w s. unfold bind, raise. simpl. by intros [= <-]. Qed.

Ltac signal_leaf :=
  unfold log_debug, log_info, log_warning, log_error, pass;
  lazymatch goal with
  | |- yields (ret _) _ => apply yields_ret
  | |- yields (log _ _) _ => apply yields_log
  | |- yields continue_ _ => by apply yields_continue
  | |- yields break_ _ => apply yields_break; simpl; done
  | |- yields (remove_if_exists _) _ => apply yields_remove_if_exists
  | |- yields (find_template _ _ _) _ => apply yields_find_template
  | |- yields take_screenshot _ =>
      apply yields_take_screenshot, capture_fault_cycle_signal
  | |- yields (tap_coordinate _ _) _ =>
      apply yields_tap_coordinate, capture_fault_cycle_signal
  | |- yields (find_and_tap _ _ _) _ =>
      apply yields_find_and_tap, capture_fault_cycle_signal
  | |- yields tp_charge _ => apply yields_tp_charge, capture_fault_cycle_signal
  | |- yields manual_choose_friend _ =>
      apply yields_manual_choose_friend, capture_fault_cycle_signal
  | |- yields (?sleep ?d) _ =>
      first [apply yields_wait | apply yields_time_sleep];
      [apply capture_fault_cycle_signal|];
      unfold sleep_ok;
      first [ positive_sleep
            | let Hneg := fresh "Hneg" in
              intros Hneg; simpl; exists d; split; [exact Hneg|tauto] ]
  end.

Ltac signal_step :=
  lazymatch goal with
  | |- yields (bind (config_get ?v) _) _ =>
      let Hkey := fresh "Hkey" in
      destruct v eqn:Hkey;
      [apply yields_bind_ret
      |apply yields_bind_raise; simpl; unfold missing_setting; tauto]
  | |- yields (bind _ _) _ => apply yields_bind; [|intros ?]
  | |- yields (try_finally _ _) _ => apply yields_try_finally
  | |- yields (for_range _ _) _ => apply yields_for_range
  | |- yields (while_true _ _) (cycle_signal false) =>
      apply (yields_while_true _ _ (cycle_signal true));
      [|apply cycle_signal_inner|exact I]
  | |- yields (if ?b then _ else _) _ => destruct b eqn:?
  | |- yields (match ?x with _ => _ end) _ => destruct x eqn:?
  | |- yields _ _ => signal_leaf
  end.

Lemma yields_cycle (fuel : nat) : yields (cycle fuel) (cycle_signal false).
Proof.
  unfold cycle, steps_1_to_4, step_5, step_6, step_6_body, steps_7_to_11, step_12,
    steps_13_to_15, step_16, step_16_body, step_14_5, steps_17_18.
  cbv zeta.
  repeat signal_step.
Qed.


(** ** tap_coordinate: a tap that fails *)


End Engine.

(** * The set-up check *)

Section SetupCheck.

Import TestSetup.

Lemma test_template_images_cases (m : Machine) :
  fst (test_template_images m) =
    Normal (forallb (fun image => file_exists m (image_path image)) required_images).
Proof.
  unfold test_template_images. generalize required_images. intros l.
  induction l as [|image l IH]; simpl; [done|].
  destruct (file_exists m (image_path image)); simpl; [|done].
  by destruct (List.filter _ l).
Qed.

Lemma required_images_present (m : Machine) :
  fst (test_template_images m) = Normal true <->
  forall image, image ∈ required_images -> file_exists m (image_path image) = true.
Proof.
  rewrite test_template_images_cases. split.
  - intros H image Hin.
    apply (f_equal (fun o => match o with Normal b => b | _ => false end)) in H.
    cbv beta iota in H. rewrite forallb_forall in H.
    apply H. by apply list_elem_of_In.
  - intros H. f_equal. apply forallb_forall. intros image Hin.
    apply H. by apply list_elem_of_In.
Qed.

(** X19.  [test_template_images] never raises.  It returns True exactly when
    each of the seventeen required images exists under assets/buttons, and
    otherwise it lists the required images that are absent - all of them,
    in the order of the list, after one heading line. *)
Theorem template_images_complete (m : Machine) :
  let missing :=
    List.filter (fun image => negb (file_exists m (image_path image))) required_images in
  (fst (test_template_images m) = Normal true <->
   forall image, image ∈ required_images -> file_exists m (image_path image) = true) /\
  (fst (test_template_images m) = Normal true \/
   fst (test_template_images m) = Normal false) /\
  (fst (test_template_images m) = Normal false ->
   snd (test_template_images m) =
     "❌ Missing template images:" :: map (fun image => "   - " +:+ image) missing /\
   missing <> []) /\
  length required_images = 17%nat.
Proof.
  intros missing. split; [|split; [|split]].
  - apply required_images_present.
  - rewrite test_template_images_cases. destruct (forallb _ _); auto.
  - unfold test_template_images. fold missing. by destruct missing.
  - reflexivity.
Qed.

Lemma test_adb_installation_cases (m : Machine) :
  fst (test_adb_installation m) =
    Normal (match adb_version m with VersionOk _ => true | _ => false end).
Proof. unfold test_adb_installation. by destruct (adb_version m). Qed.

Lemma test_config_file_cases (m : Machine) :
  fst (test_config_file m) =
    match config_json m with
    | JsonValid (Some _) => Normal true
    | JsonValid None => Raised KeyError
    | _ => Normal false
    end.
Proof. unfold test_config_file. by destruct (config_json m) as [| |[]]. Qed.

Lemma test_python_dependencies_cases (m : Machine) :
  fst (test_python_dependencies m) =
    Normal (match cv2_version m, numpy_version m with
            | Some _, Some _ => true
            | _, _ => false
            end).
Proof.
  unfold test_python_dependencies. by destruct (cv2_version m), (numpy_version m).
Qed.

Lemma test_adb_connection_cases (m : Machine) :
  fst (test_adb_connection m) =
    Normal (match config_json m, adb_connect m with
            | JsonValid (Some _), Answered true _ => true
            | _, _ => false
            end).
Proof.
  unfold test_adb_connection.
  by destruct (config_json m) as [| |[]], (adb_connect m) as [[]| |].
Qed.


End SetupCheck.

(** * The properties on concrete runs *)

Import Scenario.


(** C6 at the two thresholds the script uses, 0.7 and 0.8. *)
Lemma threshold_monotone_witness :
  (forall template_name shot w c,
      fst (find_template matcher cfg template_name shot (8 # 10) w) = Normal (Some c) ->
      fst (find_template matcher cfg template_name shot (7 # 10) w) = Normal (Some c)) /\
  (forall result, sublist (np_where_ge result (8 # 10)) (np_where_ge result (7 # 10))) /\
  (forall result loc,
      loc ∈ np_where_ge result (8 # 10) -> loc ∈ np_where_ge result (7 # 10)).
Proof. apply (threshold_monotone matcher cfg (7 # 10) (8 # 10)). reflexivity. Defined.



(** C1 on the frame with a dark and a lit use button. *)
Lemma find_use_buttons_order_witness :
  let candidates :=
    List.filter (bright two_buttons 170)
      (List.filter (in_frame two_buttons)
         (map (center (flat 50)) (np_where_ge use_scores default_threshold))) in
  fst (find_use_buttons_with_brightness_filter matcher cfg "shot.png" 170 use_world) =
    Normal (dedupe candidates) /\
  (forall c, c ∈ dedupe candidates -> c ∈ candidates) /\
  (forall i j a b, i < j -> dedupe candidates !! i = Some a ->
                   dedupe candidates !! j = Some b -> too_close b a = false)%nat /\
  (forall c, c ∈ candidates ->
             c ∈ dedupe candidates \/
             exists k, k ∈ dedupe candidates /\ too_close c k = true).
Proof.
  apply (find_use_buttons_order matcher cfg "shot.png" 170 use_world two_buttons (flat 50)
           use_scores); reflexivity.
Defined.

(** On that frame the code returns the lit button; de-duplicating before
    the brightness filter would keep the dark button of the pair and then
    drop it, returning nothing. *)
Lemma find_use_buttons_order_counterexample :
  fst (find_use_buttons_with_brightness_filter matcher cfg "shot.png" 170 use_world) =
    Normal [(10, 0)] /\
  unique_then_bright two_buttons (flat 50) use_scores 170 = [] /\
  fst (find_use_buttons_with_brightness_filter matcher cfg "shot.png" 170 use_world) <>
    Normal (unique_then_bright two_buttons (flat 50) use_scores 170).
Proof. split; [reflexivity|]. split; [reflexivity|]. discriminate. Qed.





(** C9 for a whole cycle on a screen that stays dark. *)
Lemma scratch_frames_released_witness :
  released (start buttons) (snd (cycle matcher dark cfg 1 (start buttons))).
Proof.
  destruct (scratch_frames_released matcher dark cfg) as (_ & _ & _ & Hcycle).
  apply (Hcycle 1%nat (start buttons)). vm_compute. discriminate.
Defined.

(** C10 on the frame with two use buttons: the returned coordinate is inside
    the 11 x 1 frame. *)
Lemma brightness_lookup_in_bounds_witness :
  0 <= fst (10, 0) < Z.of_nat (cols two_buttons) /\
  0 <= snd (10, 0) < Z.of_nat (rows two_buttons).
Proof.
  destruct (brightness_lookup_in_bounds matcher cfg two_buttons (flat 50) 170)
    as (_ & _ & _ & Hinside).
  apply (Hinside "shot.png" use_world [(10, 0)] (10, 0)).
  - reflexivity.
  - vm_compute. reflexivity.
  - left.
Defined.

(** ** Further properties on concrete runs *)



(** A screenshot command that times out: [find_and_tap] raises and
    [tp_charge] returns False. *)
Lemma tp_charge_absorbs_capture_faults_witness :
  (exists e, fst (find_and_tap matcher stuck cfg "restore.png" 10 0 (start buttons)) =
               Raised e /\ is_Exception e = true) /\
  exists delta,
    tp_charge matcher stuck cfg (start buttons) =
      (Normal false,
       mkWorld (fs (start buttons)) (trace (start buttons) ++ delta)
         (S (tick (start buttons)))) /\
    taps delta = [] /\ captures delta = 1%nat /\
    logged ERROR "Error in TP Charge process" delta = true.
Proof.
  apply (proj2 (tp_charge_absorbs_capture_faults matcher stuck cfg (start buttons))).
  right. reflexivity.
Defined.

(** Start-up without config.json: exit status 1. *)
Lemma main_exit_status_witness :
  exists delta,
    main matcher
      (mkEnv ConfigMissing (ConnOk true) (fun _ => CapFail) (fun _ => TapOk)
         (fun _ => false) (fun _ => 0))
      cfg 1 (start buttons) = (Normal 1, emits delta (start buttons)) /\
    forallb passive delta = true /\
    logged ERROR "Fatal error" delta = true.
Proof.
  apply (proj1 (main_exit_status matcher
                  (mkEnv ConfigMissing (ConnOk true) (fun _ => CapFail) (fun _ => TapOk)
                     (fun _ => false) (fun _ => 0))
                  cfg 1 (start buttons))).
  left. discriminate.
Defined.

(** A store without any template: one existence test, one error line. *)
Lemma unreadable_inputs_match_nothing_witness :
  find_template matcher cfg "Career.png" "shot.png" default_threshold (start []) =
    (Normal None,
     emits [EExists (path_join (template_path cfg) "Career.png");
            ELog ERROR ("Template file not found: " +:+
                        path_join (template_path cfg) "Career.png")] (start [])).
Proof.
  apply (proj1 (unreadable_inputs_match_nothing matcher cfg "Career.png" "shot.png"
                  default_threshold 170 (start []))).
  reflexivity.
Defined.

(** A capture on the lit device: the file holds the frame. *)
Lemma take_screenshot_file_witness :
  "screenshots/screenshot_1700000000.png" = screenshot_name cfg (clock lit 0) /\
  exists bytes,
    screencap lit 0 = CapOk bytes /\
    fs (snd (take_screenshot lit cfg (start buttons))) !!
      "screenshots/screenshot_1700000000.png" = Some bytes /\
    fst (imread "screenshots/screenshot_1700000000.png"
           (snd (take_screenshot lit cfg (start buttons)))) = Normal bytes /\
    forall p, p <> "screenshots/screenshot_1700000000.png" ->
              fs (snd (take_screenshot lit cfg (start buttons))) !! p =
                fs (start buttons) !! p.
Proof.
  apply (proj1 (take_screenshot_file lit cfg (start buttons))
           "screenshots/screenshot_1700000000.png"
           (snd (take_screenshot lit cfg (start buttons)))).
  apply (run_pair (take_screenshot lit cfg) _
           (Normal "screenshots/screenshot_1700000000.png")).
  vm_compute. reflexivity.
Defined.

(** With skin directories given and plus.png in none of the roots of an
    empty store, every root is looked at, in order. *)
Lemma find_template_multi_none_iff_witness :
  exists delta,
    snd (find_template_multi matcher cfg "plus.png" "shot.png" default_threshold skins
           (start [])) = emits delta (start []) /\
    consulted delta =
      (fun r => path_join r "plus.png") <$>
        (template_path cfg :: default [path_join "assets" "image"] skins).
Proof.
  apply (proj2 (find_template_multi_none_iff matcher cfg "plus.png" "shot.png"
                  default_threshold skins (start []))).
  vm_compute. reflexivity.
Defined.


